(* ===== verification/_CoqProject ===== *)
-Q . S2P
Prelude.v
Browser.v
Config.v
Geometry.v
Entities.v
World.v
Canvas.v
Spawner.v
Flow.v
Invariant.v
Update.v
Tick.v
Step.v
Page.v
Draw.v
Frame.v
Machine.v
Phases.v
Examples.v
