(* ===== verification/Prelude.v ===== *)
(** * Cosmic Miner: a verification development for [src/game.js]

    The program is a single-file HTML5 canvas game.  A ship, steered with the
    keyboard, collects crystals and avoids drifting asteroids; the game keeps a
    score, a number of lives and a difficulty level, and moves between a menu,
    a running, a paused and a game-over state.  Everything happens in browser
    callbacks: key, mouse, button and resize handlers and one animation-frame
    callback ([loop]) that advances the simulation ([update]) and redraws
    ([render]) through the 2D context of a canvas.

    ** How the code is modelled

    The model is a shallow embedding: each function of [game.js] is a Rocq
    function of the same name, written statement by statement in the order of
    the source.

    - Numbers.  JavaScript numbers are IEEE doubles.  Quantities that are
      only ever assigned integers (score, lives, level, tick, frame counters,
      point values) are [Z]; every other number is an exact rational [Q].
      Rounding is therefore not modelled, and neither are NaN and the
      infinities: a computation that would produce one of them in the browser
      (a division by zero, arithmetic on a variable that was never assigned)
      ends the model run with the outcome [Throw NotANumber].  Comparisons
      are [bool_decide] of the order of [Q] or [Z]; [Math.floor] is [Qfloor],
      [Math.max] and [Math.min] are [Qmax] and [Qmin].
    - The browser.  [Math.random] and [performance.now] read from two tapes
      kept in the environment [Env] (file [Browser]): the n-th call returns
      the n-th entry.  Theorems that need it assume that random draws lie in
      [0, 1) and that the clock does not run backwards ([Env_ok]).
      [Math.sin], [Math.cos], [Math.atan2], [Math.hypot] and [Math.PI] are
      the fields of the interface [MathLib] (file [Browser]) with the few
      laws the game relies on; the theorems hold for every instance, and
      [RatMathLib] is an executable one.
    - Effects.  The globals [STATE], [entities], [keys], [mouse], [lastTime]
      and the DOM nodes the script writes to are the fields of one record,
      [World] (file [World]); a [Page] (file [Page]) is the world together
      with the canvas element and its drawing context.  Code that reads and
      writes them is written in the state-and-exception monad [Comp] of this
      file, over worlds ([M]) or over pages ([P]); an uncaught JavaScript
      exception is the outcome [Throw].
    - The canvas.  The drawing context (file [Canvas], module [Ctx]) has the
      state the HTML standard gives it: the drawing state, the stack of
      saved drawing states, the current path and the bitmap.  Each method
      and each assigned property is a function on this state; the bitmap is
      the list of the shapes painted, each with the geometry and the drawing
      state it was painted with.  An assignment to [canvas.width] or
      [canvas.height] truncates the value and resets the context.
    - Collections.  Arrays are lists; [forEach] is [for_each] where the body
      has effects and [fmap] where it has none, [filter] is [List.filter],
      the reverse [for] loop with [splice] is a recursion on the index that
      uses list lookup and [delete].  The key set is a [gset string], the
      colour tables of [Crystal.draw] are [gmap string string].
    - Events.  A call of a listener by the browser is an [Event] (file
      [Machine]); [step] relates the page before and after the handler of an
      event, [reachable] holds of the pages after the top level of the
      script and any sequence of events.

    ** Files

    - [Prelude] (this file): decidable order on [Q], arithmetic tactics, the
      monad [Comp] with its weakest-precondition rules and loop combinators.
    - [Browser]: [Env], [random], [performanceNow], [rand], [choice]; the
      interface [MathLib] and its instance [RatMathLib].
    - [Config]: the [CONFIG] table (lines 6-24) and the conditions under
      which a table is sensible ([Config_ok]).
    - [Geometry]: [clamp] (75), circle bounds and the overlap test [hit]
      (367-372).
    - [Entities]: the classes [Ship] (100-189), [Asteroid] (193-243),
      [Crystal] (247-289), [Particle] (293-313): constructors, [update],
      [bounds], [dead], each in a module of the name of the class.
    - [World]: [STATE] (44-54), [entities] (67-72), the DOM nodes (31-41)
      and the record [World] with its setters.
    - [Canvas]: the 2D context, module [Ctx], and its laws ([restore] undoes
      [save]; invalid assignments are ignored).
    - [Spawner]: [spawnAsteroid], [spawnCrystal], [spawnExplosion],
      [spawnSparkle] (327-364).
    - [Flow]: [updateHUD] (375-385), [reset] (79-97), [start],
      [togglePause], [gameOver], [restart] (388-409), [Ship.hit] (172-185)
      and the [phase] the flags of [STATE] stand for.
    - [Invariant]: [Sim_ok], the invariant of the world, the speed limit
      of the asteroids ([asteroids_slow]) and the relation [moves] between
      the worlds before and after a piece of the simulation.
    - [Update]: the simulation step [update] (426-474), block by block.
    - [Tick]: what a step does exactly in a tick in which no timer is due.
    - [Step]: [update] keeps [Sim_ok] and the speed limit; the theorems
      on the counters.
    - [Page]: the canvas element, [Page], the calls of the context as
      computations on pages and the rules by which drawing code is run
      symbolically; the relation [paints] between the pages before and after
      a piece of drawing code.
    - [Draw]: [Ship.draw] (127-171), [Asteroid.draw] (218-240),
      [Crystal.draw] (258-288), [Particle.draw] (304-312) and [render]
      (476-505), and what each of them paints.
    - [Frame]: the frame callback [loop] (418-424).
    - [Machine]: the listeners (58-64, 318-324, 412-414), [resizeCanvas]
      (508-515), the top level [boot] (417, 516-522), events, [step],
      [reachable], the invariant [Page_ok] of the page.
    - [Phases]: the state machine of the game and the refinement of it by
      the pages.
    - [Examples]: the theorems applied to the table [CONFIG] of the source
      and to concrete worlds and pages.

    ** What is proved

    - Entities: the ship stays inside the playfield and moves by at most its
      speed; asteroids stay in the band of the wrap-around; a particle dies
      after its life time and is visible exactly while it is alive.
    - Spawners: where asteroids and crystals are put, how many particles an
      explosion adds.
    - Flow: [Ship.hit] on each of its three branches, [togglePause] and its
      round trip, [reset].
    - Simulation step: [update] never throws on a running world that satisfies
      [Sim_ok] and keeps it, and keeps every asteroid within the speed its
      type and the level allow; what it does to tick, lives, score and level;
      the in-place crystal loop is a filter; invulnerability protects the
      ship; the scenario of a hit and a collection in the same tick.
    - Rendering: each [draw] method paints a known list of shapes and leaves
      the drawing state and the stack as it found them; [render] paints
      background, crystals, asteroids, ship, particles and the pause text
      in this order, changes nothing of the world but the position in the
      random tape, and throws when there is no ship; which device pixels it
      clears.
    - Machine: [boot] and every handler keep [Page_ok], so no handler throws
      on a reachable page; on every reachable page the counters are in
      range, the entities are inside their bounds, the HUD and the overlays
      show the state, and the drawing context is in its base state; the
      position of the mouse is kept in pixels of the bitmap.
    - Phases: the pages refine the state machine menu, running, paused, game
      over; the score never drops during a run; the asteroids of every
      reachable page are within the speed limit; from every reachable page
      the running phase is at most one click away.

    ** Bounds

    No definition uses fuel: every loop of the script runs over a list or
    counts down a natural number ([for_each], [repeatM], the recursion of
    [ship_crystal] on the index), so every definition is structurally
    recursive and total.  The number of frames and of events is not bounded:
    [reachable] is an inductive relation and the theorems on it are proved
    by induction.  The pixel ratio is capped at 2 by the script itself.

    ** What is not modelled

    - Floating-point rounding, NaN and the infinities (see Numbers above).
    - The pixels: colours, fonts, gradients and shadows are kept as the
      values the script assigns, and a painted shape is its geometry and
      drawing state, not a set of pixels.
    - [requestAnimationFrame]: when a frame runs is the choice of the
      browser; a frame is the event [Frame] with an arbitrary time stamp.
    - The page ([index.html], CSS) is not part of the sources; what is
      assumed of it is stated in [Machine.enabled]: a button can be clicked
      only while the overlay that holds it is shown, and the pixel ratio of
      the window is not negative; and in [World.initial]: no overlay is
      shown before the script runs.
    - Properties inherited from [Object.prototype]: a colour name such as
      "constructor" finds an entry in the tables of [Crystal.draw] in the
      browser and none in the model; the table [CONFIG] has no such name.
    - Object identity: an entity is a value, and an update replaces it in
      its list.
    - Empty tables: with [CONFIG.asteroidTypes] or [CONFIG.crystalTypes]
      empty the model throws the TypeError where the type is chosen, the
      source where it is first read.  [Config_ok] excludes empty tables.
    - Default arguments: [Particle]'s [life] and [speed] and [Asteroid]'s
      [wave] are passed by every call of the source. *)

From Stdlib Require Export QArith Qround Qabs Qminmax Lqa ZArith Lia.
From stdpp Require Export base tactics decidable option list.

#[global] Open Scope Z_scope.
#[global] Open Scope Q_scope.

(** [simpl] leaves the arithmetic of [Q] alone. *)
#[global] Arguments Qplus : simpl never.
#[global] Arguments Qminus : simpl never.
#[global] Arguments Qmult : simpl never.
#[global] Arguments Qdiv : simpl never.
#[global] Arguments Qopp : simpl never.
#[global] Arguments Qinv : simpl never.
#[global] Arguments Qabs : simpl never.
#[global] Arguments Qle : simpl never.
#[global] Arguments Qlt : simpl never.
#[global] Arguments Qeq : simpl never.
#[global] Arguments Qfloor : simpl never.
#[global] Arguments Qceiling : simpl never.
#[global] Arguments inject_Z : simpl never.

(** ** Decidable order on the rationals *)

#[export] Instance Qle_dec : RelDecision Qle := fun x y => Z.le_dec _ _.
#[export] Instance Qlt_dec : RelDecision Qlt := fun x y => Z.lt_dec _ _.
#[export] Instance Qeq_dec' : RelDecision Qeq := fun x y => Z.eq_dec _ _.

#[export] Instance Qle_preorder : PreOrder Qle :=
  {| PreOrder_Reflexive := Qle_refl; PreOrder_Transitive := Qle_trans |}.
#[export] Instance Qlt_strict : StrictOrder Qlt :=
  {| StrictOrder_Irreflexive := Qlt_irrefl; StrictOrder_Transitive := Qlt_trans |}.

Declare Scope js_scope.
Delimit Scope js_scope with js.

(** JavaScript's comparison operators on numbers. *)
Notation "a <? b" := (bool_decide (Qlt a b)) : js_scope.
Notation "a <=? b" := (bool_decide (Qle a b)) : js_scope.
Notation "a >? b" := (bool_decide (Qlt b a)) : js_scope.
Notation "a >=? b" := (bool_decide (Qle b a)) : js_scope.
Notation "a =? b" := (bool_decide (Qeq a b)) : js_scope.
Notation "a <>? b" := (negb (bool_decide (Qeq a b))) (at level 70) : js_scope.

(** ** Arithmetic automation *)

(** [qminmax] replaces every [Qmax] and [Qmin] of the goal and the context
    by a variable, in each of the two cases of its specification. *)
Ltac qmm_abstract f a b spec :=
  let H := fresh "Hmm" in
  let m := fresh "m" in
  pose proof (spec a b) as H;
  set (m := f a b) in *; clearbody m;
  destruct H as [[? ?]|[? ?]].
Ltac qminmax_step :=
  match goal with
  | |- context [Qmax ?a ?b] => qmm_abstract Qmax a b Q.max_spec_le
  | |- context [Qmin ?a ?b] => qmm_abstract Qmin a b Q.min_spec_le
  | _ : context [Qmax ?a ?b] |- _ => qmm_abstract Qmax a b Q.max_spec_le
  | _ : context [Qmin ?a ?b] |- _ => qmm_abstract Qmin a b Q.min_spec_le
  end.
Ltac qminmax := repeat qminmax_step.

(** [lra] does not know the division of [Q]; [qdiv] turns every division by
    a constant into a multiplication, and [qlra] is [lra] after it. *)
Ltac qdiv_step :=
  match goal with
  | |- context [Qinv (Qmake ?n ?d)] =>
      let v := eval vm_compute in (Qinv (Qmake n d)) in
      change (Qinv (Qmake n d)) with v
  | H : context [Qinv (Qmake ?n ?d)] |- _ =>
      let v := eval vm_compute in (Qinv (Qmake n d)) in
      change (Qinv (Qmake n d)) with v in H
  end.
Ltac qdiv := unfold Qdiv in *; repeat qdiv_step.
Ltac qlra := qdiv; lra.

(** [qcases] makes the case analysis of every comparison the goal branches
    on, leaving the facts for [lra]. *)
Ltac qcases := repeat case_bool_decide.
Ltac qsolve := qcases; simpl in *; try lra; try lia; try done.

Create HintDb game discriminated.

Lemma Qsqr_nonneg (x : Q) : 0 <= x * x.
Proof. destruct (Qlt_le_dec x 0); nra. Qed.

Lemma Qabs_le_iff (x y : Q) : Qabs x <= y <-> - y <= x /\ x <= y.
Proof. apply Qabs_Qle_condition. Qed.

Lemma Qabs_bound (x b : Q) : - b <= x -> x <= b -> Qabs x <= b.
Proof. intros; apply Qabs_Qle_condition; split; assumption. Qed.

Lemma inject_Z_le (a b : Z) : (a <= b)%Z <-> inject_Z a <= inject_Z b.
Proof. now rewrite Zle_Qle. Qed.

Lemma inject_Z_lt (a b : Z) : (a < b)%Z <-> inject_Z a < inject_Z b.
Proof. now rewrite Zlt_Qlt. Qed.

Lemma inject_Z_nonneg (z : Z) : (0 <= z)%Z -> 0 <= inject_Z z.
Proof. intros Hz. change 0 with (inject_Z 0). now rewrite <- Zle_Qle. Qed.

Lemma Qfloor_bounds (x : Q) (lo hi : Z) :
  inject_Z lo <= x -> x < inject_Z hi -> (lo <= Qfloor x < hi)%Z.
Proof.
  intros Hlo Hhi; split.
  - rewrite <- (Qfloor_Z lo). now apply Qfloor_resp_le.
  - apply inject_Z_lt. eapply Qle_lt_trans; [apply Qfloor_le|exact Hhi].
Qed.

Lemma Qmult_lt_1_bound (r n : Q) : 0 <= r -> r < 1 -> 0 < n -> 0 <= r * n /\ r * n < n.
Proof. intros; split; nra. Qed.

#[export] Hint Resolve Qabs_nonneg Qle_refl Qabs_bound : game.

(** ** The monad of the model

    [Comp S A] is a computation on a state [S] that returns an [A] or ends
    with an uncaught exception.  [TypeError] is what JavaScript raises on a
    property access on [null] or [undefined]; [IndexSizeError] is the
    DOMException of a canvas method given a negative radius; [NotANumber]
    marks a run that leaves the model (see the header). *)

Inductive JsError : Set := TypeError | IndexSizeError | NotANumber.

Inductive Res (St A : Type) : Type :=
| Ok (a : A) (s : St)
| Throw (e : JsError).
Arguments Ok {St A} a s.
Arguments Throw {St A} e.

Definition Comp (St A : Type) : Type := St -> Res St A.

Section Comp.
Context {St : Type}.

Definition ret {A} (a : A) : Comp St A := fun s => Ok a s.

Definition bind {A B} (m : Comp St A) (k : A -> Comp St B) : Comp St B :=
  fun s => match m s with
           | Ok a s' => k a s'
           | Throw e => Throw e
           end.

Definition throw {A} (e : JsError) : Comp St A := fun _ => Throw e.
Definition gets {A} (f : St -> A) : Comp St A := fun s => Ok (f s) s.
Definition modify (f : St -> St) : Comp St unit := fun s => Ok tt (f s).

(** [when c m]: the statement [if (c) m]. *)
Definition when (c : bool) (m : Comp St unit) : Comp St unit :=
  if c then m else ret tt.

(** [unwrap o]: use of a value that may be [null] or [undefined]. *)
Definition unwrap {A} (o : option A) : Comp St A :=
  match o with Some a => ret a | None => throw TypeError end.

(** [repeatM n m]: a counted [for] loop whose body ignores the index. *)
Fixpoint repeatM (n : nat) (m : Comp St unit) : Comp St unit :=
  match n with
  | O => ret tt
  | S n' => bind m (fun _ => repeatM n' m)
  end.

(** [for_each l body]: a loop that runs [body] on the elements of [l] in
    order, as [for (const a of l)] and the counted [for] loops do. *)
Fixpoint for_each {A} (l : list A) (body : A -> Comp St unit) : Comp St unit :=
  match l with
  | [] => ret tt
  | a :: l' => bind (body a) (fun _ => for_each l' body)
  end.
End Comp.

#[export] Instance Comp_ret {St} : MRet (Comp St) := @ret St.
#[export] Instance Comp_bind {St} : MBind (Comp St) := fun A B k m => bind m k.

(** The operations whose definitions [comp_run] unfolds; every file adds its
    own. *)
Create HintDb comp discriminated.
#[export] Hint Unfold mbind mret Comp_bind Comp_ret bind ret throw gets modify
  when unwrap : comp.

(** [comp_run] evaluates the computation in the goal as far as the state
    allows. *)
Ltac comp_run := autounfold with comp; cbn.

(** [zoom get set m] runs a computation on a component of the state. *)
Definition zoom {St T A} (get : St -> T) (set : T -> St -> St) (m : Comp T A) : Comp St A :=
  fun s => match m (get s) with
           | Ok a t => Ok a (set t s)
           | Throw e => Throw e
           end.

#[export] Hint Unfold zoom : comp.

(** ** Weakest preconditions

    [wp m Q s]: run from [s], [m] does not throw and its result and final
    state satisfy [Q]. *)

Definition wp {St A} (m : Comp St A) (Q : A -> St -> Prop) (s : St) : Prop :=
  match m s with
  | Ok a s' => Q a s'
  | Throw _ => False
  end.

(** [succeeds m s]: [m] does not throw from [s]. *)
Definition succeeds {St A} (m : Comp St A) (s : St) : Prop := wp m (fun _ _ => True) s.

(** [exec m s]: the final state, or [s] itself when [m] throws. *)
Definition exec {St A} (m : Comp St A) (s : St) : St :=
  match m s with Ok _ s' => s' | Throw _ => s end.

Section WpRules.
Context {St : Type}.
Implicit Types s : St.

(** The bind of the monad, run. *)
Lemma bind_run {A B} (m : Comp St A) (k : A -> Comp St B) s :
  (m ≫= k) s = match m s with Ok a s' => k a s' | Throw e => Throw e end.
Proof. reflexivity. Qed.

Lemma wp_ok {A} (m : Comp St A) Q s a s' : m s = Ok a s' -> Q a s' -> wp m Q s.
Proof. unfold wp; now intros ->. Qed.

Lemma wp_inv {A} (m : Comp St A) Q s :
  wp m Q s -> exists a s', m s = Ok a s' /\ Q a s'.
Proof. unfold wp; destruct (m s); [eauto|tauto]. Qed.

Lemma wp_iff {A} (m : Comp St A) Q s :
  wp m Q s <-> exists a s', m s = Ok a s' /\ Q a s'.
Proof.
  split; [apply wp_inv|]. intros (a & s' & H & HQ). eapply wp_ok; eauto.
Qed.

Lemma wp_ret {A} (a : A) (Q : A -> St -> Prop) s : Q a s -> wp (mret a) Q s.
Proof. done. Qed.

Lemma wp_bind {A B} (m : Comp St A) (k : A -> Comp St B) Q s :
  wp m (fun a s' => wp (k a) Q s') s -> wp (m ≫= k) Q s.
Proof. unfold wp, mbind, Comp_bind, bind. now destruct (m s). Qed.

Lemma wp_bind_inv {A B} (m : Comp St A) (k : A -> Comp St B) Q s :
  wp (m ≫= k) Q s -> wp m (fun a s' => wp (k a) Q s') s.
Proof. unfold wp, mbind, Comp_bind, bind. now destruct (m s). Qed.

Lemma wp_mono {A} (m : Comp St A) (P Q : A -> St -> Prop) s :
  wp m P s -> (forall a s', P a s' -> Q a s') -> wp m Q s.
Proof. unfold wp. destruct (m s); [auto|tauto]. Qed.

Lemma wp_conj {A} (m : Comp St A) (P Q : A -> St -> Prop) s :
  wp m P s -> wp m Q s -> wp m (fun a s' => P a s' /\ Q a s') s.
Proof. unfold wp. destruct (m s); tauto. Qed.

Lemma wp_gets {A} (f : St -> A) Q s : Q (f s) s -> wp (gets f) Q s.
Proof. done. Qed.

Lemma wp_modify (f : St -> St) Q s : Q tt (f s) -> wp (modify f) Q s.
Proof. done. Qed.

Lemma wp_when (c : bool) (m : Comp St unit) Q s :
  (c = true -> wp m Q s) -> (c = false -> Q tt s) -> wp (when c m) Q s.
Proof. destruct c; intros H1 H2; [now apply H1|now apply H2]. Qed.

Lemma wp_unwrap {A} (o : option A) Q s a : o = Some a -> Q a s -> wp (unwrap o) Q s.
Proof. now intros ->. Qed.

(** A counted loop preserves what its body preserves. *)
Lemma wp_repeatM (I : nat -> St -> Prop) (m : Comp St unit) n s :
  I 0%nat s ->
  (forall i s', (i < n)%nat -> I i s' -> wp m (fun _ s'' => I (S i) s'') s') ->
  wp (repeatM n m) (fun _ s' => I n s') s.
Proof.
  revert I s. induction n as [|n IH]; intros I s H0 Hstep; [done|].
  simpl. apply (wp_bind m (fun _ => repeatM n m)).
  eapply wp_mono; [apply (Hstep 0%nat); [lia|done]|].
  intros [] s' H1. apply (IH (fun i => I (S i))); [done|].
  intros i s'' Hi. apply Hstep. lia.
Qed.

(** A loop over a list: [I done] holds after the elements [done]. *)
Lemma wp_for_each {A} (I : list A -> St -> Prop) (body : A -> Comp St unit) l s :
  I [] s ->
  (forall pre a s', (exists post, l = pre ++ a :: post) -> I pre s' ->
                    wp (body a) (fun _ s'' => I (pre ++ [a]) s'') s') ->
  wp (for_each l body) (fun _ s' => I l s') s.
Proof.
  revert I s. induction l as [|a l IH]; intros I s H0 Hstep; [done|].
  simpl. apply (wp_bind (body a) (fun _ => for_each l body)).
  eapply wp_mono; [apply (Hstep [] a); [by exists l|done]|].
  intros [] s' H1. apply (IH (fun pre => I (a :: pre))); [done|].
  intros pre b s'' [post ->] Hpre. apply (Hstep (a :: pre)); [|done].
  by exists post.
Qed.

(** The same loop, one element at a time, when more code follows it. *)
Lemma wp_for_each_cons {A B} (body : A -> Comp St unit) a l (k : unit -> Comp St B) Q s :
  wp (body a ≫= fun _ => for_each l body ≫= k) Q s -> wp (for_each (a :: l) body ≫= k) Q s.
Proof. unfold wp, mbind, Comp_bind, bind; cbn. unfold bind. now destruct (body a s). Qed.

Lemma wp_for_each_nil {A B} (body : A -> Comp St unit) (k : unit -> Comp St B) Q s :
  wp (k tt) Q s -> wp (for_each [] body ≫= k) Q s.
Proof. done. Qed.

Lemma wp_zoom {T A} (get : St -> T) (set : T -> St -> St) (m : Comp T A) Q s :
  wp m (fun a t => Q a (set t s)) (get s) -> wp (zoom get set m) Q s.
Proof. unfold wp, zoom. now destruct (m (get s)). Qed.

Lemma exec_ok {A} (m : Comp St A) s a s' : m s = Ok a s' -> exec m s = s'.
Proof. unfold exec; now intros ->. Qed.

(** A computation that satisfies a postcondition runs to [exec]. *)
Lemma wp_run (m : Comp St unit) Q s : wp m Q s -> m s = Ok tt (exec m s) /\ Q tt (exec m s).
Proof. unfold wp, exec. destruct (m s) as [ [] s'|]; [done|tauto]. Qed.

(** The bind of a computation whose outcome is known. *)
Lemma bind_ok {A B} (m : Comp St A) (k : A -> Comp St B) s a s' :
  m s = Ok a s' -> (m ≫= k) s = k a s'.
Proof. rewrite bind_run. now intros ->. Qed.

Lemma bind_throw {A B} (m : Comp St A) (k : A -> Comp St B) s e :
  m s = Throw e -> (m ≫= k) s = Throw e.
Proof. rewrite bind_run. now intros ->. Qed.

(** A computation throws when its first part succeeds and the rest
    throws. *)
Lemma throws_bind {A B} (m : Comp St A) (k : A -> Comp St B) s e :
  wp m (fun a s' => k a s' = Throw e) s -> (m ≫= k) s = Throw e.
Proof. rewrite bind_run. unfold wp. now destruct (m s). Qed.

(** A computation whose final state is known. *)
Lemma wp_eq (m : Comp St unit) s s' : wp m (fun _ x => x = s') s -> m s = Ok tt s'.
Proof. unfold wp. destruct (m s) as [ [] x|]; [now intros ->|tauto]. Qed.

Lemma wp_exec {A} (m : Comp St A) Q s : wp m Q s -> exists a, Q a (exec m s).
Proof. unfold wp, exec. destruct (m s); [eauto|tauto]. Qed.
End WpRules.

(** [wp_step] takes the computation in the goal apart by one rule. *)
Ltac wp_step :=
  lazymatch goal with
  | |- wp (mbind _ _) _ _ => apply wp_bind
  | |- wp (mret _) _ _ => apply wp_ret
  | |- wp (ret _) _ _ => apply wp_ret
  | |- wp (gets _) _ _ => apply wp_gets
  | |- wp (modify _) _ _ => apply wp_modify
  | |- wp (when _ _) _ _ => apply wp_when; intros ?
  | |- wp (if ?c then _ else _) _ _ => destruct c eqn:?
  end.
Ltac wp_steps := repeat wp_step.

(** ** Lists *)

(** [arr[i]] for an integer-valued number [i]: [undefined] when [i] is
    negative or not below the length. *)
Definition nth_js {A} (arr : list A) (i : Z) : option A :=
  if bool_decide (i < 0)%Z then None else arr !! Z.to_nat i.

Lemma nth_js_Some {A} (arr : list A) (i : Z) :
  (0 <= i < Z.of_nat (length arr))%Z -> exists a, nth_js arr i = Some a /\ a ∈ arr.
Proof.
  intros Hi. unfold nth_js. rewrite bool_decide_eq_false_2 by lia.
  destruct (lookup_lt_is_Some_2 arr (Z.to_nat i)) as [a Ha]; [lia|].
  exists a; split; [done|]. eapply list_elem_of_lookup_2, Ha.
Qed.

Lemma nth_js_None {A} (arr : list A) (i : Z) :
  (i < 0 \/ Z.of_nat (length arr) <= i)%Z -> nth_js arr i = None.
Proof.
  intros Hi. unfold nth_js. case_bool_decide; [done|].
  apply lookup_ge_None_2. lia.
Qed.

Lemma take_delete {A} (l : list A) (i : nat) : take i (delete i l) = take i l.
Proof. revert i. induction l as [|a l IH]; intros [|i]; simpl; f_equal; auto. Qed.

Lemma drop_delete {A} (l : list A) (i : nat) : drop i (delete i l) = drop (S i) l.
Proof. revert i. induction l as [|a l IH]; intros [|i]; simpl; auto. Qed.

Lemma length_delete_lt {A} (l : list A) (i : nat) :
  (i < length l)%nat -> length (delete i l) = (length l - 1)%nat.
Proof.
  intros Hi. apply length_delete. now apply lookup_lt_is_Some_2.
Qed.

(** The sum of an integer attribute over a list. *)
Definition sumZ {A} (f : A -> Z) (l : list A) : Z :=
  foldr (fun a acc => (f a + acc)%Z) 0%Z l.

Lemma sumZ_nil {A} (f : A -> Z) : sumZ f [] = 0%Z.
Proof. reflexivity. Qed.

Lemma sumZ_cons {A} (f : A -> Z) (a : A) (l : list A) : sumZ f (a :: l) = (f a + sumZ f l)%Z.
Proof. reflexivity. Qed.

Lemma sumZ_singleton {A} (f : A -> Z) (a : A) : sumZ f [a] = f a.
Proof. unfold sumZ; simpl. lia. Qed.

Lemma sumZ_app {A} (f : A -> Z) (l1 l2 : list A) :
  sumZ f (l1 ++ l2) = (sumZ f l1 + sumZ f l2)%Z.
Proof.
  induction l1 as [|a l1 IH]; [done|].
  rewrite <- app_comm_cons, !sumZ_cons, IH. lia.
Qed.

Lemma sumZ_nonneg {A} (f : A -> Z) (l : list A) :
  Forall (fun a => (0 <= f a)%Z) l -> (0 <= sumZ f l)%Z.
Proof. induction 1; [done|]. rewrite sumZ_cons. lia. Qed.

#[global] Arguments sumZ : simpl never.
#[export] Hint Rewrite @sumZ_nil @sumZ_cons @sumZ_singleton @sumZ_app : game.

Lemma filter_length_le {A} (p : A -> bool) (l : list A) :
  (length (List.filter p l) <= length l)%nat.
Proof. induction l as [|a l IH]; simpl; [done|]. destruct (p a); simpl; lia. Qed.

Lemma Forall_filter_true {A} (p : A -> bool) (l : list A) :
  Forall (fun a => p a = true) (List.filter p l).
Proof.
  induction l as [|a l IH]; simpl; [constructor|].
  destruct (p a) eqn:E; [constructor|]; assumption.
Qed.

Lemma Forall_filter_impl {A} (P : A -> Prop) (p : A -> bool) (l : list A) :
  Forall (fun a => p a = true -> P a) l -> Forall P (List.filter p l).
Proof.
  induction 1 as [|a l Ha _ IH]; simpl; [constructor|].
  destruct (p a); [constructor; auto|assumption].
Qed.

Lemma Forall_filter_keep {A} (P : A -> Prop) (p : A -> bool) (l : list A) :
  Forall P l -> Forall P (List.filter p l).
Proof.
  induction 1 as [|a l Ha _ IH]; simpl; [constructor|].
  destruct (p a); [constructor|]; assumption.
Qed.
