(* ===== verification/Browser.v ===== *)
(** * Browser: the services the script calls

    [Math.random] and [performance.now] are modelled by tapes in the
    environment [Env]; [rand] and [choice] are the utilities of [game.js]
    lines 76-77.  The transcendental functions of [Math] are the interface
    [MathLib], with the laws the game relies on, and [RatMath] is a rational
    approximation that satisfies them and computes.

    Theorems: every draw of [rand] lies in its interval, [choice] returns an
    element of a non-empty array, each operation advances the tape by a known
    number of entries and keeps the environment well formed. *)

From S2P Require Import Prelude.

(** ** The environment *)

Record Env : Type := mkEnv {
  random_tape : nat -> Q;   (* the results of the calls of Math.random *)
  random_pos : nat;         (* the number of calls made so far *)
  clock_tape : nat -> Q;    (* the results of the calls of performance.now *)
  clock_pos : nat;
}.

(** The environment after [n] more calls of [Math.random]. *)
Definition skip_random (n : nat) (e : Env) : Env :=
  {| random_tape := random_tape e; random_pos := (n + random_pos e)%nat;
     clock_tape := clock_tape e; clock_pos := clock_pos e |}.

(** The environment after [n] more calls of [performance.now]. *)
Definition skip_clock (n : nat) (e : Env) : Env :=
  {| random_tape := random_tape e; random_pos := random_pos e;
     clock_tape := clock_tape e; clock_pos := (n + clock_pos e)%nat |}.

(** [Math.random()] *)
Definition random : Comp Env Q :=
  fun e => Ok (random_tape e (random_pos e)) (skip_random 1 e).

(** [performance.now()] *)
Definition performanceNow : Comp Env Q :=
  fun e => Ok (clock_tape e (clock_pos e)) (skip_clock 1 e).

(** [const rand = (a, b) => Math.random() * (b - a) + a] *)
Definition rand (a b : Q) : Comp Env Q :=
  r ← random; mret (r * (b - a) + a).

(** [const choice = (arr) => arr[Math.floor(Math.random() * arr.length)]] *)
Definition choice {A} (arr : list A) : Comp Env (option A) :=
  r ← random; mret (nth_js arr (Qfloor (r * inject_Z (Z.of_nat (length arr))))).

#[export] Hint Unfold random performanceNow rand choice : comp.

(** What the browser guarantees: draws in [0, 1), a clock that starts at a
    non-negative time and never runs backwards. *)
Record Env_ok (e : Env) : Prop := {
  random_range : forall n, 0 <= random_tape e n /\ random_tape e n < 1;
  clock_nonneg : forall n, 0 <= clock_tape e n;
  clock_mono : forall n m, (n <= m)%nat -> clock_tape e n <= clock_tape e m;
}.

(** ** The [Math] object *)

Class MathLib : Type := {
  Math_PI : Q;
  Math_sin : Q -> Q;
  Math_cos : Q -> Q;
  Math_atan2 : Q -> Q -> Q;
  Math_hypot : Q -> Q -> Q;
  Math_PI_pos : 0 < Math_PI;
  Math_sin_range : forall x, -1 <= Math_sin x /\ Math_sin x <= 1;
  Math_cos_range : forall x, -1 <= Math_cos x /\ Math_cos x <= 1;
  Math_hypot_ge_l : forall x y, Qabs x <= Math_hypot x y;
  Math_hypot_ge_r : forall x y, Qabs y <= Math_hypot x y;
  Math_hypot_0_r : forall x, Math_hypot x 0 == Qabs x;
  Math_hypot_0_l : forall y, Math_hypot 0 y == Qabs y;
}.

(** ** A rational implementation of [MathLib] *)

Module RatMath.
Definition PI : Q := 3.141592653589793.

(** Bhaskara's approximation of the sine on [0, PI]. *)
Definition bhaskara (t : Q) : Q :=
  let p := t * (PI - t) in 16 * p / (5 * PI * PI - 4 * p).

(** The argument reduced to [0, 2 PI). *)
Definition reduce (x : Q) : Q :=
  x - 2 * PI * inject_Z (Qfloor (x / (2 * PI))).

Definition sin (x : Q) : Q :=
  let t := reduce x in
  Qmax (-1) (Qmin 1 (if (t <=? PI)%js then bhaskara t else - bhaskara (t - PI))).

Definition cos (x : Q) : Q := sin (x + PI / 2).

(** The arc tangent on [-1, 1]. *)
Definition atan (z : Q) : Q := z * (PI / 4 + 0.273 * (1 - Qabs z)).

Definition atan2 (y x : Q) : Q :=
  if ((x =? 0)%js && (y =? 0)%js)%bool then 0
  else if (Qabs y <=? Qabs x)%js then
    let a := atan (y / x) in
    if (0 <? x)%js then a else if (0 <=? y)%js then a + PI else a - PI
  else
    let a := atan (x / y) in
    if (0 <? y)%js then PI / 2 - a else - PI / 2 - a.

(** The larger of the two magnitudes plus [sqrt 2 - 1] times the smaller:
    exact on the axes and on the diagonals up to the rounding of [sqrt 2]. *)
Definition hypot (x y : Q) : Q :=
  Qmax (Qabs x) (Qabs y) + 0.4142135623730951 * Qmin (Qabs x) (Qabs y).

Lemma sin_range x : -1 <= sin x /\ sin x <= 1.
Proof.
  unfold sin. split; [apply Q.le_max_l|].
  apply Q.max_lub; [discriminate|apply Q.le_min_l].
Qed.

Lemma hypot_ge_l x y : Qabs x <= hypot x y.
Proof.
  unfold hypot. pose proof (Qabs_nonneg x). pose proof (Qabs_nonneg y).
  qminmax; lra.
Qed.

Lemma hypot_ge_r x y : Qabs y <= hypot x y.
Proof.
  unfold hypot. pose proof (Qabs_nonneg x). pose proof (Qabs_nonneg y).
  qminmax; lra.
Qed.

Lemma hypot_0_r x : hypot x 0 == Qabs x.
Proof.
  unfold hypot. pose proof (Qabs_nonneg x). change (Qabs 0) with 0.
  qminmax; lra.
Qed.

Lemma hypot_0_l y : hypot 0 y == Qabs y.
Proof.
  unfold hypot. pose proof (Qabs_nonneg y). change (Qabs 0) with 0.
  qminmax; lra.
Qed.
End RatMath.

#[export] Instance RatMathLib : MathLib := {|
  Math_PI := RatMath.PI;
  Math_sin := RatMath.sin;
  Math_cos := RatMath.cos;
  Math_atan2 := RatMath.atan2;
  Math_hypot := RatMath.hypot;
  Math_PI_pos := eq_refl;
  Math_sin_range := RatMath.sin_range;
  Math_cos_range := fun x => RatMath.sin_range _;
  Math_hypot_ge_l := RatMath.hypot_ge_l;
  Math_hypot_ge_r := RatMath.hypot_ge_r;
  Math_hypot_0_r := RatMath.hypot_0_r;
  Math_hypot_0_l := RatMath.hypot_0_l;
|}.

(** ** Properties of the environment operations *)

Section env.
Implicit Types (e : Env) (a b : Q).

Lemma skip_random_ok n e : Env_ok e -> Env_ok (skip_random n e).
Proof. intros [? ? ?]; split; assumption. Qed.

Lemma skip_clock_ok n e : Env_ok e -> Env_ok (skip_clock n e).
Proof. intros [? ? ?]; split; assumption. Qed.

Lemma skip_random_add n m e : skip_random n (skip_random m e) = skip_random (n + m) e.
Proof. unfold skip_random; simpl. f_equal. lia. Qed.

Lemma skip_random_eq n m e : n = m -> skip_random n e = skip_random m e.
Proof. now intros ->. Qed.

Lemma skip_random_0 e : skip_random 0 e = e.
Proof. now destruct e. Qed.

Lemma skip_clock_add n m e : skip_clock n (skip_clock m e) = skip_clock (n + m) e.
Proof. unfold skip_clock; simpl. f_equal. lia. Qed.

Lemma skip_random_clock n m e :
  skip_random n (skip_clock m e) = skip_clock m (skip_random n e).
Proof. reflexivity. Qed.

Lemma rand_run a b e :
  rand a b e = Ok (random_tape e (random_pos e) * (b - a) + a) (skip_random 1 e).
Proof. reflexivity. Qed.

Lemma choice_run {A} (arr : list A) e :
  choice arr e =
  Ok (nth_js arr (Qfloor (random_tape e (random_pos e) * inject_Z (Z.of_nat (length arr)))))
     (skip_random 1 e).
Proof. reflexivity. Qed.

(** A draw scaled to an interval lies in the interval. *)
Lemma scale_range (r a b : Q) :
  0 <= r -> r < 1 -> a < b -> a <= r * (b - a) + a /\ r * (b - a) + a < b.
Proof. intros; split; nra. Qed.

(** The index computed by [choice] is in range. *)
Lemma choice_index (r : Q) (n : nat) :
  0 <= r -> r < 1 -> (0 < n)%nat ->
  (0 <= Qfloor (r * inject_Z (Z.of_nat n)) < Z.of_nat n)%Z.
Proof.
  intros Hr0 Hr1 Hn.
  assert (0 < inject_Z (Z.of_nat n)) as Hpos
    by (change 0 with (inject_Z 0); rewrite <- Zlt_Qlt; lia).
  destruct (Qmult_lt_1_bound r _ Hr0 Hr1 Hpos).
  now apply Qfloor_bounds.
Qed.
End env.

(** [rand(a, b)] returns a number in [[a, b)] and consumes one draw. *)
Lemma rand_range (a b : Q) (e : Env) :
  Env_ok e -> a < b ->
  wp (rand a b) (fun r e' => a <= r /\ r < b /\ e' = skip_random 1 e) e.
Proof.
  intros He Hab. eapply wp_ok; [apply rand_run|].
  destruct (random_range e He (random_pos e)) as [H0 H1].
  split_and!; [| |done]; apply scale_range; assumption.
Qed.

(** [choice(arr)] returns an element of [arr] when [arr] is not empty. *)
Lemma choice_elem {A} (arr : list A) (e : Env) :
  Env_ok e -> arr <> [] ->
  wp (choice arr) (fun o e' => (exists x, o = Some x /\ x ∈ arr) /\ e' = skip_random 1 e) e.
Proof.
  intros He Harr. eapply wp_ok; [apply choice_run|]. split; [|done].
  destruct (random_range e He (random_pos e)) as [H0 H1].
  apply nth_js_Some, choice_index; [done..|].
  destruct arr; [done|simpl; lia].
Qed.

(** [choice([])] is [undefined]. *)
Lemma choice_empty {A} (e : Env) : choice (@nil A) e = Ok None (skip_random 1 e).
Proof.
  rewrite choice_run. f_equal. apply nth_js_None. right.
  rewrite (Qfloor_comp _ (inject_Z 0)) by (simpl; ring).
  now rewrite Qfloor_Z.
Qed.
