(* ===== verification/Config.v ===== *)
(** * Config: the configuration table

    [CONFIG] is the constant of [game.js] lines 6-24.  The operations of the
    other files take the configuration as a parameter, so that their theorems
    hold for every table that satisfies [Config_ok]; [CONFIG_ok] shows that
    the table of the source does. *)

From stdpp Require Import strings.
From S2P Require Import Prelude.

(** [CONFIG.ship] *)
Record ShipConfig : Type := {
  ship_speed : Q;
  ship_size : Q;
  ship_invFrames : Z;
}.

(** An entry of [CONFIG.asteroidTypes]: [{ size, speed }]. *)
Record AsteroidType : Type := {
  at_size : Q;
  at_speed : Q;
}.

(** An entry of [CONFIG.crystalTypes]: [{ color, points, size }]. *)
Record CrystalType : Type := {
  ct_color : string;
  ct_points : Z;
  ct_size : Q;
}.

Record Config : Type := {
  width : Q;
  height : Q;
  initialLives : Z;
  crystalSpawnMs : Q;
  initialAsteroids : Z;
  difficultyIntervalMs : Q;
  ship : ShipConfig;
  asteroidTypes : list AsteroidType;
  crystalTypes : list CrystalType;
}.

Definition CONFIG : Config := {|
  width := 800;
  height := 600;
  initialLives := 3;
  crystalSpawnMs := 2000;
  initialAsteroids := 3;
  difficultyIntervalMs := 30000;
  ship := {| ship_speed := 5; ship_size := 20; ship_invFrames := 120 |};
  asteroidTypes := [
    {| at_size := 30; at_speed := 2 |};
    {| at_size := 45; at_speed := 1.5 |};
    {| at_size := 60; at_speed := 1.0 |}
  ];
  crystalTypes := [
    {| ct_color := "blue"; ct_points := 10; ct_size := 15 |};
    {| ct_color := "purple"; ct_points := 20; ct_size := 18 |};
    {| ct_color := "green"; ct_points := 15; ct_size := 16 |}
  ];
|}.

(** The conditions on a configuration that the theorems rely on: the ship
    fits in the playfield, also at its start position three quarters down,
    the playfield is larger than the margins [spawnCrystal] keeps, the
    counters are sensible, the tables are not empty and hold non-negative
    sizes and points. *)
Class Config_ok (cfg : Config) : Prop := {
  ship_size_pos : 0 < ship_size (ship cfg);
  ship_fits_width : 2 * ship_size (ship cfg) <= width cfg;
  ship_fits_height : 4 * ship_size (ship cfg) <= height cfg;
  ship_speed_nonneg : 0 <= ship_speed (ship cfg);
  crystal_margin_x : 80 < width cfg;
  crystal_margin_y : 120 < height cfg;
  invFrames_pos : (0 < ship_invFrames (ship cfg))%Z;
  initialLives_pos : (0 < initialLives cfg)%Z;
  initialAsteroids_nonneg : (0 <= initialAsteroids cfg)%Z;
  intervals_pos : 0 < crystalSpawnMs cfg /\ 0 < difficultyIntervalMs cfg;
  asteroidTypes_nonempty : asteroidTypes cfg <> [];
  crystalTypes_nonempty : crystalTypes cfg <> [];
  asteroid_sizes : Forall (fun t => 0 < at_size t /\ 0 <= at_speed t) (asteroidTypes cfg);
  crystal_points : Forall (fun t => (0 <= ct_points t)%Z /\ 0 < ct_size t) (crystalTypes cfg);
}.

#[export] Instance CONFIG_ok : Config_ok CONFIG.
Proof.
  split; simpl; try done; repeat constructor; done.
Qed.

Section config.
Context (cfg : Config) `{!Config_ok cfg}.

(** The range of a ship coordinate is not empty. *)
Lemma ship_range_x : ship_size (ship cfg) <= width cfg - ship_size (ship cfg).
Proof. pose proof ship_fits_width. lra. Qed.

Lemma ship_range_y : ship_size (ship cfg) <= height cfg - ship_size (ship cfg).
Proof. pose proof ship_fits_height. pose proof ship_size_pos. lra. Qed.

(** The point where [reset] and [Ship.hit] put the ship is in range. *)
Lemma ship_start_x :
  ship_size (ship cfg) <= width cfg / 2 /\ width cfg / 2 <= width cfg - ship_size (ship cfg).
Proof. pose proof ship_fits_width. split; qlra. Qed.

Lemma ship_start_y :
  ship_size (ship cfg) <= height cfg * 0.75 /\
  height cfg * 0.75 <= height cfg - ship_size (ship cfg).
Proof. pose proof ship_fits_height. pose proof ship_size_pos. split; lra. Qed.

Lemma width_pos : 0 < width cfg.
Proof. pose proof ship_fits_width. pose proof ship_size_pos. lra. Qed.

Lemma height_pos : 0 < height cfg.
Proof. pose proof ship_fits_height. pose proof ship_size_pos. lra. Qed.

Lemma asteroidType_size_pos t : t ∈ asteroidTypes cfg -> 0 < at_size t.
Proof. intros Ht. eapply (proj1 (Forall_forall _ _) asteroid_sizes) in Ht. tauto. Qed.

Lemma crystalType_points_nonneg t : t ∈ crystalTypes cfg -> (0 <= ct_points t)%Z.
Proof. intros Ht. eapply (proj1 (Forall_forall _ _) crystal_points) in Ht. tauto. Qed.
End config.

#[export] Hint Resolve ship_range_x ship_range_y : game.
