(* ===== verification/Geometry.v ===== *)
(** * Geometry: [clamp] and the circle overlap test [hit]

    [clamp] is the utility of [game.js] line 75; [hit] is the collision
    test of lines 367-372 on the objects [{x, y, r}] that the [bounds]
    methods return.  The theorems give the range of [clamp], the meaning of
    [hit] as a statement on squared distances, and that both respect the
    equality [==] of rationals. *)

From S2P Require Import Prelude.

(** The object [{ x, y, r }] returned by a [bounds] method. *)
Module Bounds.
Record t : Type := mk { x : Q; y : Q; r : Q }.

(** Two circles are equivalent when their fields are equal rationals. *)
Definition equiv (a b : t) : Prop := x a == x b /\ y a == y b /\ r a == r b.
End Bounds.

(** [const clamp = (v, a, b) => Math.max(a, Math.min(b, v))] *)
Definition clamp (v a b : Q) : Q := Qmax a (Qmin b v).

(** [function hit(a,b)]: squared centre distance at most the squared sum of
    the radii. *)
Definition hit (a b : Bounds.t) : bool :=
  let dx := Bounds.x a - Bounds.x b in
  let dy := Bounds.y a - Bounds.y b in
  let rr := Bounds.r a + Bounds.r b in
  (dx * dx + dy * dy <=? rr * rr)%js.

(** The squared distance between the centres of two circles. *)
Definition dist2 (a b : Bounds.t) : Q :=
  (Bounds.x a - Bounds.x b) * (Bounds.x a - Bounds.x b)
  + (Bounds.y a - Bounds.y b) * (Bounds.y a - Bounds.y b).

#[export] Instance Bounds_equiv : Equiv Bounds.t := Bounds.equiv.

#[export] Instance Bounds_equivalence : Equivalence Bounds.equiv.
Proof.
  unfold Bounds.equiv; split.
  - intros a; repeat split; reflexivity.
  - intros a b (?&?&?); repeat split; symmetry; assumption.
  - intros a b c (?&?&?) (?&?&?); repeat split; etransitivity; eassumption.
Qed.

Section clamp.
Implicit Types v a b : Q.

Lemma clamp_lower v a b : a <= clamp v a b.
Proof. apply Q.le_max_l. Qed.

Lemma clamp_upper v a b : a <= b -> clamp v a b <= b.
Proof. intros Hab. apply Q.max_lub; [exact Hab|apply Q.le_min_l]. Qed.

(** C40: [clamp(v, a, b)] lies between [a] and [b] whenever [a <= b],
    whatever [v] is. *)
Theorem clamp_range v a b : a <= b -> a <= clamp v a b /\ clamp v a b <= b.
Proof. split; [apply clamp_lower|now apply clamp_upper]. Qed.

Lemma clamp_range_witness :
  20 <= clamp 805 20 780 /\ clamp 805 20 780 <= 780.
Proof. apply (clamp_range 805 20 780). discriminate. Defined.

Lemma clamp_inside v a b : a <= v -> v <= b -> clamp v a b == v.
Proof.
  intros Ha Hb. unfold clamp.
  rewrite (Q.min_r b v) by exact Hb. now apply Q.max_r.
Qed.

Lemma clamp_below v a b : v <= a -> a <= b -> clamp v a b == a.
Proof.
  intros Hv Hab. unfold clamp. apply Q.max_l.
  etransitivity; [apply Q.le_min_r|exact Hv].
Qed.

Lemma clamp_above v a b : b <= v -> a <= b -> clamp v a b == b.
Proof.
  intros Hv Hab. unfold clamp.
  rewrite (Q.min_l b v) by exact Hv. now apply Q.max_r.
Qed.

Lemma clamp_idem v a b : a <= b -> clamp (clamp v a b) a b == clamp v a b.
Proof. intros Hab. apply clamp_inside; [apply clamp_lower|now apply clamp_upper]. Qed.

Lemma clamp_mono v w a b : v <= w -> clamp v a b <= clamp w a b.
Proof.
  intros Hvw. unfold clamp.
  apply Q.max_le_compat_l, Q.min_le_compat_l, Hvw.
Qed.

#[export] Instance clamp_proper : Proper (Qeq ==> Qeq ==> Qeq ==> Qeq) clamp.
Proof. intros v v' Hv a a' Ha b b' Hb. unfold clamp. now rewrite Hv, Ha, Hb. Qed.

(** Clamping brings a point no further from any point of the range. *)
Lemma clamp_nonexpansive v w a b :
  a <= v -> v <= b -> Qabs (clamp w a b - v) <= Qabs (w - v).
Proof.
  intros Ha Hb. unfold clamp.
  apply Qabs_case; intros Hd; apply Qabs_case; intros Hc; qminmax; lra.
Qed.
End clamp.

#[export] Hint Resolve clamp_lower clamp_upper : game.

Section hit.
Implicit Types a b : Bounds.t.

Lemma hit_spec a b :
  hit a b = true <->
  dist2 a b <= (Bounds.r a + Bounds.r b) * (Bounds.r a + Bounds.r b).
Proof. unfold hit, dist2. now rewrite bool_decide_eq_true. Qed.

Lemma hit_false_spec a b :
  hit a b = false <->
  (Bounds.r a + Bounds.r b) * (Bounds.r a + Bounds.r b) < dist2 a b.
Proof.
  rewrite <- Bool.not_true_iff_false, hit_spec. split; [apply Qnot_le_lt|apply Qlt_not_le].
Qed.

Lemma dist2_sym a b : dist2 a b == dist2 b a.
Proof. unfold dist2. ring. Qed.

Lemma dist2_nonneg a b : 0 <= dist2 a b.
Proof.
  unfold dist2.
  pose proof (Qsqr_nonneg (Bounds.x a - Bounds.x b)).
  pose proof (Qsqr_nonneg (Bounds.y a - Bounds.y b)). lra.
Qed.

#[export] Instance hit_proper : Proper (Bounds.equiv ==> Bounds.equiv ==> eq) hit.
Proof.
  intros a a' (Hx&Hy&Hr) b b' (Hx'&Hy'&Hr'). unfold hit.
  apply bool_decide_ext. now rewrite Hx, Hy, Hr, Hx', Hy', Hr'.
Qed.
End hit.
