(* ===== verification/Entities.v ===== *)
(** * Entities: the classes [Ship], [Asteroid], [Crystal] and [Particle]

    One module per class of [game.js] (lines 99-314).  [obj] is the record of
    an instance's fields, [new] the constructor, and the methods keep their
    names.  A method that reads a global takes it as an argument: [Ship.update]
    takes the key set, [Asteroid.update] the tick counter.  Constructors that
    call [rand] or [choice] are computations on the environment.  [Ship.hit]
    writes to the game state and is defined in [Flow].  The [draw] methods are
    not modelled, except for the opacity test of [Particle.draw].

    Theorems: the ship stays inside the playfield and moves by at most its
    speed along each axis; an asteroid stays inside the wrap band and re-enters
    at the opposite edge itself; a crystal only bobs; a particle dies after
    [life] updates. *)

From stdpp Require Import gmap strings.
From S2P Require Import Prelude Browser Config Geometry.

(** ** class Ship *)
Module Ship.
Record obj : Type := mk {
  x : Q; y : Q;
  size : Q;
  speed : Q;
  inv : Z;       (* frames of invulnerability left *)
  blink : Z;
}.

Section methods.
Context (cfg : Config) `{MathLib}.

(** [constructor(x, y)] *)
Definition new (x y : Q) : obj :=
  {| x := x; y := y;
     size := ship_size (ship cfg);
     speed := ship_speed (ship cfg);
     inv := 0;
     blink := 0 |}.

(** The direction read from the keys: [dx] and [dy] before normalisation. *)
Definition direction (keys : gset string) : Q * Q :=
  let has k := bool_decide (k ∈ keys) in
  let dx := 0 in
  let dy := 0 in
  let dy := if has "KeyW" || has "ArrowUp" then dy - 1 else dy in
  let dy := if has "KeyS" || has "ArrowDown" then dy + 1 else dy in
  let dx := if has "KeyA" || has "ArrowLeft" then dx - 1 else dx in
  let dx := if has "KeyD" || has "ArrowRight" then dx + 1 else dx in
  (dx, dy).

(** [update()] *)
Definition update (keys : gset string) (s : obj) : obj :=
  let '(dx, dy) := direction keys in
  let '(x1, y1) :=
    if ((dx <>? 0)%js || (dy <>? 0)%js)%bool then
      let mag := Math_hypot dx dy in
      let dx := dx / mag in
      let dy := dy / mag in
      (x s + dx * speed s, y s + dy * speed s)
    else (x s, y s) in
  let x2 := clamp x1 (size s) (width cfg - size s) in
  let y2 := clamp y1 (size s) (height cfg - size s) in
  let '(inv', blink') :=
    if bool_decide (0 < inv s)%Z
    then ((inv s - 1)%Z, Z.rem (blink s + 1) 10)
    else (inv s, blink s) in
  {| x := x2; y := y2; size := size s; speed := speed s;
     inv := inv'; blink := blink' |}.

(** [bounds()] *)
Definition bounds (s : obj) : Bounds.t :=
  let r := size s * 0.8 in
  {| Bounds.x := x s; Bounds.y := y s; Bounds.r := r |}.

(** A ship as the constructor and the methods leave it. *)
Record wf (s : obj) : Prop := {
  wf_size : size s = ship_size (ship cfg);
  wf_speed : speed s = ship_speed (ship cfg);
  wf_x : size s <= x s /\ x s <= width cfg - size s;
  wf_y : size s <= y s /\ y s <= height cfg - size s;
  wf_inv : (0 <= inv s <= ship_invFrames (ship cfg))%Z;
  wf_blink : (0 <= blink s < 10)%Z;
}.
End methods.
End Ship.

(** ** class Asteroid *)
Module Asteroid.
Record obj : Type := mk {
  x : Q; y : Q;
  vx : Q; vy : Q;
  size : Q;
  wave : bool;
  phase : Q;
  hp : Z;
  rot : Q;
  spin : Q;
  hue : option Z;      (* [choice] of a literal array *)
  light : option Z;
}.

Section methods.
Context (cfg : Config) `{MathLib}.

(** [constructor(x, y, vx, vy, size, wave)], with its five random draws in
    the order of the source; the one call of the source passes [wave], so
    its default value is never used. *)
Definition new (x y vx vy size : Q) (wave : bool) : Comp Env obj :=
  phase ← rand 0 (Math_PI * 2);
  let hp := Qceiling (size / 30) in
  rot ← rand 0 (Math_PI * 2);
  spin ← rand (-0.02) 0.02;
  hue ← choice [20; 30; 40; 0]%Z;
  light ← choice [30; 35; 40]%Z;
  mret {| x := x; y := y; vx := vx; vy := vy; size := size; wave := wave;
          phase := phase; hp := hp; rot := rot; spin := spin;
          hue := hue; light := light |}.

(** The position after the move and before the wrap. *)
Definition moved (tick : Z) (a : obj) : Q * Q :=
  if wave a then
    (x a + (vx a + Math_sin (inject_Z tick / 30 + phase a) * 0.9),
     y a + (vy a + Math_cos (inject_Z tick / 45 + phase a) * 0.6))
  else
    (x a + vx a, y a + vy a).

(** The four [if] statements of the wrap, on one coordinate: [lo] is
    [-size-20] and [hi] the extent plus [size+20]. *)
Definition wrap (v lo hi : Q) : Q :=
  let v := if (v <? lo)%js then hi else v in
  let v := if (v >? hi)%js then lo else v in
  v.

(** [update()], with [STATE.tick] as argument *)
Definition update (tick : Z) (a : obj) : obj :=
  let rot := rot a + spin a in
  let '(x1, y1) := moved tick a in
  let x2 := wrap x1 (- size a - 20) (width cfg + size a + 20) in
  let y2 := wrap y1 (- size a - 20) (height cfg + size a + 20) in
  {| x := x2; y := y2; vx := vx a; vy := vy a; size := size a;
     wave := wave a; phase := phase a; hp := hp a; rot := rot;
     spin := spin a; hue := hue a; light := light a |}.

(** [bounds()] *)
Definition bounds (a : obj) : Bounds.t :=
  {| Bounds.x := x a; Bounds.y := y a; Bounds.r := size a * 0.8 |}.

(** An asteroid inside the band in which [update] keeps it. *)
Definition in_band (a : obj) : Prop :=
  (- size a - 20 <= x a /\ x a <= width cfg + size a + 20) /\
  (- size a - 20 <= y a /\ y a <= height cfg + size a + 20).
End methods.
End Asteroid.

(** ** class Crystal *)
Module Crystal.
Record obj : Type := mk {
  x : Q; y : Q;
  type : CrystalType;
  t : Z;
  spin : Q;
  rot : Q;
}.

Section methods.
Context `{MathLib}.

(** [constructor(x, y, type)] *)
Definition new (x y : Q) (type : CrystalType) : Comp Env obj :=
  spin ← rand (-0.03) 0.03;
  rot ← rand 0 (Math_PI * 2);
  mret {| x := x; y := y; type := type; t := 0; spin := spin; rot := rot |}.

(** [update()] *)
Definition update (c : obj) : obj :=
  let t := (t c + 1)%Z in
  let rot := rot c + spin c in
  let y := y c + Math_sin (inject_Z t / 40) * 0.2 in
  {| x := x c; y := y; type := type c; t := t; spin := spin c; rot := rot |}.

(** [bounds()] *)
Definition bounds (c : obj) : Bounds.t :=
  {| Bounds.x := x c; Bounds.y := y c; Bounds.r := ct_size (type c) * 0.65 |}.
End methods.
End Crystal.

(** ** class Particle *)
Module Particle.
Record obj : Type := mk {
  x : Q; y : Q;
  life : Q;
  t : Z;
  color : string;
  vx : Q; vy : Q;
  size : Q;
}.

Section methods.
Context `{MathLib}.

(** [constructor(x, y, color, life, speed)]; every call of the source
    passes [life] and [speed], so the default values are never computed. *)
Definition new (x y : Q) (color : string) (life speed : Q) : Comp Env obj :=
  ang ← rand 0 (Math_PI * 2);
  let vx := Math_cos ang * speed in
  let vy := Math_sin ang * speed in
  size ← rand 1 3;
  mret {| x := x; y := y; life := life; t := 0; color := color;
          vx := vx; vy := vy; size := size |}.

(** [update()] *)
Definition update (p : obj) : obj :=
  {| x := x p + vx p; y := y p + vy p; life := life p; t := (t p + 1)%Z;
     color := color p; vx := vx p; vy := vy p; size := size p |}.

(** [dead()] *)
Definition dead (p : obj) : bool := (inject_Z (t p) >=? life p)%js.

(** The opacity [a] computed by [draw()]. *)
Definition alpha (p : obj) : Q := 1 - inject_Z (t p) / life p.

(** [draw()] returns before drawing when [a <= 0]. *)
Definition visible (p : obj) : bool := negb (alpha p <=? 0)%js.
End methods.
End Particle.

#[export] Hint Unfold Asteroid.new Crystal.new Particle.new : comp.

(** ** Properties of [Ship] *)

(** Two ships are equivalent when their numeric fields are equal rationals. *)
Definition Ship_equiv (s1 s2 : Ship.obj) : Prop :=
  Ship.x s1 == Ship.x s2 /\ Ship.y s1 == Ship.y s2 /\
  Ship.size s1 == Ship.size s2 /\ Ship.speed s1 == Ship.speed s2 /\
  Ship.inv s1 = Ship.inv s2 /\ Ship.blink s1 = Ship.blink s2.

#[export] Instance Ship_equiv_equivalence : Equivalence Ship_equiv.
Proof.
  unfold Ship_equiv; split.
  - intros s; repeat split; reflexivity.
  - intros s1 s2 (?&?&?&?&?&?); repeat split; symmetry; assumption.
  - intros s1 s2 s3 (?&?&?&?&?&?) (?&?&?&?&?&?);
      repeat split; etransitivity; eassumption.
Qed.

(** A component of the direction is -1, 0 or 1. *)
Definition unit_step (d : Q) : Prop := d = -1 \/ d = 0 \/ d = 1.

Lemma Qdiv_abs_le_1 (a m : Q) : Qabs a <= m -> 0 < m -> Qabs (a / m) <= 1.
Proof.
  intros Ha Hm. apply Qabs_Qle_condition in Ha as [Ha1 Ha2].
  apply Qabs_Qle_condition; split.
  - apply Qle_shift_div_l; [exact Hm|lra].
  - apply Qle_shift_div_r; [exact Hm|lra].
Qed.

Lemma Qabs_add_sub (x d : Q) : Qabs (x + d - x) == Qabs d.
Proof. apply Qabs_wd. ring. Qed.

Lemma Qabs_sub_self (x : Q) : Qabs (x - x) == 0.
Proof. rewrite (Qabs_wd (x - x) 0) by ring. reflexivity. Qed.

Lemma Qabs_mult_le (a b : Q) : Qabs a <= 1 -> 0 <= b -> Qabs (a * b) <= b.
Proof.
  intros Ha Hb. apply Qabs_Qle_condition in Ha as [Ha1 Ha2].
  apply Qabs_Qle_condition; split; nra.
Qed.

Section ship.
Context (cfg : Config) `{!Config_ok cfg} `{MathLib}.
Implicit Types (s : Ship.obj) (keys : gset string).

Lemma direction_unit keys :
  unit_step (Ship.direction keys).1 /\ unit_step (Ship.direction keys).2.
Proof.
  unfold Ship.direction, unit_step.
  repeat match goal with |- context [if ?b then _ else _] => destruct b end;
    simpl; auto.
Qed.

Lemma direction_no_keys : Ship.direction ∅ = (0, 0).
Proof. reflexivity. Qed.

(** The magnitude the direction is divided by is positive. *)
Lemma direction_mag_pos (dx dy : Q) :
  unit_step dx -> unit_step dy -> ~ (dx == 0 /\ dy == 0) -> 0 < Math_hypot dx dy.
Proof.
  intros Hx Hy Hne.
  pose proof (Math_hypot_ge_l dx dy) as Hl. pose proof (Math_hypot_ge_r dx dy) as Hr.
  destruct Hx as [-> | [-> | ->] ]; destruct Hy as [-> | [-> | ->] ];
    try (exfalso; apply Hne; split; reflexivity);
    first [ eapply Qlt_le_trans; [|exact Hl]; reflexivity
          | eapply Qlt_le_trans; [|exact Hr]; reflexivity ].
Qed.

(** The step the ship attempts along one axis is at most its speed. *)
Lemma step_bound (d m v : Q) : Qabs d <= m -> 0 < m -> 0 <= v -> Qabs (d / m * v) <= v.
Proof. intros. apply Qabs_mult_le; [now apply Qdiv_abs_le_1|assumption]. Qed.

Lemma new_wf (x y : Q) :
  ship_size (ship cfg) <= x /\ x <= width cfg - ship_size (ship cfg) ->
  ship_size (ship cfg) <= y /\ y <= height cfg - ship_size (ship cfg) ->
  Ship.wf cfg (Ship.new cfg x y).
Proof.
  intros Hx Hy. pose proof invFrames_pos.
  split; simpl; try done; lia.
Qed.

Lemma update_size keys s : Ship.size (Ship.update cfg keys s) = Ship.size s.
Proof.
  unfold Ship.update. destruct (Ship.direction keys) as [dx dy].
  now destruct (_ || _)%bool, (bool_decide _).
Qed.

Lemma update_speed keys s : Ship.speed (Ship.update cfg keys s) = Ship.speed s.
Proof.
  unfold Ship.update. destruct (Ship.direction keys) as [dx dy].
  now destruct (_ || _)%bool, (bool_decide _).
Qed.

Lemma update_inv keys s :
  Ship.inv (Ship.update cfg keys s) =
  if bool_decide (0 < Ship.inv s)%Z then (Ship.inv s - 1)%Z else Ship.inv s.
Proof.
  unfold Ship.update. destruct (Ship.direction keys) as [dx dy].
  now destruct (_ || _)%bool, (bool_decide _).
Qed.

Lemma update_blink keys s :
  Ship.blink (Ship.update cfg keys s) =
  if bool_decide (0 < Ship.inv s)%Z then Z.rem (Ship.blink s + 1) 10 else Ship.blink s.
Proof.
  unfold Ship.update. destruct (Ship.direction keys) as [dx dy].
  now destruct (_ || _)%bool, (bool_decide _).
Qed.

(** The coordinates after [update]: the clamped attempted position. *)
Definition attempt keys s : Q * Q :=
  let '(dx, dy) := Ship.direction keys in
  if ((dx <>? 0)%js || (dy <>? 0)%js)%bool then
    (Ship.x s + dx / Math_hypot dx dy * Ship.speed s,
     Ship.y s + dy / Math_hypot dx dy * Ship.speed s)
  else (Ship.x s, Ship.y s).

Lemma update_x keys s :
  Ship.x (Ship.update cfg keys s) =
  clamp (attempt keys s).1 (Ship.size s) (width cfg - Ship.size s).
Proof.
  unfold Ship.update, attempt. destruct (Ship.direction keys) as [dx dy].
  now destruct (_ || _)%bool, (bool_decide _).
Qed.

Lemma update_y keys s :
  Ship.y (Ship.update cfg keys s) =
  clamp (attempt keys s).2 (Ship.size s) (height cfg - Ship.size s).
Proof.
  unfold Ship.update, attempt. destruct (Ship.direction keys) as [dx dy].
  now destruct (_ || _)%bool, (bool_decide _).
Qed.

(** The attempted step along each axis is at most the speed. *)
Lemma attempt_bound keys s :
  0 <= Ship.speed s ->
  Qabs ((attempt keys s).1 - Ship.x s) <= Ship.speed s /\
  Qabs ((attempt keys s).2 - Ship.y s) <= Ship.speed s.
Proof.
  intros Hv. unfold attempt.
  destruct (direction_unit keys) as [Hdx Hdy].
  destruct (Ship.direction keys) as [dx dy]; simpl in Hdx, Hdy.
  destruct (_ || _)%bool eqn:Hmove; simpl.
  - assert (0 < Math_hypot dx dy) as Hm.
    { apply direction_mag_pos; [done..|]. intros [Hx Hy].
      rewrite !bool_decide_eq_true_2 in Hmove by done. done. }
    rewrite !Qabs_add_sub.
    split; apply step_bound; auto using Math_hypot_ge_l, Math_hypot_ge_r.
  - now rewrite !Qabs_sub_self.
Qed.

(** The clamp of [Ship.update], for a playfield at least two ship sizes
    wide and high. *)
Lemma update_in_bounds keys s :
  Ship.size s <= width cfg - Ship.size s ->
  Ship.size s <= height cfg - Ship.size s ->
  let s' := Ship.update cfg keys s in
  (Ship.size s' <= Ship.x s' /\ Ship.x s' <= width cfg - Ship.size s') /\
  (Ship.size s' <= Ship.y s' /\ Ship.y s' <= height cfg - Ship.size s').
Proof.
  intros Hw Hh s'. subst s'. rewrite update_size, update_x, update_y.
  auto using clamp_lower, clamp_upper.
Qed.

(** C14: after [Ship.update] a ship of the configured size lies inside the
    playfield, at least its size away from every edge, wherever it was and
    whatever keys are held. *)
Theorem Ship_update_in_bounds keys s :
  Ship.size s = ship_size (ship cfg) ->
  let s' := Ship.update cfg keys s in
  let r := ship_size (ship cfg) in
  (r <= Ship.x s' /\ Ship.x s' <= width cfg - r) /\
  (r <= Ship.y s' /\ Ship.y s' <= height cfg - r).
Proof.
  intros Hsz s' r. pose proof (ship_range_x cfg). pose proof (ship_range_y cfg).
  destruct (update_in_bounds keys s) as [Hx Hy]; rewrite ?Hsz; try done.
  unfold s', r. now rewrite update_size, Hsz in Hx, Hy.
Qed.

Lemma update_inv_max keys s :
  (0 <= Ship.inv s)%Z ->
  Ship.inv (Ship.update cfg keys s) = Z.max 0 (Ship.inv s - 1).
Proof. intros Hinv. rewrite update_inv. case_bool_decide; lia. Qed.

(** [Ship.update] keeps a well-formed ship well formed: size and speed are
    those of the configuration, the position is in bounds, the
    invulnerability counter stays in [[0, invFrames]] and [blink] in
    [[0, 10)]. *)
Lemma Ship_update_wf keys s : Ship.wf cfg s -> Ship.wf cfg (Ship.update cfg keys s).
Proof.
  intros [Hsz Hsp Hx Hy Hinv Hbl].
  destruct (update_in_bounds keys s) as [Hx' Hy']; [lra..|].
  split; [now rewrite update_size|now rewrite update_speed|exact Hx'|exact Hy'| |].
  - rewrite update_inv. case_bool_decide; lia.
  - rewrite update_blink. case_bool_decide; [|lia].
    apply Z.rem_bound_pos; lia.
Qed.

(** In one [update] a ship that is in bounds moves by at most its speed
    along each axis, diagonal moves included. *)
Theorem Ship_update_displacement keys s :
  Ship.wf cfg s ->
  let s' := Ship.update cfg keys s in
  Qabs (Ship.x s' - Ship.x s) <= Ship.speed s /\
  Qabs (Ship.y s' - Ship.y s) <= Ship.speed s.
Proof.
  intros [Hsz Hsp Hx Hy _ _] s'. subst s'. rewrite update_x, update_y.
  assert (0 <= Ship.speed s) as Hv by (rewrite Hsp; apply ship_speed_nonneg).
  destruct (attempt_bound keys s Hv) as [Bx By].
  destruct (attempt keys s) as [ax ay]; cbn [fst snd] in *.
  split; (etransitivity; [apply clamp_nonexpansive; tauto|assumption]).
Qed.

(** With no key held a ship in bounds stays where it is. *)
Lemma Ship_update_idle s :
  Ship.wf cfg s ->
  Ship.x (Ship.update cfg ∅ s) == Ship.x s /\ Ship.y (Ship.update cfg ∅ s) == Ship.y s.
Proof.
  intros [_ _ Hx Hy _ _]. rewrite update_x, update_y.
  split; apply clamp_inside; cbn; tauto.
Qed.

(** The attempted position when only "move right" is held. *)
Lemma attempt_right s :
  (attempt {["KeyD"]} s).1 == Ship.x s + Ship.speed s /\
  (attempt {["KeyD"]} s).2 == Ship.y s.
Proof.
  unfold attempt. change (Ship.direction {["KeyD"]}) with (0 + 1, 0).
  cbn [fst snd]. pose proof (Math_hypot_0_r (0 + 1)) as Hh.
  change (Qabs (0 + 1)) with 1 in Hh.
  change ((0 + 1 <>? 0)%js || (0 <>? 0)%js)%bool with true; cbn [fst snd].
  rewrite Hh. split; field.
Qed.

(** Holding "D" alone moves a ship with room to its right by exactly its
    speed, and leaves [y] unchanged. *)
Lemma Ship_update_right s :
  Ship.wf cfg s ->
  Ship.x s + Ship.speed s <= width cfg - Ship.size s ->
  Ship.x (Ship.update cfg {["KeyD"]} s) == Ship.x s + Ship.speed s /\
  Ship.y (Ship.update cfg {["KeyD"]} s) == Ship.y s.
Proof.
  intros [Hsz Hsp Hx Hy _ _] Hroom. rewrite update_x, update_y.
  destruct (attempt_right s) as [-> ->].
  assert (0 <= Ship.speed s) by (rewrite Hsp; apply ship_speed_nonneg).
  split; apply clamp_inside; lra.
Qed.

(** Opposite keys cancel: with "W" and "S" both held the ship does not move
    vertically. *)
Lemma direction_cancel keys :
  "KeyW" ∈ keys -> "KeyS" ∈ keys -> (Ship.direction keys).2 = 0 - 1 + 1.
Proof.
  intros HW HS. unfold Ship.direction.
  rewrite (bool_decide_eq_true_2 _ HW), (bool_decide_eq_true_2 _ HS). reflexivity.
Qed.

#[export] Instance Ship_bounds_proper : Proper (Ship_equiv ==> Bounds.equiv) Ship.bounds.
Proof.
  intros s1 s2 (Hx&Hy&Hs&_). unfold Ship.bounds, Bounds.equiv; cbn.
  now rewrite Hx, Hy, Hs.
Qed.
End ship.

(** ** Properties of [Asteroid] *)

Section wrap.
Implicit Types v lo hi : Q.

Lemma wrap_inside v lo hi : lo <= v -> v <= hi -> Asteroid.wrap v lo hi = v.
Proof.
  intros Hlo Hhi. unfold Asteroid.wrap.
  rewrite (bool_decide_eq_false_2 (v < lo)) by lra.
  now rewrite (bool_decide_eq_false_2 (hi < v)) by lra.
Qed.

Lemma wrap_below v lo hi : v < lo -> Asteroid.wrap v lo hi = hi.
Proof.
  intros Hlo. unfold Asteroid.wrap.
  rewrite (bool_decide_eq_true_2 (v < lo)) by done.
  now rewrite (bool_decide_eq_false_2 (hi < hi)) by lra.
Qed.

Lemma wrap_above v lo hi : hi < v -> lo <= hi -> Asteroid.wrap v lo hi = lo.
Proof.
  intros Hhi Hlohi. unfold Asteroid.wrap.
  rewrite (bool_decide_eq_false_2 (v < lo)) by lra.
  now rewrite (bool_decide_eq_true_2 (hi < v)) by done.
Qed.

Lemma wrap_range v lo hi : lo <= hi -> lo <= Asteroid.wrap v lo hi /\ Asteroid.wrap v lo hi <= hi.
Proof. intros Hlohi. unfold Asteroid.wrap. qcases; lra. Qed.
End wrap.

Section asteroid.
Context (cfg : Config) `{!Config_ok cfg} `{MathLib}.
Implicit Types (a : Asteroid.obj) (tick : Z).

Lemma Asteroid_update_x tick a :
  Asteroid.x (Asteroid.update cfg tick a) =
  Asteroid.wrap (Asteroid.moved tick a).1
    (- Asteroid.size a - 20) (width cfg + Asteroid.size a + 20).
Proof. unfold Asteroid.update. now destruct (Asteroid.moved tick a). Qed.

Lemma Asteroid_update_y tick a :
  Asteroid.y (Asteroid.update cfg tick a) =
  Asteroid.wrap (Asteroid.moved tick a).2
    (- Asteroid.size a - 20) (height cfg + Asteroid.size a + 20).
Proof. unfold Asteroid.update. now destruct (Asteroid.moved tick a). Qed.

(** [update] changes the position and the rotation only. *)
Lemma Asteroid_update_frame tick a :
  let a' := Asteroid.update cfg tick a in
  Asteroid.size a' = Asteroid.size a /\ Asteroid.vx a' = Asteroid.vx a /\
  Asteroid.vy a' = Asteroid.vy a /\ Asteroid.wave a' = Asteroid.wave a /\
  Asteroid.phase a' = Asteroid.phase a /\ Asteroid.hp a' = Asteroid.hp a /\
  Asteroid.spin a' = Asteroid.spin a /\
  Asteroid.rot a' = Asteroid.rot a + Asteroid.spin a.
Proof. cbn. unfold Asteroid.update. now destruct (Asteroid.moved tick a). Qed.

Lemma Asteroid_update_band tick a :
  0 <= Asteroid.size a -> Asteroid.in_band cfg (Asteroid.update cfg tick a).
Proof.
  intros Hsz. pose proof (width_pos cfg). pose proof (height_pos cfg).
  unfold Asteroid.in_band.
  destruct (Asteroid_update_frame tick a) as (-> & _).
  rewrite Asteroid_update_x, Asteroid_update_y.
  split; apply wrap_range; lra.
Qed.

(** C24: after [Asteroid.update] the asteroid lies in the band that extends
    [size + 20] beyond each edge of the playfield, wherever it was and
    whatever its velocity; its size and its velocity are unchanged. *)
Theorem Asteroid_update_in_band tick a :
  0 <= Asteroid.size a ->
  let a' := Asteroid.update cfg tick a in
  Asteroid.in_band cfg a' /\ Asteroid.size a' = Asteroid.size a /\
  Asteroid.vx a' = Asteroid.vx a /\ Asteroid.vy a' = Asteroid.vy a.
Proof.
  intros Hsz a'. destruct (Asteroid_update_frame tick a) as (? & ? & ? & _).
  split_and!; [now apply Asteroid_update_band|done..].
Qed.

(** C23: an asteroid whose move takes it beyond the right edge of the band
    re-enters at the left edge exactly: the distance by which it overshot is
    not kept. *)
Theorem Asteroid_update_wrap_right tick a :
  0 <= Asteroid.size a ->
  width cfg + Asteroid.size a + 20 < (Asteroid.moved tick a).1 ->
  Asteroid.x (Asteroid.update cfg tick a) = - Asteroid.size a - 20.
Proof.
  intros Hsz Hover. pose proof (width_pos cfg).
  rewrite Asteroid_update_x. apply wrap_above; [exact Hover|lra].
Qed.

(** An asteroid that stays inside the band moves by its velocity. *)
Lemma Asteroid_update_straight tick a :
  Asteroid.wave a = false ->
  - Asteroid.size a - 20 <= Asteroid.x a + Asteroid.vx a ->
  Asteroid.x a + Asteroid.vx a <= width cfg + Asteroid.size a + 20 ->
  Asteroid.x (Asteroid.update cfg tick a) = Asteroid.x a + Asteroid.vx a.
Proof.
  intros Hw Hlo Hhi. rewrite Asteroid_update_x.
  unfold Asteroid.moved. rewrite Hw. now apply wrap_inside.
Qed.

(** Before the wrap, a wave asteroid is within 0.9 horizontally and 0.6
    vertically of where its velocity alone would take it. *)
Theorem Asteroid_wave_bound tick a :
  let '(x1, y1) := Asteroid.moved tick a in
  Qabs (x1 - (Asteroid.x a + Asteroid.vx a)) <= 0.9 /\
  Qabs (y1 - (Asteroid.y a + Asteroid.vy a)) <= 0.6.
Proof.
  unfold Asteroid.moved. destruct (Asteroid.wave a).
  - pose proof (Math_sin_range (inject_Z tick / 30 + Asteroid.phase a)).
    pose proof (Math_cos_range (inject_Z tick / 45 + Asteroid.phase a)).
    split; apply Qabs_bound; lra.
  - split; apply Qabs_bound; lra.
Qed.

(** The constructor draws five numbers and keeps its arguments. *)
Lemma Asteroid_new_run x y vx vy size wave (e : Env) :
  exists a, Asteroid.new x y vx vy size wave e = Ok a (skip_random 5 e) /\
    Asteroid.x a = x /\ Asteroid.y a = y /\ Asteroid.vx a = vx /\
    Asteroid.vy a = vy /\ Asteroid.size a = size /\ Asteroid.wave a = wave /\
    Asteroid.hp a = Qceiling (size / 30).
Proof. eexists; split; [comp_run; reflexivity|]. now cbn. Qed.
End asteroid.

(** ** Properties of [Crystal] *)

Section crystal.
Context `{MathLib}.
Implicit Types c : Crystal.obj.

(** [Crystal.update] leaves [x] and the type alone, adds one to the age
    and moves [y] by at most 0.2. *)
Theorem Crystal_update_bob c :
  let c' := Crystal.update c in
  Crystal.x c' = Crystal.x c /\ Crystal.type c' = Crystal.type c /\
  Crystal.t c' = (Crystal.t c + 1)%Z /\
  Qabs (Crystal.y c' - Crystal.y c) <= 0.2.
Proof.
  cbn. split_and!; [done..|].
  pose proof (Math_sin_range (inject_Z (Crystal.t c + 1) / 40)).
  apply Qabs_bound; lra.
Qed.

Lemma Crystal_bounds_r c : Bounds.r (Crystal.bounds c) = ct_size (Crystal.type c) * 0.65.
Proof. reflexivity. Qed.

(** The constructor draws two numbers; a new crystal has age 0. *)
Lemma Crystal_new_run x y type (e : Env) :
  exists c, Crystal.new x y type e = Ok c (skip_random 2 e) /\
    Crystal.x c = x /\ Crystal.y c = y /\ Crystal.type c = type /\ Crystal.t c = 0%Z.
Proof. eexists; split; [comp_run; reflexivity|]. now cbn. Qed.
End crystal.

(** ** Properties of [Particle] *)

Section particle.
Context `{MathLib}.
Implicit Types p : Particle.obj.

Lemma Particle_iter_t (n : nat) p :
  Particle.t (Nat.iter n Particle.update p) = (Particle.t p + Z.of_nat n)%Z.
Proof. induction n as [|n IH]; [cbn; lia|]. rewrite Nat.iter_succ. cbn. rewrite IH. lia. Qed.

Lemma Particle_iter_life (n : nat) p :
  Particle.life (Nat.iter n Particle.update p) = Particle.life p.
Proof. induction n as [|n IH]; [done|]. now rewrite Nat.iter_succ. Qed.

Lemma Particle_dead_spec p :
  Particle.dead p = true <-> Particle.life p <= inject_Z (Particle.t p).
Proof. unfold Particle.dead. apply bool_decide_eq_true. Qed.

(** A dead particle stays dead. *)
Lemma Particle_dead_update p :
  Particle.dead p = true -> Particle.dead (Particle.update p) = true.
Proof.
  rewrite !Particle_dead_spec. cbn. intros Hd.
  etransitivity; [exact Hd|]. rewrite <- Zle_Qle. lia.
Qed.

(** A particle is dead after [n] updates as soon as its age plus [n]
    reaches its life span. *)
Lemma Particle_dies (n : nat) p :
  Particle.life p <= inject_Z (Particle.t p + Z.of_nat n) ->
  Particle.dead (Nat.iter n Particle.update p) = true.
Proof.
  intros Hn. apply Particle_dead_spec.
  now rewrite Particle_iter_life, Particle_iter_t.
Qed.

(** The number of updates after which a particle is certainly dead. *)
Definition Particle_ttl p : nat := Z.to_nat (Qceiling (Particle.life p) - Particle.t p).

(** C36: every particle dies: after [Particle_ttl p] updates, the ceiling
    of its life span minus its age, [dead()] holds of [p], and it holds from
    then on. *)
Theorem Particle_ttl_dead p (n : nat) :
  (Particle_ttl p <= n)%nat -> Particle.dead (Nat.iter n Particle.update p) = true.
Proof.
  intros Hn. apply Particle_dies. unfold Particle_ttl in Hn.
  etransitivity; [apply Qle_ceiling|]. rewrite <- Zle_Qle. lia.
Qed.

(** C37: [draw] shows a particle exactly when it is not dead, for a
    positive life span: the opacity [1 - t/life] is positive iff [t < life]. *)
Theorem Particle_visible_iff_alive p :
  0 < Particle.life p -> Particle.visible p = negb (Particle.dead p).
Proof.
  intros Hl. unfold Particle.visible, Particle.dead, Particle.alpha. f_equal.
  apply bool_decide_ext.
  assert (inject_Z (Particle.t p) / Particle.life p * Particle.life p
          == inject_Z (Particle.t p)) as Hq by (field; lra).
  revert Hq. generalize (inject_Z (Particle.t p) / Particle.life p). intros q Hq.
  split; intros Hle; nra.
Qed.

(** The constructor draws two numbers; a new particle has age 0, and its
    velocity along each axis is at most [speed]. *)
Lemma Particle_new_run x y color life speed (e : Env) :
  exists p, Particle.new x y color life speed e = Ok p (skip_random 2 e) /\
    Particle.x p = x /\ Particle.y p = y /\ Particle.life p = life /\
    Particle.t p = 0%Z /\ Particle.color p = color /\
    (0 <= speed -> Qabs (Particle.vx p) <= speed /\ Qabs (Particle.vy p) <= speed).
Proof.
  eexists; split; [comp_run; reflexivity|]. cbn. split_and!; try done.
  intros Hs. split; apply Qabs_mult_le; try done; apply Qabs_bound;
    first [apply Math_cos_range|apply Math_sin_range].
Qed.
End particle.
