(* ===== verification/World.v ===== *)
(** * World: the globals of the script

    [State.t] is the object [STATE] ([game.js] lines 44-54), [Entities.t] the
    object [entities] (lines 67-72), [Dom.t] what the script writes to the
    page: the text of the HUD and of the final score, the classes of the
    hearts, and whether each overlay has the class "visible".  [World] puts
    them together with the key set, the mouse position, [lastTime] and the
    browser environment.  [M] is the monad of computations on the world; the
    setters and the accessors of this file are what an assignment to a global
    becomes. *)

From stdpp Require Import gmap strings.
From S2P Require Import Prelude Browser Config Geometry Entities.

(** ** [STATE] *)
Module State.
Record t : Type := mk {
  running : bool;
  paused : bool;
  over : bool;
  score : Z;
  lives : Z;
  level : Z;
  tick : Z;
  lastCrystalMs : Q;
  lastDifficultyMs : Q;
}.

Definition set_running (v : bool) (s : t) : t :=
  mk v (paused s) (over s) (score s) (lives s) (level s) (tick s)
     (lastCrystalMs s) (lastDifficultyMs s).
Definition set_paused (v : bool) (s : t) : t :=
  mk (running s) v (over s) (score s) (lives s) (level s) (tick s)
     (lastCrystalMs s) (lastDifficultyMs s).
Definition set_over (v : bool) (s : t) : t :=
  mk (running s) (paused s) v (score s) (lives s) (level s) (tick s)
     (lastCrystalMs s) (lastDifficultyMs s).
Definition set_score (v : Z) (s : t) : t :=
  mk (running s) (paused s) (over s) v (lives s) (level s) (tick s)
     (lastCrystalMs s) (lastDifficultyMs s).
Definition set_lives (v : Z) (s : t) : t :=
  mk (running s) (paused s) (over s) (score s) v (level s) (tick s)
     (lastCrystalMs s) (lastDifficultyMs s).
Definition set_level (v : Z) (s : t) : t :=
  mk (running s) (paused s) (over s) (score s) (lives s) v (tick s)
     (lastCrystalMs s) (lastDifficultyMs s).
Definition set_tick (v : Z) (s : t) : t :=
  mk (running s) (paused s) (over s) (score s) (lives s) (level s) v
     (lastCrystalMs s) (lastDifficultyMs s).
Definition set_lastCrystalMs (v : Q) (s : t) : t :=
  mk (running s) (paused s) (over s) (score s) (lives s) (level s) (tick s)
     v (lastDifficultyMs s).
Definition set_lastDifficultyMs (v : Q) (s : t) : t :=
  mk (running s) (paused s) (over s) (score s) (lives s) (level s) (tick s)
     (lastCrystalMs s) v.

(** The initial value of [STATE] (lines 44-54). *)
Definition init (cfg : Config) : t :=
  {| running := false; paused := false; over := false;
     score := 0; lives := initialLives cfg; level := 1; tick := 0;
     lastCrystalMs := 0; lastDifficultyMs := 0 |}.
End State.

(** ** [entities] *)
Module Entities.
Record t : Type := mk {
  ship : option Ship.obj;            (* [null] until [reset] has run *)
  asteroids : list Asteroid.obj;
  crystals : list Crystal.obj;
  particles : list Particle.obj;
}.

Definition set_ship (v : option Ship.obj) (e : t) : t :=
  mk v (asteroids e) (crystals e) (particles e).
Definition set_asteroids (v : list Asteroid.obj) (e : t) : t :=
  mk (ship e) v (crystals e) (particles e).
Definition set_crystals (v : list Crystal.obj) (e : t) : t :=
  mk (ship e) (asteroids e) v (particles e).
Definition set_particles (v : list Particle.obj) (e : t) : t :=
  mk (ship e) (asteroids e) (crystals e) v.

(** The initial value of [entities] (lines 67-72). *)
Definition init : t :=
  {| ship := None; asteroids := []; crystals := []; particles := [] |}.
End Entities.

(** ** The page *)
Module Dom.
Record t : Type := mk {
  hudScore : string;          (* hudScore.textContent *)
  hudLevel : string;          (* hudLevel.textContent *)
  hudLives : list string;     (* the className of each child of hudLives *)
  finalScore : string;        (* finalScoreEl.textContent *)
  menuVisible : bool;         (* menu has the class "visible" *)
  pauseVisible : bool;
  gameoverVisible : bool;
}.

Definition set_hudScore (v : string) (d : t) : t :=
  mk v (hudLevel d) (hudLives d) (finalScore d) (menuVisible d) (pauseVisible d)
     (gameoverVisible d).
Definition set_hudLevel (v : string) (d : t) : t :=
  mk (hudScore d) v (hudLives d) (finalScore d) (menuVisible d) (pauseVisible d)
     (gameoverVisible d).
Definition set_hudLives (v : list string) (d : t) : t :=
  mk (hudScore d) (hudLevel d) v (finalScore d) (menuVisible d) (pauseVisible d)
     (gameoverVisible d).
Definition set_finalScore (v : string) (d : t) : t :=
  mk (hudScore d) (hudLevel d) (hudLives d) v (menuVisible d) (pauseVisible d)
     (gameoverVisible d).
Definition set_menuVisible (v : bool) (d : t) : t :=
  mk (hudScore d) (hudLevel d) (hudLives d) (finalScore d) v (pauseVisible d)
     (gameoverVisible d).
Definition set_pauseVisible (v : bool) (d : t) : t :=
  mk (hudScore d) (hudLevel d) (hudLives d) (finalScore d) (menuVisible d) v
     (gameoverVisible d).
Definition set_gameoverVisible (v : bool) (d : t) : t :=
  mk (hudScore d) (hudLevel d) (hudLives d) (finalScore d) (menuVisible d)
     (pauseVisible d) v.

(** The page before the script has written to it: empty texts, no overlay
    shown. *)
Definition init : t :=
  {| hudScore := ""; hudLevel := ""; hudLives := []; finalScore := "";
     menuVisible := false; pauseVisible := false; gameoverVisible := false |}.
End Dom.

(** ** The world *)
Record World : Type := mkWorld {
  STATE : State.t;
  entities : Entities.t;
  keys : gset string;
  mouse : Q * Q;
  lastTime : Q;
  dom : Dom.t;
  env : Env;
}.

Definition set_STATE (v : State.t) (w : World) : World :=
  mkWorld v (entities w) (keys w) (mouse w) (lastTime w) (dom w) (env w).
Definition set_entities (v : Entities.t) (w : World) : World :=
  mkWorld (STATE w) v (keys w) (mouse w) (lastTime w) (dom w) (env w).
Definition set_keys (v : gset string) (w : World) : World :=
  mkWorld (STATE w) (entities w) v (mouse w) (lastTime w) (dom w) (env w).
Definition set_mouse (v : Q * Q) (w : World) : World :=
  mkWorld (STATE w) (entities w) (keys w) v (lastTime w) (dom w) (env w).
Definition set_lastTime (v : Q) (w : World) : World :=
  mkWorld (STATE w) (entities w) (keys w) (mouse w) v (dom w) (env w).
Definition set_dom (v : Dom.t) (w : World) : World :=
  mkWorld (STATE w) (entities w) (keys w) (mouse w) (lastTime w) v (env w).
Definition set_env (v : Env) (w : World) : World :=
  mkWorld (STATE w) (entities w) (keys w) (mouse w) (lastTime w) (dom w) v.

(** Computations of the script. *)
Abbreviation M := (Comp World).

(** Read a field of [STATE], [entities] or the page. *)
Definition getS {A} (f : State.t -> A) : M A := gets (fun w => f (STATE w)).
Definition getE {A} (f : Entities.t -> A) : M A := gets (fun w => f (entities w)).
Definition getD {A} (f : Dom.t -> A) : M A := gets (fun w => f (dom w)).

(** Assign to a field of [STATE], [entities] or the page. *)
Definition modS (f : State.t -> State.t) : M unit :=
  modify (fun w => set_STATE (f (STATE w)) w).
Definition modE (f : Entities.t -> Entities.t) : M unit :=
  modify (fun w => set_entities (f (entities w)) w).
Definition modD (f : Dom.t -> Dom.t) : M unit :=
  modify (fun w => set_dom (f (dom w)) w).

(** Call a service of the browser. *)
Definition browser {A} (m : Comp Env A) : M A := zoom env set_env m.

#[export] Hint Unfold getS getE getD modS modE modD browser : comp.

(** [arr.push(x)] on the arrays of [entities]. *)
Definition push_asteroid (a : Asteroid.obj) : M unit :=
  modE (fun e => Entities.set_asteroids (Entities.asteroids e ++ [a]) e).
Definition push_crystal (c : Crystal.obj) : M unit :=
  modE (fun e => Entities.set_crystals (Entities.crystals e ++ [c]) e).
Definition push_particle (p : Particle.obj) : M unit :=
  modE (fun e => Entities.set_particles (Entities.particles e ++ [p]) e).

#[export] Hint Unfold push_asteroid push_crystal push_particle : comp.

(** The world with [ps] appended to the particles, and likewise. *)
Definition add_particles (ps : list Particle.obj) (w : World) : World :=
  set_entities (Entities.set_particles (Entities.particles (entities w) ++ ps) (entities w)) w.
Definition add_asteroids (l : list Asteroid.obj) (w : World) : World :=
  set_entities (Entities.set_asteroids (Entities.asteroids (entities w) ++ l) (entities w)) w.
Definition add_crystals (l : list Crystal.obj) (w : World) : World :=
  set_entities (Entities.set_crystals (Entities.crystals (entities w) ++ l) (entities w)) w.

(** The world after [n] more calls of [Math.random]. *)
Definition advance (n : nat) (w : World) : World := set_env (skip_random n (env w)) w.

(** The world when the script starts: the globals at their initial values,
    nothing written to the page yet. *)
Definition initial (cfg : Config) (e : Env) : World :=
  {| STATE := State.init cfg;
     entities := Entities.init;
     keys := ∅;
     mouse := (width cfg / 2, height cfg / 2);
     lastTime := 0;
     dom := Dom.init;
     env := e |}.

Section world.
Implicit Types w : World.

Lemma browser_run {A} (m : Comp Env A) w a e' :
  m (env w) = Ok a e' -> browser m w = Ok a (set_env e' w).
Proof. unfold browser, zoom. now intros ->. Qed.

Lemma wp_browser {A} (m : Comp Env A) (Q : A -> World -> Prop) w :
  wp m (fun a e' => Q a (set_env e' w)) (env w) -> wp (browser m) Q w.
Proof. apply wp_zoom. Qed.

Lemma set_env_env w : set_env (env w) w = w.
Proof. now destruct w. Qed.

Lemma set_STATE_STATE w : set_STATE (STATE w) w = w.
Proof. now destruct w. Qed.

Lemma set_entities_entities w : set_entities (entities w) w = w.
Proof. now destruct w. Qed.

Lemma set_dom_dom w : set_dom (dom w) w = w.
Proof. now destruct w. Qed.

(** Two worlds with the same fields are equal. *)
Lemma World_ext w w' :
  STATE w = STATE w' -> entities w = entities w' -> keys w = keys w' ->
  mouse w = mouse w' -> lastTime w = lastTime w' -> dom w = dom w' ->
  env w = env w' -> w = w'.
Proof. destruct w, w'; cbn; congruence. Qed.

Lemma State_ext (s s' : State.t) :
  State.running s = State.running s' -> State.paused s = State.paused s' ->
  State.over s = State.over s' -> State.score s = State.score s' ->
  State.lives s = State.lives s' -> State.level s = State.level s' ->
  State.tick s = State.tick s' ->
  State.lastCrystalMs s = State.lastCrystalMs s' ->
  State.lastDifficultyMs s = State.lastDifficultyMs s' -> s = s'.
Proof. destruct s, s'; cbn; congruence. Qed.

Lemma Entities_ext (e e' : Entities.t) :
  Entities.ship e = Entities.ship e' -> Entities.asteroids e = Entities.asteroids e' ->
  Entities.crystals e = Entities.crystals e' ->
  Entities.particles e = Entities.particles e' -> e = e'.
Proof. destruct e, e'; cbn; congruence. Qed.

Lemma advance_0 w : advance 0 w = w.
Proof. unfold advance. rewrite skip_random_0. apply set_env_env. Qed.

Lemma advance_add n m w : advance n (advance m w) = advance (n + m) w.
Proof. unfold advance; cbn. now rewrite skip_random_add. Qed.

Lemma add_particles_nil w : add_particles [] w = w.
Proof. unfold add_particles. rewrite app_nil_r. now destruct w as [? [] ? ? ? ? ?]. Qed.

Lemma add_particles_app ps qs w :
  add_particles qs (add_particles ps w) = add_particles (ps ++ qs) w.
Proof. unfold add_particles; cbn. now rewrite app_assoc. Qed.

Lemma add_asteroids_nil w : add_asteroids [] w = w.
Proof. unfold add_asteroids. rewrite app_nil_r. now destruct w as [? [] ? ? ? ? ?]. Qed.

Lemma add_asteroids_app l1 l2 w :
  add_asteroids l2 (add_asteroids l1 w) = add_asteroids (l1 ++ l2) w.
Proof. unfold add_asteroids; cbn. now rewrite app_assoc. Qed.

Lemma advance_add_particles n ps w :
  advance n (add_particles ps w) = add_particles ps (advance n w).
Proof. reflexivity. Qed.

Lemma advance_add_asteroids n l w :
  advance n (add_asteroids l w) = add_asteroids l (advance n w).
Proof. reflexivity. Qed.

Lemma advance_add_crystals n l w :
  advance n (add_crystals l w) = add_crystals l (advance n w).
Proof. reflexivity. Qed.

Lemma advance_env_ok n w : Env_ok (env w) -> Env_ok (env (advance n w)).
Proof. apply skip_random_ok. Qed.

(** *** Rules for the first statement of a computation *)

Lemma wp_browser_bind {A B} (m : Comp Env A) (k : A -> M B) Q w a e' :
  m (env w) = Ok a e' -> wp (k a) Q (set_env e' w) -> wp (browser m ≫= k) Q w.
Proof.
  intros Hm Hk. apply wp_bind. eapply wp_ok; [apply browser_run, Hm|exact Hk].
Qed.

Lemma wp_random_bind {B} (k : Q -> M B) Q w :
  Env_ok (env w) ->
  (forall r, 0 <= r -> r < 1 -> Env_ok (env (advance 1 w)) -> wp (k r) Q (advance 1 w)) ->
  wp (browser random ≫= k) Q w.
Proof.
  intros He Hk. eapply wp_browser_bind; [reflexivity|].
  destruct (random_range _ He (random_pos (env w))).
  apply Hk; [done..|]. now apply advance_env_ok.
Qed.

Lemma wp_rand_bind {B} (a b : Q) (k : Q -> M B) Q w :
  Env_ok (env w) -> a < b ->
  (forall r, a <= r -> r < b -> Env_ok (env (advance 1 w)) -> wp (k r) Q (advance 1 w)) ->
  wp (browser (rand a b) ≫= k) Q w.
Proof.
  intros He Hab Hk. eapply wp_browser_bind; [apply rand_run|].
  destruct (random_range _ He (random_pos (env w))).
  apply Hk; [apply scale_range; done..|]. now apply advance_env_ok.
Qed.

Lemma wp_choice_bind {A B} (arr : list A) (k : option A -> M B) Q w :
  Env_ok (env w) -> arr <> [] ->
  (forall x, x ∈ arr -> Env_ok (env (advance 1 w)) -> wp (k (Some x)) Q (advance 1 w)) ->
  wp (browser (choice arr) ≫= k) Q w.
Proof.
  intros He Harr Hk.
  destruct (wp_inv _ _ _ (choice_elem arr _ He Harr)) as (o & e' & Hrun & (x & -> & Hx) & ->).
  eapply wp_browser_bind; [exact Hrun|]. apply Hk; [done|]. now apply advance_env_ok.
Qed.

Lemma wp_gets_bind {A B} (f : World -> A) (k : A -> M B) Q w :
  wp (k (f w)) Q w -> wp (gets f ≫= k) Q w.
Proof. intros Hk. now apply wp_bind. Qed.

Lemma wp_getS_bind {A B} (f : State.t -> A) (k : A -> M B) Q w :
  wp (k (f (STATE w))) Q w -> wp (getS f ≫= k) Q w.
Proof. apply (wp_gets_bind (fun w => f (STATE w))). Qed.

Lemma wp_getE_bind {A B} (f : Entities.t -> A) (k : A -> M B) Q w :
  wp (k (f (entities w))) Q w -> wp (getE f ≫= k) Q w.
Proof. apply (wp_gets_bind (fun w => f (entities w))). Qed.

Lemma wp_modify_bind {B} (f : World -> World) (k : unit -> M B) Q w :
  wp (k tt) Q (f w) -> wp (modify f ≫= k) Q w.
Proof. intros Hk. now apply wp_bind. Qed.

Lemma wp_unwrap_bind {A B} (o : option A) (k : A -> M B) Q w a :
  o = Some a -> wp (k a) Q w -> wp (unwrap o ≫= k) Q w.
Proof. intros -> Hk. now apply wp_bind. Qed.
End world.

(** [world_simpl] evaluates the setters and the projections of the world's
    records. *)
Ltac world_simpl :=
  cbv [set_STATE set_entities set_keys set_mouse set_lastTime set_dom set_env
       add_particles add_asteroids add_crystals advance
       STATE entities keys mouse lastTime dom env
       Entities.set_ship Entities.set_asteroids Entities.set_crystals
       Entities.set_particles Entities.ship Entities.asteroids Entities.crystals
       Entities.particles
       State.set_running State.set_paused State.set_over State.set_score
       State.set_lives State.set_level State.set_tick State.set_lastCrystalMs
       State.set_lastDifficultyMs State.running State.paused State.over
       State.score State.lives State.level State.tick State.lastCrystalMs
       State.lastDifficultyMs
       Dom.set_hudScore Dom.set_hudLevel Dom.set_hudLives Dom.set_finalScore
       Dom.set_menuVisible Dom.set_pauseVisible Dom.set_gameoverVisible
       Dom.hudScore Dom.hudLevel Dom.hudLives Dom.finalScore Dom.menuVisible
       Dom.pauseVisible Dom.gameoverVisible].

(** [wp_draw] consumes a leading draw from the browser; the facts about the
    value drawn are introduced in the context. *)
Ltac wp_draw :=
  lazymatch goal with
  | |- wp (browser (rand _ _) ≫= _) _ _ =>
      apply wp_rand_bind; [eauto using advance_env_ok|try done; try lra|intros ? ? ? ?]
  | |- wp (browser random ≫= _) _ _ =>
      apply wp_random_bind; [eauto using advance_env_ok|intros ? ? ? ?]
  | |- wp (browser (choice _) ≫= _) _ _ =>
      apply wp_choice_bind; [eauto using advance_env_ok|try done|intros ? ? ?]
  | |- wp (getS _ ≫= _) _ _ => apply wp_getS_bind
  | |- wp (getE _ ≫= _) _ _ => apply wp_getE_bind
  | |- wp (unwrap (Some _) ≫= _) _ _ => eapply wp_unwrap_bind; [reflexivity|]
  end.
