(* ===== verification/Canvas.v ===== *)
(** * Canvas: the 2D drawing context

    [game.js] draws through [ctx = canvas.getContext("2d")] (line 28).  The
    context is an object of the browser with a state of its own: a drawing
    state (transformation, opacity, styles, shadow, font), a stack of saved
    drawing states, a current path, and the bitmap.  The module [Ctx] models
    the part of it the script uses: each method and each property the script
    assigns is a function on the state [Ctx.t], named as in the API.

    The bitmap is not a grid of pixels here but the list of what was painted,
    in order: every painting call appends one [Paint] that records the
    geometry and a copy of the drawing state it was painted with.

    Not modelled: the parsing of colours and fonts (a style is kept as the
    string that was assigned); non-finite arguments, which the methods
    ignore; the exceptions of [addColorStop], whose offsets are the literals
    0 and 1 in the script.  The exceptions of [ellipse] and
    [createRadialGradient] for a negative radius are raised where the
    script calls them (file [Page]). *)

From stdpp Require Import strings.
From S2P Require Import Prelude.

Module Ctx.

(** What [fillStyle] can hold: a CSS colour or a gradient with its colour
    stops, in the order they were added. *)
Inductive Style : Type :=
  | Color (css : string)
  | LinearGradient (x0 y0 x1 y1 : Q) (stops : list (Q * string))
  | RadialGradient (x0 y0 r0 x1 y1 r1 : Q) (stops : list (Q * string)).

(** [ctx.createLinearGradient(x0, y0, x1, y1)] *)
Definition createLinearGradient (x0 y0 x1 y1 : Q) : Style :=
  LinearGradient x0 y0 x1 y1 [].

(** [gradient.addColorStop(offset, color)] *)
Definition addColorStop (offset : Q) (css : string) (g : Style) : Style :=
  match g with
  | Color c => Color c
  | LinearGradient x0 y0 x1 y1 stops =>
      LinearGradient x0 y0 x1 y1 (stops ++ [(offset, css)])
  | RadialGradient x0 y0 r0 x1 y1 r1 stops =>
      RadialGradient x0 y0 r0 x1 y1 r1 (stops ++ [(offset, css)])
  end.

(** A factor of the current transformation: the matrix given to
    [setTransform], then the translations and rotations applied since. *)
Inductive Xform : Type :=
  | Matrix (a b c d e f : Q)
  | Translate (x y : Q)
  | Rotate (angle : Q).

(** The drawing state, which [save] pushes and [restore] pops. *)
Record Pen : Type := mkPen {
  transform : list Xform;   (* the first factor is applied last *)
  globalAlpha : Q;
  fillStyle : Style;
  strokeStyle : string;
  lineWidth : Q;
  shadowColor : string;
  shadowBlur : Q;
  font : string;
  textAlign : string;
}.

(** A step of the current path, in the coordinates of the transformation
    that was current when it was added. *)
Inductive Seg : Type :=
  | MoveTo (x y : Q)
  | LineTo (x y : Q)
  | ClosePath
  | Ellipse (x y radiusX radiusY rotation startAngle endAngle : Q).

(** One painting operation with the drawing state it used. *)
Inductive Paint : Type :=
  | Cleared (at_ : list Xform) (x y w h : Q)
  | FilledRect (pen : Pen) (x y w h : Q)
  | Filled (pen : Pen) (path : list (list Xform * Seg))
  | Stroked (pen : Pen) (path : list (list Xform * Seg))
  | Text (pen : Pen) (text : string) (x y : Q).

Record t : Type := mk {
  pen : Pen;
  stack : list Pen;
  path : list (list Xform * Seg);
  painted : list Paint;
}.

(** The drawing state of a context that was just created or reset. *)
Definition default : Pen :=
  {| transform := [];
     globalAlpha := 1;
     fillStyle := Color "#000000";
     strokeStyle := "#000000";
     lineWidth := 1;
     shadowColor := "rgba(0, 0, 0, 0)";
     shadowBlur := 0;
     font := "10px sans-serif";
     textAlign := "start" |}.

(** The context after the bitmap was resized: default drawing state, empty
    stack and path, nothing painted. *)
Definition blank : t := {| pen := default; stack := []; path := []; painted := [] |}.

Definition set_pen (p : Pen) (g : t) : t :=
  {| pen := p; stack := stack g; path := path g; painted := painted g |}.
Definition set_path (l : list (list Xform * Seg)) (g : t) : t :=
  {| pen := pen g; stack := stack g; path := l; painted := painted g |}.
Definition paint (x : Paint) (g : t) : t :=
  {| pen := pen g; stack := stack g; path := path g; painted := painted g ++ [x] |}.

(** The drawing state with one property assigned. *)
Definition with_transform (v : list Xform) (p : Pen) : Pen :=
  mkPen v (globalAlpha p) (fillStyle p) (strokeStyle p) (lineWidth p)
        (shadowColor p) (shadowBlur p) (font p) (textAlign p).
Definition with_alpha (v : Q) (p : Pen) : Pen :=
  mkPen (transform p) v (fillStyle p) (strokeStyle p) (lineWidth p)
        (shadowColor p) (shadowBlur p) (font p) (textAlign p).
Definition with_fill (v : Style) (p : Pen) : Pen :=
  mkPen (transform p) (globalAlpha p) v (strokeStyle p) (lineWidth p)
        (shadowColor p) (shadowBlur p) (font p) (textAlign p).
Definition with_stroke (v : string) (p : Pen) : Pen :=
  mkPen (transform p) (globalAlpha p) (fillStyle p) v (lineWidth p)
        (shadowColor p) (shadowBlur p) (font p) (textAlign p).
Definition with_lineWidth (v : Q) (p : Pen) : Pen :=
  mkPen (transform p) (globalAlpha p) (fillStyle p) (strokeStyle p) v
        (shadowColor p) (shadowBlur p) (font p) (textAlign p).
Definition with_shadowColor (v : string) (p : Pen) : Pen :=
  mkPen (transform p) (globalAlpha p) (fillStyle p) (strokeStyle p) (lineWidth p)
        v (shadowBlur p) (font p) (textAlign p).
Definition with_shadowBlur (v : Q) (p : Pen) : Pen :=
  mkPen (transform p) (globalAlpha p) (fillStyle p) (strokeStyle p) (lineWidth p)
        (shadowColor p) v (font p) (textAlign p).
Definition with_font (v : string) (p : Pen) : Pen :=
  mkPen (transform p) (globalAlpha p) (fillStyle p) (strokeStyle p) (lineWidth p)
        (shadowColor p) (shadowBlur p) v (textAlign p).
Definition with_textAlign (v : string) (p : Pen) : Pen :=
  mkPen (transform p) (globalAlpha p) (fillStyle p) (strokeStyle p) (lineWidth p)
        (shadowColor p) (shadowBlur p) (font p) v.

(** ** State *)

(** [ctx.save()] *)
Definition save (g : t) : t :=
  {| pen := pen g; stack := pen g :: stack g; path := path g; painted := painted g |}.

(** [ctx.restore()]: nothing happens when the stack is empty. *)
Definition restore (g : t) : t :=
  match stack g with
  | [] => g
  | p :: s => {| pen := p; stack := s; path := path g; painted := painted g |}
  end.

(** ** Transformation *)

(** [ctx.translate(x, y)] *)
Definition translate (x y : Q) (g : t) : t :=
  set_pen (with_transform (transform (pen g) ++ [Translate x y]) (pen g)) g.

(** [ctx.rotate(angle)] *)
Definition rotate (angle : Q) (g : t) : t :=
  set_pen (with_transform (transform (pen g) ++ [Rotate angle]) (pen g)) g.

(** [ctx.setTransform(a, b, c, d, e, f)] replaces the transformation. *)
Definition setTransform (a b c d e f : Q) (g : t) : t :=
  set_pen (with_transform [Matrix a b c d e f] (pen g)) g.

(** ** Properties of the drawing state *)

(** [ctx.globalAlpha = a]: a value outside [[0, 1]] is ignored. *)
Definition set_globalAlpha (a : Q) (g : t) : t :=
  if ((0 <=? a) && (a <=? 1))%js then set_pen (with_alpha a (pen g)) g else g.

(** [ctx.fillStyle = s] *)
Definition set_fillStyle (s : Style) (g : t) : t := set_pen (with_fill s (pen g)) g.

(** [ctx.strokeStyle = s] *)
Definition set_strokeStyle (s : string) (g : t) : t := set_pen (with_stroke s (pen g)) g.

(** [ctx.lineWidth = w]: a value that is not positive is ignored. *)
Definition set_lineWidth (w : Q) (g : t) : t :=
  if (0 <? w)%js then set_pen (with_lineWidth w (pen g)) g else g.

(** [ctx.shadowColor = s] *)
Definition set_shadowColor (s : string) (g : t) : t := set_pen (with_shadowColor s (pen g)) g.

(** [ctx.shadowBlur = b]: a negative value is ignored. *)
Definition set_shadowBlur (b : Q) (g : t) : t :=
  if (0 <=? b)%js then set_pen (with_shadowBlur b (pen g)) g else g.

(** [ctx.font = f] *)
Definition set_font (f : string) (g : t) : t := set_pen (with_font f (pen g)) g.

(** [ctx.textAlign = a] *)
Definition set_textAlign (a : string) (g : t) : t := set_pen (with_textAlign a (pen g)) g.

(** ** The current path *)

(** [ctx.beginPath()] *)
Definition beginPath (g : t) : t := set_path [] g.

Definition add_seg (s : Seg) (g : t) : t :=
  set_path (path g ++ [(transform (pen g), s)]) g.

(** [ctx.moveTo(x, y)] *)
Definition moveTo (x y : Q) : t -> t := add_seg (MoveTo x y).

(** [ctx.lineTo(x, y)] *)
Definition lineTo (x y : Q) : t -> t := add_seg (LineTo x y).

(** [ctx.closePath()] *)
Definition closePath : t -> t := add_seg ClosePath.

(** [ctx.ellipse(x, y, radiusX, radiusY, rotation, startAngle, endAngle)],
    for radii that are not negative. *)
Definition ellipse (x y rx ry rotation a0 a1 : Q) : t -> t :=
  add_seg (Ellipse x y rx ry rotation a0 a1).

(** ** Painting *)

(** [ctx.fill()] *)
Definition fill (g : t) : t := paint (Filled (pen g) (path g)) g.

(** [ctx.stroke()] *)
Definition stroke (g : t) : t := paint (Stroked (pen g) (path g)) g.

(** [ctx.fillRect(x, y, w, h)] *)
Definition fillRect (x y w h : Q) (g : t) : t := paint (FilledRect (pen g) x y w h) g.

(** [ctx.clearRect(x, y, w, h)] *)
Definition clearRect (x y w h : Q) (g : t) : t :=
  paint (Cleared (transform (pen g)) x y w h) g.

(** [ctx.fillText(text, x, y)] *)
Definition fillText (text : string) (x y : Q) (g : t) : t := paint (Text (pen g) text x y) g.

(** ** What a painting operation was painted with *)

(** The drawing state of a painting operation; clearing uses none but the
    transformation. *)
Definition paint_pen (x : Paint) : option Pen :=
  match x with
  | Cleared _ _ _ _ _ => None
  | FilledRect p _ _ _ _ | Filled p _ | Stroked p _ | Text p _ _ _ => Some p
  end.

(** The opacity it was painted with. *)
Definition opacity (x : Paint) : option Q := globalAlpha <$> paint_pen x.

(** The transformation it was painted under. *)
Definition placed (x : Paint) : list Xform :=
  match x with
  | Cleared tr _ _ _ _ => tr
  | FilledRect p _ _ _ _ | Filled p _ | Stroked p _ | Text p _ _ _ => transform p
  end.

(** The opacity and the fill style of a drawing state that painted. *)
Definition filled_with (x : Paint) : option Style := fillStyle <$> paint_pen x.

(** The vertices of a path: the end points of its [moveTo] and [lineTo]
    steps. *)
Definition vertices (l : list (list Xform * Seg)) : list (Q * Q) :=
  omap (fun s => match s.2 with
                 | MoveTo x y | LineTo x y => Some (x, y)
                 | _ => None
                 end) l.

(** The vertices of the path of a shape; a rectangle and a text have no
    path. *)
Definition outline (x : Paint) : option (list (Q * Q)) :=
  match x with
  | Filled _ l | Stroked _ l => Some (vertices l)
  | _ => None
  end.

(** The rectangle of device pixels that a rectangle covers under a
    transformation that only scales, as [(x0, y0, x1, y1)]. *)
Definition device_rect (tr : list Xform) (x y w h : Q) : option (Q * Q * Q * Q) :=
  match tr with
  | [Matrix a b c d e f] =>
      if ((b =? 0) && (c =? 0) && (0 <? a) && (0 <? d))%js
      then Some (a * x + e, d * y + f, a * (x + w) + e, d * (y + h) + f)
      else None
  | _ => None
  end.
End Ctx.

(** ** Laws of the context *)

Section ctx_laws.
Implicit Types (g : Ctx.t) (p : Ctx.Pen).

(** [restore] undoes [save], whatever was assigned or painted in between,
    as long as saves and restores in between are paired. *)
Lemma restore_save g : Ctx.restore (Ctx.save g) = g.
Proof. by destruct g. Qed.

(** A context between a [save] and its [restore]: the drawing state may be
    any, the stack is the saved state on top of the old stack. *)
Definition inside (g0 g : Ctx.t) : Prop :=
  Ctx.stack g = Ctx.pen g0 :: Ctx.stack g0.

Lemma inside_save g : inside g (Ctx.save g).
Proof. done. Qed.

Lemma restore_inside g0 g :
  inside g0 g ->
  Ctx.pen (Ctx.restore g) = Ctx.pen g0 /\ Ctx.stack (Ctx.restore g) = Ctx.stack g0 /\
  Ctx.path (Ctx.restore g) = Ctx.path g /\ Ctx.painted (Ctx.restore g) = Ctx.painted g.
Proof. unfold inside, Ctx.restore. by intros ->. Qed.

(** The assignments and the path and painting methods keep the stack. *)
Lemma set_globalAlpha_stack a g : Ctx.stack (Ctx.set_globalAlpha a g) = Ctx.stack g.
Proof. unfold Ctx.set_globalAlpha. by case_match. Qed.

Lemma set_lineWidth_stack w g : Ctx.stack (Ctx.set_lineWidth w g) = Ctx.stack g.
Proof. unfold Ctx.set_lineWidth. by case_match. Qed.

Lemma set_shadowBlur_stack b g : Ctx.stack (Ctx.set_shadowBlur b g) = Ctx.stack g.
Proof. unfold Ctx.set_shadowBlur. by case_match. Qed.

(** An opacity in range is assigned, one out of range is ignored. *)
Lemma set_globalAlpha_in a g :
  0 <= a -> a <= 1 -> Ctx.set_globalAlpha a g = Ctx.set_pen (Ctx.with_alpha a (Ctx.pen g)) g.
Proof. intros H0 H1. unfold Ctx.set_globalAlpha. by rewrite !bool_decide_eq_true_2. Qed.

Lemma set_globalAlpha_out a g : a < 0 \/ 1 < a -> Ctx.set_globalAlpha a g = g.
Proof.
  intros Ha. unfold Ctx.set_globalAlpha.
  destruct Ha; [rewrite (bool_decide_eq_false_2 (0 <= a))|
                rewrite (bool_decide_eq_false_2 (a <= 1)), andb_false_r]; try done; lra.
Qed.

Lemma set_lineWidth_pos w g :
  0 < w -> Ctx.set_lineWidth w g = Ctx.set_pen (Ctx.with_lineWidth w (Ctx.pen g)) g.
Proof. intros Hw. unfold Ctx.set_lineWidth. by rewrite bool_decide_eq_true_2. Qed.

Lemma set_shadowBlur_nonneg b g :
  0 <= b -> Ctx.set_shadowBlur b g = Ctx.set_pen (Ctx.with_shadowBlur b (Ctx.pen g)) g.
Proof. intros Hb. unfold Ctx.set_shadowBlur. by rewrite bool_decide_eq_true_2. Qed.
End ctx_laws.

(** [ctx_eval] computes the context that a sequence of calls leaves: the
    assignments of valid values first, then the calls themselves. *)
Ltac ctx_eval :=
  rewrite ?set_globalAlpha_in, ?set_lineWidth_pos, ?set_shadowBlur_nonneg by (done || lra);
  cbv [Ctx.save Ctx.restore Ctx.translate Ctx.rotate Ctx.setTransform
       Ctx.set_fillStyle Ctx.set_strokeStyle Ctx.set_shadowColor Ctx.set_font
       Ctx.set_textAlign Ctx.beginPath Ctx.moveTo Ctx.lineTo Ctx.closePath Ctx.ellipse
       Ctx.add_seg Ctx.fill Ctx.stroke Ctx.fillRect Ctx.clearRect Ctx.fillText
       Ctx.paint Ctx.set_pen Ctx.set_path
       Ctx.with_transform Ctx.with_alpha Ctx.with_fill Ctx.with_stroke Ctx.with_lineWidth
       Ctx.with_shadowColor Ctx.with_shadowBlur Ctx.with_font Ctx.with_textAlign
       Ctx.pen Ctx.stack Ctx.path Ctx.painted
       Ctx.transform Ctx.globalAlpha Ctx.fillStyle Ctx.strokeStyle Ctx.lineWidth
       Ctx.shadowColor Ctx.shadowBlur Ctx.font Ctx.textAlign];
  rewrite <- ?app_assoc; cbn [app].
