(* ===== verification/Spawner.v ===== *)
(** * Spawner: [spawnAsteroid], [spawnCrystal], [spawnExplosion], [spawnSparkle]

    The functions of [game.js] lines 327-364.  Each draws from the random
    tape in the order of the source and pushes the new object at the end of
    its array.  A type that [choice] leaves [undefined] raises the TypeError
    where the object is created; the script would raise it at the first use
    of the type, which for a crystal is the next collision test.

    Theorems: what each spawner adds to the world and how many draws it
    consumes; where a new asteroid or crystal is placed; that no spawner
    throws when the tables are not empty and the draws are in range. *)

From stdpp Require Import gmap strings.
From S2P Require Import Prelude Browser Config Geometry Entities World.

Section spawner.
Context (cfg : Config) `{MathLib}.

(** The four [if (edge===k)] statements of [spawnAsteroid]: [x] and [y]
    stay unassigned when [edge] is none of 0, 1, 2, 3. *)
Definition place_on_edge (size : Q) (edge : Z) : Comp Env (option (Q * Q)) :=
  let xy := None in
  xy ← (if bool_decide (edge = 0)%Z
        then y ← rand 0 (height cfg); mret (Some (- size - 20, y))
        else mret xy);
  xy ← (if bool_decide (edge = 1)%Z
        then y ← rand 0 (height cfg); mret (Some (width cfg + size + 20, y))
        else mret xy);
  xy ← (if bool_decide (edge = 2)%Z
        then x ← rand 0 (width cfg); mret (Some (x, - size - 20))
        else mret xy);
  xy ← (if bool_decide (edge = 3)%Z
        then x ← rand 0 (width cfg); mret (Some (x, height cfg + size + 20))
        else mret xy);
  mret xy.

(** The second half of [spawnAsteroid], from [const angle] on: the velocity
    points to the centre of the playfield, up to 0.7 radians; the speed is
    that of the type, up to 0.3, plus 0.1 per level. *)
Definition launch_asteroid (t : AsteroidType) (x y : Q) : M unit :=
  r ← browser (rand (-0.7) 0.7);
  let angle := Math_atan2 (height cfg / 2 - y) (width cfg / 2 - x) + r in
  r ← browser (rand (-0.3) 0.3);
  level ← getS State.level;
  let speed := at_speed t + r + inject_Z level * 0.1 in
  let vx := Math_cos angle * speed in
  let vy := Math_sin angle * speed in
  r ← browser random;
  level ← getS State.level;
  let wave := (r <? Qmin 0.4 (0.15 + inject_Z level * 0.03))%js in
  a ← browser (Asteroid.new x y vx vy (at_size t) wave);
  push_asteroid a.

(** [function spawnAsteroid(offscreen=false)].  With an empty table
    [choice] returns [undefined] and the source throws a TypeError at the
    first [t.size]; the model throws it where [t] is chosen, a few draws
    earlier.  An edge index that is none of 0 to 3 leaves [x] and [y]
    unassigned in the source; it cannot come from a draw in [0, 1). *)
Definition spawnAsteroid (offscreen : bool) : M unit :=
  t ← browser (choice (asteroidTypes cfg));
  t ← unwrap t;
  xy ← (if offscreen then
          r ← browser (rand 0 4);
          let edge := Qfloor r in
          browser (place_on_edge (at_size t) edge)
        else
          x ← browser (rand 0 (width cfg));
          y ← browser (rand 0 (height cfg * 0.5));
          mret (Some (x, y)));
  '(x, y) ← (match xy with Some p => mret p | None => throw NotANumber end);
  launch_asteroid t x y.

(** [function spawnCrystal()].  With an empty table the source pushes a
    crystal whose type is [undefined] and throws a TypeError later, when the
    type is read in [bounds()] or [draw]; a crystal of the model always has
    a type, and the model throws where the type is chosen. *)
Definition spawnCrystal : M unit :=
  type ← browser (choice (crystalTypes cfg));
  type ← unwrap type;
  let margin := 40 in
  x ← browser (rand margin (width cfg - margin));
  y ← browser (rand margin (height cfg - margin * 2));
  c ← browser (Crystal.new x y type);
  push_crystal c.

(** The body of the loops of [spawnExplosion] and [spawnSparkle]:
    [entities.particles.push(new Particle(x, y, color, rand(l1, l2), rand(s1, s2)))]. *)
Definition spawnParticle (x y : Q) (color : string) (l1 l2 s1 s2 : Q) : M unit :=
  life ← browser (rand l1 l2);
  speed ← browser (rand s1 s2);
  p ← browser (Particle.new x y color life speed);
  push_particle p.

(** [function spawnExplosion(x, y, color)] *)
Definition spawnExplosion (x y : Q) (color : string) : M unit :=
  repeatM 30 (spawnParticle x y color 28 48 1 4).

(** [function spawnSparkle(x, y, color)] *)
Definition spawnSparkle (x y : Q) (color : string) : M unit :=
  repeatM 18 (spawnParticle x y color 18 30 0.8 2.5).
End spawner.

#[export] Hint Unfold place_on_edge launch_asteroid spawnAsteroid spawnCrystal
  spawnParticle : comp.

(** ** What the spawners do *)

Section spawner_facts.
Context (cfg : Config) `{!Config_ok cfg} `{MathLib}.
Implicit Types w : World.

(** A particle as [spawnParticle] creates it at [(x, y)]. *)
Definition fresh_particle (x y : Q) (color : string) (l1 l2 s2 : Q) (p : Particle.obj) : Prop :=
  Particle.x p = x /\ Particle.y p = y /\ Particle.color p = color /\
  Particle.t p = 0%Z /\
  (l1 <= Particle.life p /\ Particle.life p < l2) /\
  (Qabs (Particle.vx p) <= s2 /\ Qabs (Particle.vy p) <= s2).

Lemma spawnParticle_spec x y color l1 l2 s1 s2 w :
  Env_ok (env w) -> l1 < l2 -> 0 <= s1 -> s1 < s2 ->
  wp (spawnParticle x y color l1 l2 s1 s2)
     (fun _ w' => exists p, fresh_particle x y color l1 l2 s2 p /\
                            w' = add_particles [p] (advance 4 w)) w.
Proof.
  intros He Hl Hs1 Hs2. unfold spawnParticle.
  wp_draw. wp_draw.
  destruct (Particle_new_run x y color r r0 (env (advance 1 (advance 1 w))))
    as (p & Hrun & Hx & Hy & Hlife & Ht & Hc & Hv).
  eapply wp_browser_bind; [exact Hrun|].
  exists p. split; [|reflexivity].
  destruct Hv as [Hvx Hvy]; [lra|].
  unfold fresh_particle. rewrite Hlife. split_and!; try done; lra.
Qed.

(** A burst of [n] particles. *)
Lemma spawn_burst_spec (n : nat) x y color l1 l2 s1 s2 w :
  Env_ok (env w) -> l1 < l2 -> 0 <= s1 -> s1 < s2 ->
  wp (repeatM n (spawnParticle x y color l1 l2 s1 s2))
     (fun _ w' => exists ps, length ps = n /\
                             Forall (fresh_particle x y color l1 l2 s2) ps /\
                             w' = add_particles ps (advance (4 * n) w)) w.
Proof.
  intros He Hl Hs1 Hs2.
  apply (wp_repeatM (fun i w' => exists ps, length ps = i /\
           Forall (fresh_particle x y color l1 l2 s2) ps /\
           w' = add_particles ps (advance (4 * i) w))).
  - exists []. split_and!; [done|constructor|].
    now rewrite add_particles_nil, advance_0.
  - intros i w' _ (ps & Hlen & Hps & ->).
    eapply wp_mono; [apply spawnParticle_spec; [now apply advance_env_ok|done..]|].
    intros _ w'' (p & Hp & ->). exists (ps ++ [p]). split_and!.
    + rewrite length_app, Hlen. simpl. lia.
    + apply Forall_app; split; [done|]. now constructor.
    + rewrite advance_add_particles, add_particles_app, advance_add.
      do 2 f_equal. lia.
Qed.

(** [spawnExplosion(x, y, color)] does not throw; it appends 30
    particles of age 0 at [(x, y)], with a life span in [[28, 48)] and a
    velocity of at most 4 along each axis, consumes 120 draws and changes
    nothing else. *)
Lemma spawnExplosion_spec x y color w :
  Env_ok (env w) ->
  wp (spawnExplosion x y color)
     (fun _ w' => exists ps, length ps = 30%nat /\
                             Forall (fresh_particle x y color 28 48 4) ps /\
                             w' = add_particles ps (advance 120 w)) w.
Proof. intros He. now apply (spawn_burst_spec 30). Qed.

(** [spawnSparkle(x, y, color)] does not throw; it appends 18
    particles of age 0 at [(x, y)], with a life span in [[18, 30)] and a
    velocity of at most 2.5 along each axis, consumes 72 draws and changes
    nothing else. *)
Lemma spawnSparkle_spec x y color w :
  Env_ok (env w) ->
  wp (spawnSparkle x y color)
     (fun _ w' => exists ps, length ps = 18%nat /\
                             Forall (fresh_particle x y color 18 30 2.5) ps /\
                             w' = add_particles ps (advance 72 w)) w.
Proof. intros He. now apply (spawn_burst_spec 18). Qed.

(** [spawnCrystal()] does not throw; it appends one crystal of age 0,
    of a type of the table, at least 40 from the left, right and top edges
    and 80 from the bottom edge, consumes 5 draws and changes nothing
    else. *)
Lemma spawnCrystal_spec w :
  Env_ok (env w) ->
  wp (spawnCrystal cfg)
     (fun _ w' => exists c,
        Crystal.type c ∈ crystalTypes cfg /\ Crystal.t c = 0%Z /\
        (40 <= Crystal.x c /\ Crystal.x c < width cfg - 40) /\
        (40 <= Crystal.y c /\ Crystal.y c < height cfg - 80) /\
        w' = add_crystals [c] (advance 5 w)) w.
Proof.
  intros He. pose proof crystal_margin_x. pose proof crystal_margin_y.
  unfold spawnCrystal.
  wp_draw; [apply crystalTypes_nonempty|]. wp_draw. cbv zeta.
  wp_draw. wp_draw.
  match goal with |- wp (browser (Crystal.new ?x ?y ?ty) ≫= _) _ ?w0 =>
    destruct (Crystal_new_run x y ty (env w0)) as (c & Hrun & Hx & Hy & Hty & Ht)
  end.
  eapply wp_browser_bind; [exact Hrun|].
  exists c. rewrite Hx, Hy, Hty. split_and!; try done; lra.
Qed.

(** A point just outside one of the four edges of the playfield, for an
    asteroid of the given size. *)
Definition on_edge (size x y : Q) : Prop :=
  (x = - size - 20 /\ 0 <= y /\ y < height cfg) \/
  (x = width cfg + size + 20 /\ 0 <= y /\ y < height cfg) \/
  (0 <= x /\ x < width cfg /\ y = - size - 20) \/
  (0 <= x /\ x < width cfg /\ y = height cfg + size + 20).

Lemma place_on_edge_spec size edge (e : Env) :
  Env_ok e -> (0 <= edge < 4)%Z ->
  exists x y, place_on_edge cfg size edge e = Ok (Some (x, y)) (skip_random 1 e) /\
              on_edge size x y.
Proof.
  intros He Hedge. pose proof (width_pos cfg). pose proof (height_pos cfg).
  destruct (random_range e He (random_pos e)) as [Hr0 Hr1].
  pose proof (scale_range _ 0 (width cfg) Hr0 Hr1).
  pose proof (scale_range _ 0 (height cfg) Hr0 Hr1).
  assert (edge = 0 \/ edge = 1 \/ edge = 2 \/ edge = 3)%Z
    as [-> | [-> | [-> | ->] ] ] by lia;
    do 2 eexists; (split; [comp_run; reflexivity|]); unfold on_edge; tauto.
Qed.

Lemma on_edge_in_band size x y : 0 <= size -> on_edge size x y ->
  (- size - 20 <= x /\ x <= width cfg + size + 20) /\
  (- size - 20 <= y /\ y <= height cfg + size + 20).
Proof.
  intros Hs. pose proof (width_pos cfg). pose proof (height_pos cfg).
  intros [(-> & ? & ?) | [(-> & ? & ?) | [(? & ? & ->) | (? & ? & ->)] ] ]; lra.
Qed.

(** The velocity of a new asteroid: a unit direction times a speed within
    0.3 of the base speed plus 0.1 per level. *)
Lemma velocity_bound (c base r lvl : Q) :
  -1 <= c /\ c <= 1 -> 0 <= base -> -0.3 <= r -> r < 0.3 -> 0 <= lvl ->
  Qabs (c * (base + r + lvl)) <= base + 0.3 + lvl.
Proof. intros [? ?] ? ? ? ?. apply Qabs_bound; nra. Qed.

(** What [launch_asteroid] gives an asteroid of type [t] at level [level]. *)
Definition launched (t : AsteroidType) (level : Z) (a : Asteroid.obj) : Prop :=
  Asteroid.size a = at_size t /\
  Asteroid.hp a = Qceiling (at_size t / 30) /\
  ((0 <= level)%Z ->
   Qabs (Asteroid.vx a) <= at_speed t + 0.3 + inject_Z level * 0.1 /\
   Qabs (Asteroid.vy a) <= at_speed t + 0.3 + inject_Z level * 0.1).

Lemma launch_asteroid_spec t x y w :
  Env_ok (env w) -> t ∈ asteroidTypes cfg ->
  wp (launch_asteroid cfg t x y)
     (fun _ w' => exists a, Asteroid.x a = x /\ Asteroid.y a = y /\
                            launched t (State.level (STATE w)) a /\
                            w' = add_asteroids [a] (advance 8 w)) w.
Proof.
  intros He Ht. unfold launch_asteroid. repeat wp_draw.
  match goal with |- wp (browser (Asteroid.new ?a1 ?a2 ?a3 ?a4 ?a5 ?a6) ≫= _) _ ?w0 =>
    destruct (Asteroid_new_run a1 a2 a3 a4 a5 a6 (env w0))
      as (a & Hnew & Hx & Hy & Hvx & Hvy & Hsz & _ & Hhp)
  end.
  eapply wp_browser_bind; [exact Hnew|].
  exists a. split_and!; [done..| |reflexivity].
  unfold launched. rewrite Hvx, Hvy, Hsz, Hhp. split_and!; [done..|]. intros Hlvl.
  apply (proj1 (Forall_forall _ _) asteroid_sizes) in Ht as [_ Hsp].
  assert (0 <= inject_Z (State.level (STATE w)) * 0.1) as Hl
    by (apply Qmult_le_0_compat; [now apply inject_Z_nonneg|done]).
  split; apply velocity_bound; auto using Math_cos_range, Math_sin_range.
Qed.

(** An asteroid as [spawnAsteroid] creates it at level [level]. *)
Definition fresh_asteroid (offscreen : bool) (level : Z) (a : Asteroid.obj) : Prop :=
  (exists t, t ∈ asteroidTypes cfg /\ launched t level a) /\
  (if offscreen then on_edge (Asteroid.size a) (Asteroid.x a) (Asteroid.y a)
   else (0 <= Asteroid.x a /\ Asteroid.x a < width cfg) /\
        (0 <= Asteroid.y a /\ Asteroid.y a < height cfg * 0.5)).

(** [spawnAsteroid(offscreen)] does not throw; it appends one asteroid
    whose size is that of an entry of the table, placed just outside an edge
    (or in the upper half of the playfield when [offscreen] is false), with a
    velocity bounded by the base speed plus 0.3 plus 0.1 per level; it
    consumes 11 draws and changes nothing else. *)
Lemma spawnAsteroid_spec offscreen w :
  Env_ok (env w) ->
  wp (spawnAsteroid cfg offscreen)
     (fun _ w' => exists a, fresh_asteroid offscreen (State.level (STATE w)) a /\
                            w' = add_asteroids [a] (advance 11 w)) w.
Proof.
  intros He. pose proof (width_pos cfg). pose proof (height_pos cfg).
  unfold spawnAsteroid.
  wp_draw; [apply asteroidTypes_nonempty|]. rename x into t. wp_draw.
  apply wp_bind.
  assert (forall x y w0, Env_ok (env w0) -> advance 8 w0 = advance 11 w ->
            STATE w0 = STATE w ->
            (if offscreen then on_edge (at_size t) x y
             else (0 <= x /\ x < width cfg) /\ (0 <= y /\ y < height cfg * 0.5)) ->
            wp (mret (x, y) ≫= (fun '(x, y) => launch_asteroid cfg t x y))
               (fun _ w' => exists a, fresh_asteroid offscreen (State.level (STATE w)) a /\
                                      w' = add_asteroids [a] (advance 11 w)) w0) as Hk.
  { intros x y w0 He0 Hw0 HS Hpos. apply wp_bind, wp_ret.
    eapply wp_mono; [now apply launch_asteroid_spec|].
    intros _ w' (a & Hx & Hy & Hl & ->). exists a.
    rewrite Hw0, <- HS. split; [|done].
    split; [eauto|]. destruct Hl as (-> & _). now rewrite Hx, Hy. }
  destruct offscreen.
  - wp_draw.
    destruct (place_on_edge_spec (at_size t) (Qfloor r) (env (advance 1 (advance 1 w))))
      as (x & y & Hrun & Hxy); [done|now apply Qfloor_bounds|].
    eapply wp_ok; [apply browser_run, Hrun|].
    apply Hk; auto using advance_env_ok.
    now apply (advance_env_ok 1).
  - wp_draw. wp_draw. apply wp_ret.
    apply Hk; auto using advance_env_ok.
Qed.

(** [n] calls of [spawnAsteroid] in a row do not throw and append [n]
    asteroids, each as [spawnAsteroid] creates it; they consume [11 * n]
    draws and change nothing else. *)
Lemma spawn_asteroids_spec (n : nat) offscreen w :
  Env_ok (env w) ->
  wp (repeatM n (spawnAsteroid cfg offscreen))
     (fun _ w' => exists l, length l = n /\
        Forall (fresh_asteroid offscreen (State.level (STATE w))) l /\
        w' = add_asteroids l (advance (11 * n) w)) w.
Proof.
  intros He.
  apply (wp_repeatM (fun i w' => exists l, length l = i /\
           Forall (fresh_asteroid offscreen (State.level (STATE w))) l /\
           w' = add_asteroids l (advance (11 * i) w))).
  - exists []. split_and!; [done|constructor|].
    now rewrite add_asteroids_nil, advance_0.
  - intros i w' _ (l & Hlen & Hl & ->).
    eapply wp_mono; [apply spawnAsteroid_spec; now apply advance_env_ok|].
    intros _ w'' (a & Ha & ->). exists (l ++ [a]). split_and!.
    + rewrite length_app, Hlen. simpl. lia.
    + apply Forall_app; split; [done|]. now constructor.
    + rewrite advance_add_asteroids, add_asteroids_app, advance_add.
      do 2 f_equal. lia.
Qed.
(** ** What the spawners add to the game *)

(** C38: [spawnAsteroid(true)] does not throw; it appends one asteroid, of
    the size of an entry of the table, just outside one of the four edges
    and therefore within the band of the wrap-around, with a velocity of at
    most the base speed plus 0.3 plus 0.1 per level along each axis; the
    ship, the crystals, the particles and [STATE] are unchanged. *)
Theorem spawnAsteroid_offscreen w :
  Env_ok (env w) -> (0 <= State.level (STATE w))%Z ->
  wp (spawnAsteroid cfg true)
     (fun _ w' => exists a t,
        Entities.asteroids (entities w') = Entities.asteroids (entities w) ++ [a] /\
        t ∈ asteroidTypes cfg /\ Asteroid.size a = at_size t /\
        on_edge (Asteroid.size a) (Asteroid.x a) (Asteroid.y a) /\
        Asteroid.in_band cfg a /\
        Qabs (Asteroid.vx a) <= at_speed t + 0.3 + inject_Z (State.level (STATE w)) * 0.1 /\
        Qabs (Asteroid.vy a) <= at_speed t + 0.3 + inject_Z (State.level (STATE w)) * 0.1 /\
        STATE w' = STATE w /\
        Entities.ship (entities w') = Entities.ship (entities w) /\
        Entities.crystals (entities w') = Entities.crystals (entities w) /\
        Entities.particles (entities w') = Entities.particles (entities w)) w.
Proof.
  intros He Hlvl. eapply wp_mono; [now apply spawnAsteroid_spec|].
  intros [] w' (a & [(t & Ht & Hsz & _ & Hv) Hedge] & ->). exists a, t.
  pose proof (asteroidType_size_pos cfg t Ht). destruct (Hv Hlvl) as [Hvx Hvy].
  split_and!; try done. unfold Asteroid.in_band. apply on_edge_in_band; [|done].
  rewrite Hsz. lra.
Qed.

(** [spawnExplosion(x, y, color)] does not throw; it appends 30
    particles at [(x, y)], of age 0 and a life span in [[28, 48)], hence not
    dead, moving by at most 4 along each axis; [STATE] and the other
    entities are unchanged. *)
Theorem spawnExplosion_particles x y color w :
  Env_ok (env w) ->
  wp (spawnExplosion x y color)
     (fun _ w' => exists ps,
        Entities.particles (entities w') = Entities.particles (entities w) ++ ps /\
        length ps = 30%nat /\
        Forall (fun p => Particle.x p = x /\ Particle.y p = y /\ Particle.t p = 0%Z /\
                         28 <= Particle.life p < 48 /\ Particle.dead p = false /\
                         Qabs (Particle.vx p) <= 4 /\ Qabs (Particle.vy p) <= 4) ps /\
        STATE w' = STATE w /\
        Entities.asteroids (entities w') = Entities.asteroids (entities w)) w.
Proof.
  intros He. eapply wp_mono; [now apply spawnExplosion_spec|].
  intros [] w' (ps & Hlen & Hps & ->). exists ps. split_and!; try done.
  eapply Forall_impl; [exact Hps|]. intros p (? & ? & _ & Ht & [? ?] & ? & ?).
  split_and!; try done. apply Bool.not_true_iff_false.
  rewrite Particle_dead_spec, Ht. change (inject_Z 0) with 0. lra.
Qed.

(** C39: [spawnCrystal()] does not throw; it appends one crystal of age 0
    whose type is an entry of the table, at least 40 from the left, the
    right and the top edge and 80 from the bottom edge of the playfield;
    [STATE], the ship, the asteroids and the particles are unchanged. *)
Theorem spawnCrystal_inside w :
  Env_ok (env w) ->
  wp (spawnCrystal cfg)
     (fun _ w' => exists c,
        Entities.crystals (entities w') = Entities.crystals (entities w) ++ [c] /\
        Crystal.type c ∈ crystalTypes cfg /\ Crystal.t c = 0%Z /\
        (40 <= Crystal.x c /\ Crystal.x c < width cfg - 40) /\
        (40 <= Crystal.y c /\ Crystal.y c < height cfg - 80) /\
        STATE w' = STATE w /\
        Entities.ship (entities w') = Entities.ship (entities w) /\
        Entities.asteroids (entities w') = Entities.asteroids (entities w) /\
        Entities.particles (entities w') = Entities.particles (entities w)) w.
Proof.
  intros He. eapply wp_mono; [now apply spawnCrystal_spec|].
  intros [] w' (c & ? & ? & ? & ? & ->). exists c. now split_and!.
Qed.
End spawner_facts.
