(* ===== verification/Flow.v ===== *)
(** * Flow: the game state machine

    [updateHUD] ([game.js] lines 375-385), [reset] (79-97), [start],
    [togglePause], [gameOver], [restart] (388-409) and the method [Ship.hit]
    (172-185), which is here and not in [Entities] because it writes to
    [STATE], spawns an explosion and may end the game.

    The four states of the game are read from the flags of [STATE]:
    menu (neither [running] nor [over]), running, paused ([running] and
    [paused]) and game over.

    Theorems: what each operation does to the flags, the counters, the ship
    and the page, on every branch; that [togglePause] does nothing in the
    menu and after the game is over; that a hit is ignored while the ship is
    invulnerable, costs one life otherwise and ends the game at the last
    one. *)

From stdpp Require Import gmap strings pretty.
From S2P Require Import Prelude Browser Config Geometry Entities World Spawner.

Section flow.
Context (cfg : Config) `{MathLib}.

(** The class of the [i]-th heart: ["heart" + (i < STATE.lives ? "" : " empty")]. *)
Definition heart (lives i : Z) : string :=
  "heart" +:+ (if bool_decide (i < lives)%Z then "" else " empty").

(** [function updateHUD()] *)
Definition updateHUD : M unit :=
  score ← getS State.score;
  modD (Dom.set_hudScore ("Score: " +:+ pretty score));;
  level ← getS State.level;
  modD (Dom.set_hudLevel ("Level: " +:+ pretty level));;
  modD (Dom.set_hudLives []);;
  for_each (seqZ 0 (initialLives cfg)) (fun i =>
    lives ← getS State.lives;
    modD (fun d => Dom.set_hudLives (Dom.hudLives d ++ [heart lives i]) d)).

(** [function reset()] *)
Definition reset : M unit :=
  modS (State.set_running false);;
  modS (State.set_paused false);;
  modS (State.set_over false);;
  modS (State.set_score 0);;
  modS (State.set_lives (initialLives cfg));;
  modS (State.set_level 1);;
  modS (State.set_tick 0);;
  modS (State.set_lastCrystalMs 0);;
  modS (State.set_lastDifficultyMs 0);;
  modE (Entities.set_asteroids []);;
  modE (Entities.set_crystals []);;
  modE (Entities.set_particles []);;
  modE (Entities.set_ship (Some (Ship.new cfg (width cfg / 2) (height cfg * 0.75))));;
  repeatM (Z.to_nat (initialAsteroids cfg)) (spawnAsteroid cfg true);;
  updateHUD.

(** [function start()] *)
Definition start : M unit :=
  modD (Dom.set_menuVisible false);;
  modS (State.set_running true);;
  modS (State.set_paused false);;
  modS (State.set_over false).

(** [function togglePause()] *)
Definition togglePause : M unit :=
  running ← getS State.running;
  over ← getS State.over;
  if negb running || over then mret tt
  else
    modS (fun s => State.set_paused (negb (State.paused s)) s);;
    paused ← getS State.paused;
    modD (Dom.set_pauseVisible paused).

(** [function gameOver()] *)
Definition gameOver : M unit :=
  modS (State.set_over true);;
  modS (State.set_running false);;
  score ← getS State.score;
  modD (Dom.set_finalScore ("Final Score: " +:+ pretty score));;
  modD (Dom.set_gameoverVisible true).

(** [function restart()] *)
Definition restart : M unit :=
  modD (Dom.set_gameoverVisible false);;
  reset;;
  start.

(** The method [hit()] of [Ship], called on [entities.ship]. *)
Definition Ship_hit : M unit :=
  this ← getE Entities.ship;
  this ← unwrap this;
  if bool_decide (0 < Ship.inv this)%Z then mret tt
  else
    modS (fun s => State.set_lives (State.lives s - 1) s);;
    spawnExplosion (Ship.x this) (Ship.y this) "#ff5f7a";;
    lives ← getS State.lives;
    (if bool_decide (lives <= 0)%Z then gameOver
     else
       modE (Entities.set_ship (Some
         {| Ship.x := width cfg / 2;
            Ship.y := height cfg * 0.75;
            Ship.size := Ship.size this;
            Ship.speed := Ship.speed this;
            Ship.inv := ship_invFrames (ship cfg);
            Ship.blink := Ship.blink this |})));;
    updateHUD.
End flow.

#[export] Hint Unfold start togglePause gameOver : comp.

(** ** The states of the game *)

Inductive Phase : Set := Menu | Running | Paused | GameOver.

(** The state the flags of [STATE] stand for. *)
Definition phase (s : State.t) : Phase :=
  if State.over s then GameOver
  else if State.running s then (if State.paused s then Paused else Running)
  else Menu.

#[export] Instance Phase_eq_dec : EqDecision Phase.
Proof. solve_decision. Defined.

(** ** The HUD *)

Section hud.
Context (cfg : Config) `{MathLib}.
Implicit Types (w : World) (s : State.t) (d : Dom.t).

(** The page after [updateHUD] has run in state [s]. *)
Definition hud s d : Dom.t :=
  Dom.set_hudLives (heart (State.lives s) <$> seqZ 0 (initialLives cfg))
    (Dom.set_hudLevel ("Level: " +:+ pretty (State.level s))
       (Dom.set_hudScore ("Score: " +:+ pretty (State.score s)) d)).

(** The HUD shows the score, the level and the lives of [STATE]. *)
Definition hud_synced w : Prop :=
  Dom.hudScore (dom w) = "Score: " +:+ pretty (State.score (STATE w)) /\
  Dom.hudLevel (dom w) = "Level: " +:+ pretty (State.level (STATE w)) /\
  Dom.hudLives (dom w) = heart (State.lives (STATE w)) <$> seqZ 0 (initialLives cfg).

Lemma hearts_loop_run (l : list Z) w :
  for_each l (fun i =>
    lives ← getS State.lives;
    modD (fun d => Dom.set_hudLives (Dom.hudLives d ++ [heart lives i]) d)) w
  = Ok tt (set_dom (Dom.set_hudLives
                      (Dom.hudLives (dom w) ++ (heart (State.lives (STATE w)) <$> l))
                      (dom w)) w).
Proof.
  revert w. induction l as [|i l IH]; intros w.
  - cbn. rewrite app_nil_r. now destruct w as [? ? ? ? ? [] ?].
  - cbn [for_each]. unfold bind at 1. comp_run. rewrite IH. cbn.
    now rewrite <- app_assoc.
Qed.

Lemma updateHUD_run w : updateHUD cfg w = Ok tt (set_dom (hud (STATE w) (dom w)) w).
Proof. unfold updateHUD. comp_run. now rewrite hearts_loop_run. Qed.

Lemma hud_hud s1 s2 d : hud s2 (hud s1 d) = hud s2 d.
Proof. reflexivity. Qed.

(** The HUD depends on the score, the level and the lives only. *)
Lemma hud_ext s s' d :
  State.score s = State.score s' -> State.level s = State.level s' ->
  State.lives s = State.lives s' -> hud s d = hud s' d.
Proof. unfold hud. now intros -> -> ->. Qed.

Lemma hud_synced_hud w s : STATE w = s -> hud_synced (set_dom (hud s (dom w)) w).
Proof. intros <-. now unfold hud_synced. Qed.

(** [updateHUD()] does not throw; afterwards the HUD shows the score,
    the level and one heart per initial life, full for the lives that are
    left; nothing but the HUD changes. *)
Theorem updateHUD_spec w :
  exists d, updateHUD cfg w = Ok tt (set_dom d w) /\
            hud_synced (set_dom d w) /\
            Dom.finalScore d = Dom.finalScore (dom w) /\
            Dom.menuVisible d = Dom.menuVisible (dom w) /\
            Dom.pauseVisible d = Dom.pauseVisible (dom w) /\
            Dom.gameoverVisible d = Dom.gameoverVisible (dom w).
Proof.
  exists (hud (STATE w) (dom w)). split; [apply updateHUD_run|].
  split; [now apply hud_synced_hud|done].
Qed.

End hud.

(** ** The operations of the state machine *)

Section flow_facts.
Context (cfg : Config) `{!Config_ok cfg} `{MathLib}.
Implicit Types (w : World) (s : Ship.obj).

Lemma start_run w :
  start w = Ok tt
    (set_STATE (State.set_over false (State.set_paused false
                 (State.set_running true (STATE w))))
       (set_dom (Dom.set_menuVisible false (dom w)) w)).
Proof. reflexivity. Qed.

Lemma gameOver_run w :
  gameOver w = Ok tt
    (set_dom (Dom.set_gameoverVisible true
                (Dom.set_finalScore ("Final Score: " +:+ pretty (State.score (STATE w)))
                   (dom w)))
       (set_STATE (State.set_running false (State.set_over true (STATE w))) w)).
Proof. reflexivity. Qed.

Lemma togglePause_run w :
  togglePause w =
  if negb (State.running (STATE w)) || State.over (STATE w) then Ok tt w
  else Ok tt
    (set_dom (Dom.set_pauseVisible (negb (State.paused (STATE w))) (dom w))
       (set_STATE (State.set_paused (negb (State.paused (STATE w))) (STATE w)) w)).
Proof. comp_run. now destruct (_ || _). Qed.

(** [start()] puts the game in the running state and hides the menu;
    it touches neither the counters nor the entities. *)
Theorem start_spec w :
  exists w', start w = Ok tt w' /\
    phase (STATE w') = Running /\
    Dom.menuVisible (dom w') = false /\
    entities w' = entities w /\
    State.score (STATE w') = State.score (STATE w) /\
    State.lives (STATE w') = State.lives (STATE w) /\
    State.level (STATE w') = State.level (STATE w).
Proof. eexists. split; [apply start_run|]. now cbn. Qed.

(** [togglePause()] in the menu or after the game is over returns at
    once: the world is unchanged. *)
Theorem togglePause_noop w :
  phase (STATE w) = Menu \/ phase (STATE w) = GameOver -> togglePause w = Ok tt w.
Proof.
  rewrite togglePause_run. unfold phase.
  destruct (State.over (STATE w)), (State.running (STATE w)), (State.paused (STATE w));
    cbn; intros [?|?]; congruence.
Qed.

(** [togglePause()] while the game runs pauses it, and resumes it when
    it is paused; the pause overlay is shown exactly when the game is paused
    afterwards. *)
Theorem togglePause_toggle w :
  phase (STATE w) = Running \/ phase (STATE w) = Paused ->
  exists w', togglePause w = Ok tt w' /\
    phase (STATE w') = (if State.paused (STATE w) then Running else Paused) /\
    Dom.pauseVisible (dom w') = State.paused (STATE w') /\
    State.paused (STATE w') = negb (State.paused (STATE w)) /\
    entities w' = entities w /\ env w' = env w.
Proof.
  rewrite togglePause_run. unfold phase.
  destruct (State.over (STATE w)) eqn:Ho, (State.running (STATE w)) eqn:Hr,
    (State.paused (STATE w)) eqn:Hp; cbn; intros [?|?]; try congruence;
    eexists; (split; [reflexivity|]); cbn; now rewrite Ho, Hr.
Qed.

(** C33: pausing and resuming gives the world back: two calls of
    [togglePause] in a game that is running and not over leave every global
    and the page as they were, when the pause overlay was in step with the
    flag. *)
Theorem togglePause_twice w :
  State.running (STATE w) = true -> State.over (STATE w) = false ->
  Dom.pauseVisible (dom w) = State.paused (STATE w) ->
  (togglePause ;; togglePause) w = Ok tt w.
Proof.
  intros Hr Ho Hv. change ((togglePause ;; togglePause) w)
    with (match togglePause w with Ok _ w' => togglePause w' | Throw e => Throw e end).
  rewrite togglePause_run, Hr, Ho. cbn. rewrite togglePause_run. cbn.
  rewrite Hr, Ho. cbn. rewrite Bool.negb_involutive.
  destruct w as [[] ? ? ? ? [] ?]; cbn in *. now subst.
Qed.

(** [gameOver()] puts the game in the game-over state, writes the
    current score in the final-score text and shows the game-over overlay. *)
Theorem gameOver_spec w :
  exists w', gameOver w = Ok tt w' /\
    phase (STATE w') = GameOver /\ State.running (STATE w') = false /\
    Dom.finalScore (dom w') = "Final Score: " +:+ pretty (State.score (STATE w)) /\
    Dom.gameoverVisible (dom w') = true /\
    State.score (STATE w') = State.score (STATE w) /\
    State.lives (STATE w') = State.lives (STATE w) /\
    entities w' = entities w.
Proof. eexists. split; [apply gameOver_run|]. now cbn. Qed.

(** *** [reset] *)

(** The world after [reset()], given the asteroids it spawned. *)
Definition reset_world (l : list Asteroid.obj) w : World :=
  {| STATE := State.init cfg;
     entities :=
       {| Entities.ship := Some (Ship.new cfg (width cfg / 2) (height cfg * 0.75));
          Entities.asteroids := l;
          Entities.crystals := [];
          Entities.particles := [] |};
     keys := keys w;
     mouse := mouse w;
     lastTime := lastTime w;
     dom := hud cfg (State.init cfg) (dom w);
     env := skip_random (11 * Z.to_nat (initialAsteroids cfg)) (env w) |}.

(** [reset()] leaves the world [reset_world l w], for [initialAsteroids]
    asteroids [l] spawned on the edges. *)
Lemma reset_spec w :
  Env_ok (env w) ->
  wp (reset cfg)
     (fun _ w' => exists l,
        length l = Z.to_nat (initialAsteroids cfg) /\
        Forall (fresh_asteroid cfg true 1) l /\
        w' = reset_world l w) w.
Proof.
  intros He. unfold reset.
  do 13 (apply wp_bind; first [apply wp_modify]).
  apply wp_bind.
  eapply wp_mono; [apply spawn_asteroids_spec; [done|exact He]|].
  intros _ w' (l & Hlen & Hl & ->).
  eapply wp_ok; [apply updateHUD_run|]. exists l. split_and!; [done..|reflexivity].
Qed.

(** C34: [reset()] does not throw; it sets [STATE] to its initial value
    (not running, not paused, not over, score 0, full lives, level 1, tick 0,
    timers at 0), empties the crystals and the particles, creates the ship at
    the start position with no invulnerability, spawns [initialAsteroids]
    asteroids on the edges and refreshes the HUD; the keys and the overlays
    are untouched. *)
Theorem reset_state w :
  Env_ok (env w) ->
  wp (reset cfg)
     (fun _ w' =>
        STATE w' = State.init cfg /\
        Entities.ship (entities w') = Some (Ship.new cfg (width cfg / 2) (height cfg * 0.75)) /\
        length (Entities.asteroids (entities w')) = Z.to_nat (initialAsteroids cfg) /\
        Forall (fun a => on_edge cfg (Asteroid.size a) (Asteroid.x a) (Asteroid.y a))
          (Entities.asteroids (entities w')) /\
        Entities.crystals (entities w') = [] /\ Entities.particles (entities w') = [] /\
        hud_synced cfg w' /\ keys w' = keys w /\
        Dom.menuVisible (dom w') = Dom.menuVisible (dom w) /\
        Dom.pauseVisible (dom w') = Dom.pauseVisible (dom w) /\
        Dom.gameoverVisible (dom w') = Dom.gameoverVisible (dom w)) w.
Proof.
  intros He. eapply wp_mono; [now apply reset_spec|].
  intros [] w' (l & Hlen & Hl & ->). cbn. split_and!; try done.
  eapply Forall_impl; [exact Hl|]. now intros a [_ ?].
Qed.

Lemma ship_start_wf : Ship.wf cfg (Ship.new cfg (width cfg / 2) (height cfg * 0.75)).
Proof. apply new_wf; [done|apply ship_start_x; done|apply ship_start_y; done]. Qed.

(** *** [Ship.hit] *)

(** The ship after a hit that does not end the game. *)
Definition respawn s : Ship.obj :=
  {| Ship.x := width cfg / 2; Ship.y := height cfg * 0.75;
     Ship.size := Ship.size s; Ship.speed := Ship.speed s;
     Ship.inv := ship_invFrames (ship cfg); Ship.blink := Ship.blink s |}.

(** The world after a hit on a vulnerable ship [s], given the particles of
    the explosion: on the last life the game is over, otherwise the ship is
    sent back to the start position. *)
Definition hit_world s (ps : list Particle.obj) w : World :=
  let st1 := State.set_lives (State.lives (STATE w) - 1) (STATE w) in
  let last := bool_decide (State.lives st1 <= 0)%Z in
  let st2 := if last then State.set_running false (State.set_over true st1) else st1 in
  let d1 :=
    if last then
      Dom.set_gameoverVisible true
        (Dom.set_finalScore ("Final Score: " +:+ pretty (State.score st1)) (dom w))
    else dom w in
  {| STATE := st2;
     entities :=
       {| Entities.ship := Some (if last then s else respawn s);
          Entities.asteroids := Entities.asteroids (entities w);
          Entities.crystals := Entities.crystals (entities w);
          Entities.particles := Entities.particles (entities w) ++ ps |};
     keys := keys w;
     mouse := mouse w;
     lastTime := lastTime w;
     dom := hud cfg st2 d1;
     env := skip_random 120 (env w) |}.

(** [Ship.hit()] while the invulnerability counter is positive returns at
    once. *)
Lemma Ship_hit_skip w s :
  Entities.ship (entities w) = Some s -> (0 < Ship.inv s)%Z ->
  Ship_hit cfg w = Ok tt w.
Proof.
  intros Hs Hinv. unfold Ship_hit. comp_run. rewrite Hs. cbn.
  now rewrite bool_decide_eq_true_2.
Qed.

(** C13: [Ship.hit()] while the invulnerability counter is positive does
    not throw and changes nothing: the lives, the ship with its position and
    its counter, the flags and the particles are as they were. *)
Theorem Ship_hit_invulnerable w s :
  Entities.ship (entities w) = Some s -> (0 < Ship.inv s)%Z ->
  wp (Ship_hit cfg)
     (fun _ w' =>
        State.lives (STATE w') = State.lives (STATE w) /\
        Entities.ship (entities w') = Some s /\
        phase (STATE w') = phase (STATE w) /\
        Entities.particles (entities w') = Entities.particles (entities w) /\
        w' = w) w.
Proof. intros Hs Hinv. unfold wp. now rewrite (Ship_hit_skip w s). Qed.

(** [Ship.hit()] before [reset] has created the ship raises a TypeError. *)
Lemma Ship_hit_null w :
  Entities.ship (entities w) = None -> Ship_hit cfg w = Throw TypeError.
Proof. intros Hs. unfold Ship_hit. comp_run. now rewrite Hs. Qed.

(** [Ship.hit()] on a vulnerable ship leaves the world [hit_world s ps w],
    [ps] being the 30 particles of the explosion. *)
Lemma Ship_hit_spec w s :
  Env_ok (env w) ->
  Entities.ship (entities w) = Some s -> (Ship.inv s <= 0)%Z ->
  wp (Ship_hit cfg)
     (fun _ w' => exists ps,
        length ps = 30%nat /\
        Forall (fresh_particle (Ship.x s) (Ship.y s) "#ff5f7a" 28 48 4) ps /\
        w' = hit_world s ps w) w.
Proof.
  intros He Hs Hinv. unfold Ship_hit.
  wp_draw. rewrite Hs. wp_draw. rewrite bool_decide_eq_false_2 by lia.
  apply wp_bind, wp_modify. apply wp_bind.
  eapply wp_mono; [apply spawnExplosion_spec; exact He|].
  intros _ w' (ps & Hlen & Hps & ->).
  wp_draw. cbn. apply wp_bind. unfold hit_world. cbn.
  destruct (bool_decide (State.lives (STATE w) - 1 <= 0)%Z).
  - eapply wp_ok; [apply gameOver_run|].
    eapply wp_ok; [apply updateHUD_run|].
    exists ps. split_and!; [done..|]. destruct w as [? [] ? ? ? ? ?]; cbn in *. now subst.
  - apply wp_modify.
    eapply wp_ok; [apply updateHUD_run|].
    exists ps. split_and!; [done..|]. reflexivity.
Qed.

(** C11: [Ship.hit()] on a vulnerable ship with one life left sets the
    lives to 0 and ends the game: the state is game over, the game-over
    overlay is shown and the final-score text is the score at that moment. *)
Theorem Ship_hit_last_life w s :
  Env_ok (env w) ->
  Entities.ship (entities w) = Some s -> (Ship.inv s <= 0)%Z ->
  State.lives (STATE w) = 1%Z ->
  wp (Ship_hit cfg)
     (fun _ w' =>
        State.lives (STATE w') = 0%Z /\ phase (STATE w') = GameOver /\
        State.running (STATE w') = false /\
        Dom.gameoverVisible (dom w') = true /\
        Dom.finalScore (dom w') = "Final Score: " +:+ pretty (State.score (STATE w)) /\
        Entities.ship (entities w') = Some s) w.
Proof.
  intros He Hs Hinv Hl. eapply wp_mono; [eapply Ship_hit_spec; eassumption|].
  intros _ w' (ps & _ & _ & ->). unfold hit_world. cbn. rewrite Hl. now cbn.
Qed.

(** C12: [Ship.hit()] on a vulnerable ship with more than one life takes
    one life, leaves the score, the phase and the flags [running], [paused]
    and [over] alone and puts the ship at the start position
    [(width/2, height*0.75)] with [invFrames] frames of invulnerability. *)
Theorem Ship_hit_respawn w s :
  Env_ok (env w) ->
  Entities.ship (entities w) = Some s -> (Ship.inv s <= 0)%Z ->
  (1 < State.lives (STATE w))%Z ->
  wp (Ship_hit cfg)
     (fun _ w' =>
        State.lives (STATE w') = (State.lives (STATE w) - 1)%Z /\
        phase (STATE w') = phase (STATE w) /\
        State.score (STATE w') = State.score (STATE w) /\
        Entities.ship (entities w') = Some (respawn s) /\
        Ship.inv (respawn s) = ship_invFrames (ship cfg) /\
        Ship.x (respawn s) = width cfg / 2 /\
        Ship.y (respawn s) = height cfg * 0.75 /\
        State.running (STATE w') = State.running (STATE w) /\
        State.paused (STATE w') = State.paused (STATE w) /\
        State.over (STATE w') = State.over (STATE w)) w.
Proof.
  intros He Hs Hinv Hl. eapply wp_mono; [eapply Ship_hit_spec; eassumption|].
  intros _ w' (ps & _ & _ & ->). unfold hit_world. cbn.
  now rewrite bool_decide_eq_false_2 by lia.
Qed.

Lemma respawn_wf s : Ship.wf cfg s -> Ship.wf cfg (respawn s).
Proof.
  intros [Hsz Hsp _ _ _ Hbl]. pose proof invFrames_pos.
  split; cbn; [done..| | |lia|done]; rewrite Hsz.
  - now apply ship_start_x.
  - now apply ship_start_y.
Qed.

(** [restart()] does not throw; it hides the game-over overlay and the
    menu, resets the game as [reset] does and starts it: the state is
    running with score 0, full lives and level 1. *)
Theorem restart_spec w :
  Env_ok (env w) ->
  wp (restart cfg)
     (fun _ w' => exists l,
        length l = Z.to_nat (initialAsteroids cfg) /\
        Forall (fresh_asteroid cfg true 1) l /\
        w' = exec start (reset_world l (set_dom (Dom.set_gameoverVisible false (dom w)) w)) /\
        phase (STATE w') = Running /\
        Dom.gameoverVisible (dom w') = false /\ Dom.menuVisible (dom w') = false) w.
Proof.
  intros He. unfold restart. apply wp_bind, wp_modify. apply wp_bind.
  eapply wp_mono; [now apply reset_spec|].
  intros _ w' (l & Hlen & Hl & ->).
  eapply wp_ok; [apply start_run|]. exists l. now split_and!.
Qed.
End flow_facts.
