(* ===== verification/Invariant.v ===== *)
(** * Invariant: what holds of the world between two events

    [Sim_ok] collects the facts the simulation keeps once [reset] has run:
    the ship exists and is inside the playfield, the asteroids are within
    their wrap-around band, the crystals carry a type of the table, no
    particle is dead, the flags of [STATE] agree with one another and with
    the lives, the counters are in range and the HUD shows them.

    [asteroids_slow] is a second invariant, kept apart from [Sim_ok]: every
    asteroid has the size of a type of the table and is no faster than the
    base speed of this type plus 0.3 plus 0.1 per level.

    This file proves that the elementary changes of the world keep the
    invariant and that the operations of [Flow] establish or keep it;
    [Step] and [Machine] extend this to the simulation step and to every
    event. *)

From stdpp Require Import gmap strings pretty.
From S2P Require Import Prelude Browser Config Geometry Entities World Spawner Flow.

Section sim.
Context (cfg : Config) `{!Config_ok cfg} `{MathLib}.
Implicit Types (w : World) (s : State.t).

(** The flags and the lives agree: a paused game is running, a game that is
    over is not running and has no life left, a game that is not over has a
    life. *)
Record flags_ok s : Prop := {
  paused_running : State.paused s = true -> State.running s = true;
  over_stopped : State.over s = true -> State.running s = false;
  over_no_life : State.over s = true -> State.lives s = 0%Z;
  playing_alive : State.over s = false -> (1 <= State.lives s)%Z;
}.

Lemma running_alive s : flags_ok s -> State.running s = true -> (1 <= State.lives s)%Z.
Proof.
  intros [_ Ho _ Ha] Hr. apply Ha. destruct (State.over s); [|done].
  specialize (Ho eq_refl). congruence.
Qed.

Definition asteroid_ok (a : Asteroid.obj) : Prop :=
  0 < Asteroid.size a /\ Asteroid.in_band cfg a.

(** The speed [spawnAsteroid] gives an asteroid of type [t] at a level, at
    the most: the base speed of the type, 0.3 of jitter and 0.1 per
    level. *)
Definition speed_limit (t : AsteroidType) (level : Z) : Q :=
  at_speed t + 0.3 + inject_Z level * 0.1.

(** An asteroid has the size of a type of the table and is, along each
    axis, no faster than an asteroid of this type spawned at the level. *)
Definition asteroid_slow (level : Z) (a : Asteroid.obj) : Prop :=
  exists t, t ∈ asteroidTypes cfg /\ Asteroid.size a = at_size t /\
    Qabs (Asteroid.vx a) <= speed_limit t level /\
    Qabs (Asteroid.vy a) <= speed_limit t level.

(** Every asteroid of the world is no faster than the level allows. *)
Definition asteroids_slow w : Prop :=
  Forall (asteroid_slow (State.level (STATE w))) (Entities.asteroids (entities w)).

Definition crystal_ok (c : Crystal.obj) : Prop :=
  Crystal.type c ∈ crystalTypes cfg /\ (0 <= Crystal.t c)%Z.

Definition particle_ok (p : Particle.obj) : Prop :=
  Particle.dead p = false /\ (0 <= Particle.t p)%Z /\ Particle.life p < 48.

(** What holds of the world between two events once [reset] has run. *)
Record Sim_ok w : Prop := {
  sim_env : Env_ok (env w);
  sim_ship : exists sh, Entities.ship (entities w) = Some sh /\ Ship.wf cfg sh;
  sim_asteroids : Forall asteroid_ok (Entities.asteroids (entities w));
  sim_crystals : Forall crystal_ok (Entities.crystals (entities w));
  sim_particles : Forall particle_ok (Entities.particles (entities w));
  sim_flags : flags_ok (STATE w);
  sim_lives : (0 <= State.lives (STATE w) <= initialLives cfg)%Z;
  sim_level : (1 <= State.level (STATE w))%Z;
  sim_score : (0 <= State.score (STATE w))%Z;
  sim_tick : (0 <= State.tick (STATE w))%Z;
  sim_hud : hud_synced cfg w;
}.

Lemma fresh_asteroid_ok offscreen level a : fresh_asteroid cfg offscreen level a -> asteroid_ok a.
Proof.
  intros [(t & Ht & Hsz & _) Hpos]. pose proof (asteroidType_size_pos cfg t Ht) as Hs.
  pose proof (width_pos cfg). pose proof (height_pos cfg).
  unfold asteroid_ok. rewrite Hsz. split; [done|].
  unfold Asteroid.in_band. rewrite Hsz in *. destruct offscreen.
  - apply (on_edge_in_band cfg (at_size t)); [lra|done].
  - lra.
Qed.

Lemma fresh_particle_ok x y color l1 l2 v2 p :
  0 < l1 -> l2 <= 48 -> fresh_particle x y color l1 l2 v2 p -> particle_ok p.
Proof.
  intros Hl1 Hl2 (_ & _ & _ & Ht & [Hlo Hhi] & _). unfold particle_ok.
  rewrite Ht. split_and!; [|done|lra].
  apply Bool.not_true_iff_false. rewrite Particle_dead_spec, Ht.
  change (inject_Z 0) with 0. lra.
Qed.

(** *** The speed of the asteroids *)

Lemma speed_limit_mono t l l' : (l <= l')%Z -> speed_limit t l <= speed_limit t l'.
Proof. intros Hl. rewrite Zle_Qle in Hl. unfold speed_limit. lra. Qed.

(** A bound that holds at a level holds at every higher one. *)
Lemma asteroid_slow_mono l l' a : (l <= l')%Z -> asteroid_slow l a -> asteroid_slow l' a.
Proof.
  intros Hl (t & Ht & Hsz & Hx & Hy). pose proof (speed_limit_mono t _ _ Hl).
  exists t. split_and!; [done..|lra|lra].
Qed.

(** [spawnAsteroid] respects the limit of the level it is called at. *)
Lemma fresh_asteroid_slow offscreen level a :
  (0 <= level)%Z -> fresh_asteroid cfg offscreen level a -> asteroid_slow level a.
Proof. intros Hl [(t & Ht & Hsz & _ & Hv) _]. exists t. now destruct (Hv Hl). Qed.

(** [Asteroid.update] changes neither the size nor the velocity. *)
Lemma asteroid_slow_update level tick a :
  asteroid_slow level a -> asteroid_slow level (Asteroid.update cfg tick a).
Proof.
  intros (t & Ht & Hsz & Hx & Hy).
  destruct (Asteroid_update_frame cfg tick a) as (Hs' & Hvx & Hvy & _).
  exists t. now rewrite Hs', Hvx, Hvy.
Qed.

Lemma asteroids_slow_eq w w' :
  State.level (STATE w') = State.level (STATE w) ->
  Entities.asteroids (entities w') = Entities.asteroids (entities w) ->
  asteroids_slow w -> asteroids_slow w'.
Proof. unfold asteroids_slow. now intros -> ->. Qed.

Lemma asteroids_slow_add l w :
  Forall (asteroid_slow (State.level (STATE w))) l -> asteroids_slow w ->
  asteroids_slow (add_asteroids l w).
Proof. intros Hl Hw. unfold asteroids_slow. cbn. now apply Forall_app. Qed.

(** *** Changes that keep the invariant *)

Lemma Sim_ok_advance n w : Sim_ok w -> Sim_ok (advance n w).
Proof. intros []. split; try done. now apply skip_random_ok. Qed.

Lemma Sim_ok_clock n w : Sim_ok w -> Sim_ok (set_env (skip_clock n (env w)) w).
Proof. intros []. split; try done. now apply skip_clock_ok. Qed.

Lemma Sim_ok_add_asteroids l w :
  Forall asteroid_ok l -> Sim_ok w -> Sim_ok (add_asteroids l w).
Proof. intros Hl []. split; try done. cbn. now apply Forall_app. Qed.

Lemma Sim_ok_add_crystals l w :
  Forall crystal_ok l -> Sim_ok w -> Sim_ok (add_crystals l w).
Proof. intros Hl []. split; try done. cbn. now apply Forall_app. Qed.

Lemma Sim_ok_add_particles l w :
  Forall particle_ok l -> Sim_ok w -> Sim_ok (add_particles l w).
Proof. intros Hl []. split; try done. cbn. now apply Forall_app. Qed.

(** A change of [STATE] that leaves flags and lives alone, followed by
    [updateHUD]. *)
Lemma Sim_ok_state s w :
  Sim_ok w ->
  State.running s = State.running (STATE w) -> State.paused s = State.paused (STATE w) ->
  State.over s = State.over (STATE w) -> State.lives s = State.lives (STATE w) ->
  (1 <= State.level s)%Z -> (0 <= State.score s)%Z -> (0 <= State.tick s)%Z ->
  Sim_ok (set_dom (hud cfg s (dom w)) (set_STATE s w)).
Proof.
  intros [? ? ? ? ? [Hf1 Hf2 Hf3 Hf4] ? ? ? ? ?] Hr Hp Ho Hl ? ? ?.
  split; try done.
  - split; cbn; rewrite ?Hr, ?Hp, ?Ho, ?Hl; assumption.
  - cbn. now rewrite Hl.
Qed.

(** *** The operations of [Flow] *)

Lemma flags_ok_init : flags_ok (State.init cfg).
Proof. pose proof initialLives_pos. split; cbn; (done || (intros; lia)). Qed.

(** [reset] establishes the invariant, whatever the world was. *)
Lemma Sim_ok_reset l w :
  Env_ok (env w) -> Forall (fresh_asteroid cfg true 1) l -> Sim_ok (reset_world cfg l w).
Proof.
  intros He Hl. pose proof initialLives_pos. split; cbn; try (done || lia).
  - now apply skip_random_ok.
  - eexists. split; [done|]. apply ship_start_wf; done.
  - eapply Forall_impl; [exact Hl|]. apply fresh_asteroid_ok.
  - apply flags_ok_init.
Qed.

(** [start] keeps it when the game is not over and a life is left. *)
Lemma Sim_ok_start w :
  Sim_ok w -> State.over (STATE w) = false -> (1 <= State.lives (STATE w))%Z ->
  Sim_ok (exec start w).
Proof. intros [] Ho Hl. split; done. Qed.

Lemma Sim_ok_togglePause w : Sim_ok w -> Sim_ok (exec togglePause w).
Proof.
  intros Hw. unfold exec. rewrite togglePause_run.
  destruct (negb _ || _) eqn:Hg; [done|].
  apply orb_false_elim in Hg as [Hr%negb_false_iff Ho].
  destruct Hw as [? ? ? ? ? [] ? ? ? ? ?]. split; done.
Qed.

(** A hit on a vulnerable ship of a running game that is not paused. *)
Lemma Sim_ok_hit sh ps w :
  Sim_ok w -> Entities.ship (entities w) = Some sh ->
  State.running (STATE w) = true -> State.paused (STATE w) = false ->
  Forall (fresh_particle (Ship.x sh) (Ship.y sh) "#ff5f7a" 28 48 4) ps ->
  Sim_ok (hit_world cfg sh ps w).
Proof.
  intros [? (sh' & Hs' & Hwf) ? ? ? [Hf1 Hf2 Hf3 Hf4] ? ? ? ? ?] Hs Hr Hp Hps.
  assert (sh' = sh) as -> by congruence.
  assert (State.over (STATE w) = false) as Ho.
  { destruct (State.over (STATE w)); [|done]. specialize (Hf2 eq_refl). congruence. }
  specialize (Hf4 Ho).
  split; unfold hit_world; cbn; try done.
  - now apply skip_random_ok.
  - eexists. split; [done|]. case_bool_decide; [done|]. now apply respawn_wf.
  - apply Forall_app; split; [done|]. eapply Forall_impl; [exact Hps|].
    intros p. now apply fresh_particle_ok.
  - case_bool_decide; split; cbn; intros; (congruence || lia).
  - case_bool_decide; cbn; lia.
  - now case_bool_decide.
  - now case_bool_decide.
  - now case_bool_decide.
Qed.
End sim.

(** ** How far a step takes the world *)

Section moves.
Context (cfg : Config) `{!Config_ok cfg} `{MathLib}.
Implicit Types (w : World).

(** One environment is a later state of the other: the same tapes, read
    further. *)
Record Env_later (e e' : Env) : Prop := {
  later_random_tape : random_tape e' = random_tape e;
  later_clock_tape : clock_tape e' = clock_tape e;
  later_random_pos : (random_pos e <= random_pos e')%nat;
  later_clock_pos : (clock_pos e <= clock_pos e')%nat;
}.

#[export] Instance Env_later_preorder : PreOrder Env_later.
Proof.
  split.
  - intros e. now split.
  - intros e1 e2 e3 [] []. split; (congruence || lia).
Qed.

Lemma Env_later_random n e : Env_later e (skip_random n e).
Proof. split; cbn; (done || lia). Qed.

Lemma Env_later_clock n e : Env_later e (skip_clock n e).
Proof. split; cbn; (done || lia). Qed.

(** [moves dl dv dt w w']: the simulation has gone from [w] to [w'], losing
    [dl] lives, gaining [dv] levels and counting [dt] ticks.  The score has
    not dropped; the pause flag, the keys, the mouse, the frame time, the
    menu and the pause overlay are as they were; the running and over flags
    and the game-over overlay are as they were if no life was lost or one is
    left; a life is lost only while the game is running and not paused, and
    if the last life was lost the game is over; asteroids that were no
    faster than the level allows still are. *)
Record moves (dl dv dt : Z) w w' : Prop := {
  mv_nonneg : (0 <= dl /\ 0 <= dv /\ 0 <= dt)%Z;
  mv_lives : State.lives (STATE w') = (State.lives (STATE w) - dl)%Z;
  mv_level : State.level (STATE w') = (State.level (STATE w) + dv)%Z;
  mv_tick : State.tick (STATE w') = (State.tick (STATE w) + dt)%Z;
  mv_score : (State.score (STATE w) <= State.score (STATE w'))%Z;
  mv_paused : State.paused (STATE w') = State.paused (STATE w);
  mv_flags : (dl = 0 \/ 0 < State.lives (STATE w'))%Z ->
    State.running (STATE w') = State.running (STATE w) /\
    State.over (STATE w') = State.over (STATE w) /\
    Dom.gameoverVisible (dom w') = Dom.gameoverVisible (dom w) /\
    Dom.finalScore (dom w') = Dom.finalScore (dom w);
  mv_running : (0 < dl)%Z ->
    State.running (STATE w) = true /\ State.paused (STATE w) = false;
  mv_over : (0 < dl)%Z -> (State.lives (STATE w') <= 0)%Z ->
    State.over (STATE w') = true /\ State.running (STATE w') = false /\
    Dom.gameoverVisible (dom w') = true;
  mv_menu : Dom.menuVisible (dom w') = Dom.menuVisible (dom w);
  mv_pause : Dom.pauseVisible (dom w') = Dom.pauseVisible (dom w);
  mv_keys : keys w' = keys w;
  mv_mouse : mouse w' = mouse w;
  mv_lastTime : lastTime w' = lastTime w;
  mv_env : Env_later (env w) (env w');
  mv_slow : asteroids_slow cfg w -> asteroids_slow cfg w';
}.

Lemma moves_refl w : moves 0 0 0 w w.
Proof. split; (done || (intros; lia)). Qed.

Lemma moves_trans dl1 dv1 dt1 dl2 dv2 dt2 w1 w2 w3 :
  moves dl1 dv1 dt1 w1 w2 -> moves dl2 dv2 dt2 w2 w3 ->
  moves (dl1 + dl2) (dv1 + dv2) (dt1 + dt2) w1 w3.
Proof.
  intros M1 M2. pose proof (mv_nonneg _ _ _ _ _ M1). pose proof (mv_nonneg _ _ _ _ _ M2).
  split; try (destruct M1, M2; (congruence || lia)).
  - intros Hc. pose proof (mv_lives _ _ _ _ _ M2).
    destruct (mv_flags _ _ _ _ _ M1) as (? & ? & ? & ?); [lia|].
    destruct (mv_flags _ _ _ _ _ M2) as (? & ? & ? & ?); [lia|].
    split_and!; congruence.
  - intros Hdl. destruct (Z.eq_dec dl1 0%Z) as [->|]; [|apply (mv_running _ _ _ _ _ M1); lia].
    destruct (mv_flags _ _ _ _ _ M1) as (<- & _); [lia|].
    rewrite <- (mv_paused _ _ _ _ _ M1). apply (mv_running _ _ _ _ _ M2); lia.
  - intros Hdl Hl. pose proof (mv_lives _ _ _ _ _ M2).
    destruct (Z.eq_dec dl2 0%Z) as [->|]; [|apply (mv_over _ _ _ _ _ M2); lia].
    destruct (mv_flags _ _ _ _ _ M2) as (? & ? & ? & _); [lia|].
    destruct (mv_over _ _ _ _ _ M1) as (? & ? & ?); [lia..|].
    split_and!; congruence.
  - etrans; [apply M1|apply M2].
  - intros Hs. apply M2, M1, Hs.
Qed.

(** The deltas can be replaced by equal ones. *)
Lemma moves_eq dl dv dt dl' dv' dt' w w' :
  moves dl dv dt w w' -> dl = dl' -> dv = dv' -> dt = dt' -> moves dl' dv' dt' w w'.
Proof. now intros ? <- <- <-. Qed.

(** A step that leaves [STATE] and the page alone. *)
Lemma moves_entities w w' :
  STATE w' = STATE w -> dom w' = dom w -> keys w' = keys w -> mouse w' = mouse w ->
  lastTime w' = lastTime w -> Env_later (env w) (env w') ->
  (asteroids_slow cfg w -> asteroids_slow cfg w') -> moves 0 0 0 w w'.
Proof. intros Hs Hd ? ? ? ? ?. split; rewrite ?Hs, ?Hd; (done || (intros; lia)). Qed.
End moves.
