(* ===== verification/Update.v ===== *)
(** * Update: the simulation step

    [update] is the function of [game.js] lines 426-474.  Its body is a
    sequence of seven blocks, each under a comment of the source; every block
    is a definition of this file and [update] runs them in order.

    Theorems: what each block does; that the in-place removal of the crystals
    is a filter; that the difficulty ramp raises the level by one when its
    interval has passed; that the asteroid count grows by at most one per
    step. *)

From stdpp Require Import gmap strings pretty.
From S2P Require Import Prelude Browser Config Geometry Entities World Spawner Flow Invariant.

Section update.
Context (cfg : Config) `{MathLib}.

(** [// Difficulty ramp] *)
Definition difficulty_ramp : M unit :=
  now ← browser performanceNow;
  last ← getS State.lastDifficultyMs;
  when (now - last >=? difficultyIntervalMs cfg)%js (
    now ← browser performanceNow;
    modS (State.set_lastDifficultyMs now);;
    modS (fun s => State.set_level (State.level s + 1) s);;
    level ← getS State.level;
    repeatM (Z.to_nat (1 + Z.min level 3)) (spawnAsteroid cfg true);;
    updateHUD cfg).

(** [// Spawn crystals] *)
Definition spawn_crystals : M unit :=
  now ← browser performanceNow;
  last ← getS State.lastCrystalMs;
  when (now - last >=? crystalSpawnMs cfg)%js (
    now ← browser performanceNow;
    modS (State.set_lastCrystalMs now);;
    spawnCrystal cfg).

(** [// Update entities] *)
Definition update_entities : M unit :=
  ship ← getE Entities.ship;
  ship ← unwrap ship;
  keys ← gets keys;
  modE (Entities.set_ship (Some (Ship.update cfg keys ship)));;
  tick ← getS State.tick;
  modE (fun e => Entities.set_asteroids
                   (Asteroid.update cfg tick <$> Entities.asteroids e) e);;
  modE (fun e => Entities.set_crystals (Crystal.update <$> Entities.crystals e) e);;
  modE (fun e => Entities.set_particles (Particle.update <$> Entities.particles e) e).

(** [// Clean particles] *)
Definition clean_particles : M unit :=
  modE (fun e => Entities.set_particles
                   (List.filter (fun p => negb (Particle.dead p)) (Entities.particles e)) e).

(** [// Collisions: ship-asteroid]: the [for ... of] loop over the
    asteroids, left at the first hit. *)
Fixpoint ship_asteroid (sb : Bounds.t) (l : list Asteroid.obj) : M unit :=
  match l with
  | [] => mret tt
  | a :: l' =>
      let ab := Asteroid.bounds a in
      if hit sb ab then Ship_hit cfg   (* break *)
      else ship_asteroid sb l'
  end.

(** The body of the crystal loop at index [i]. *)
Definition collect_at (sb : Bounds.t) (i : nat) : M unit :=
  c ← getE (fun e => Entities.crystals e !! i);
  c ← unwrap c;
  when (hit sb (Crystal.bounds c)) (
    modS (fun s => State.set_score (State.score s + ct_points (Crystal.type c)) s);;
    updateHUD cfg;;
    spawnSparkle (Crystal.x c) (Crystal.y c) "#aaf8ff";;
    modE (fun e => Entities.set_crystals (delete i (Entities.crystals e)) e)).

(** [// Collisions: ship-crystal]: the loop
    [for (let i = n-1; i >= 0; i--)], [n] being the number of crystals when
    it starts. *)
Fixpoint ship_crystal (sb : Bounds.t) (n : nat) : M unit :=
  match n with
  | O => mret tt
  | S i => collect_at sb i;; ship_crystal sb i
  end.

(** [// Maintain asteroid count rising with level] *)
Definition maintain_asteroids : M unit :=
  level ← getS State.level;
  let target := (initialAsteroids cfg + Qfloor (inject_Z level * 0.8))%Z in
  asteroids ← getE Entities.asteroids;
  when (bool_decide (Z.of_nat (length asteroids) < target)%Z) (spawnAsteroid cfg true).

(** [function update(dt)] *)
Definition update (dt : Q) : M unit :=
  modS (fun s => State.set_tick (State.tick s + 1) s);;
  difficulty_ramp;;
  spawn_crystals;;
  update_entities;;
  clean_particles;;
  ship ← getE Entities.ship;
  ship ← unwrap ship;
  let sb := Ship.bounds ship in
  asteroids ← getE Entities.asteroids;
  ship_asteroid sb asteroids;;
  crystals ← getE Entities.crystals;
  ship_crystal sb (length crystals);;
  maintain_asteroids.
End update.

#[export] Hint Unfold difficulty_ramp spawn_crystals update_entities clean_particles
  collect_at maintain_asteroids : comp.

(** ** The crystal loop *)

Section crystals.
Context (cfg : Config) `{!Config_ok cfg} `{MathLib}.
Implicit Types (w : World) (sb : Bounds.t) (c : Crystal.obj) (cs : list Crystal.obj).

(** The crystal overlaps the circle [sb]. *)
Definition touches sb c : bool := hit sb (Crystal.bounds c).

(** The point value of a crystal. *)
Definition points c : Z := ct_points (Crystal.type c).

(** The crystals the ship collects and those it leaves, as filters. *)
Definition picked sb cs : list Crystal.obj := List.filter (touches sb) cs.
Definition kept sb cs : list Crystal.obj := List.filter (fun c => negb (touches sb c)) cs.

(** The world after the body of the loop has collected the crystal [c] at
    index [i]; [ps] are the particles of the sparkle. *)
Definition pick_world (i : nat) c (ps : list Particle.obj) w : World :=
  let st := State.set_score (State.score (STATE w) + points c) (STATE w) in
  {| STATE := st;
     entities :=
       {| Entities.ship := Entities.ship (entities w);
          Entities.asteroids := Entities.asteroids (entities w);
          Entities.crystals := delete i (Entities.crystals (entities w));
          Entities.particles := Entities.particles (entities w) ++ ps |};
     keys := keys w;
     mouse := mouse w;
     lastTime := lastTime w;
     dom := hud cfg st (dom w);
     env := skip_random 72 (env w) |}.

(** A particle of a sparkle at the crystal [c]. *)
Definition sparkle_of c : Particle.obj -> Prop :=
  fresh_particle (Crystal.x c) (Crystal.y c) "#aaf8ff" 18 30 2.5.

Lemma collect_at_hit sb i c w :
  Env_ok (env w) -> Entities.crystals (entities w) !! i = Some c -> touches sb c = true ->
  wp (collect_at cfg sb i)
     (fun _ w' => exists ps, length ps = 18%nat /\ Forall (sparkle_of c) ps /\
                             w' = pick_world i c ps w) w.
Proof.
  intros He Hc Ht. unfold collect_at. wp_draw. rewrite Hc. wp_draw.
  fold (touches sb c). rewrite Ht. cbn [when].
  apply wp_bind, wp_modify. apply wp_bind.
  eapply wp_ok; [apply updateHUD_run|]. apply wp_bind.
  eapply wp_mono; [now apply spawnSparkle_spec|].
  intros _ w' (ps & Hlen & Hps & ->). apply wp_modify.
  exists ps. split_and!; [done..|reflexivity].
Qed.

Lemma collect_at_miss sb i c w :
  Entities.crystals (entities w) !! i = Some c -> touches sb c = false ->
  collect_at cfg sb i w = Ok tt w.
Proof.
  intros Hc Ht. unfold collect_at. comp_run. rewrite Hc. cbn.
  fold (touches sb c). now rewrite Ht.
Qed.

(** The world after the loop has gone through the indices below [n]; [ps]
    are the particles of the sparkles. *)
Definition collect_world sb (n : nat) (ps : list Particle.obj) w : World :=
  let cs := Entities.crystals (entities w) in
  let got := picked sb (take n cs) in
  let st := State.set_score (State.score (STATE w) + sumZ points got) (STATE w) in
  {| STATE := st;
     entities :=
       {| Entities.ship := Entities.ship (entities w);
          Entities.asteroids := Entities.asteroids (entities w);
          Entities.crystals := kept sb (take n cs) ++ drop n cs;
          Entities.particles := Entities.particles (entities w) ++ ps |};
     keys := keys w;
     mouse := mouse w;
     lastTime := lastTime w;
     dom := match got with [] => dom w | _ => hud cfg st (dom w) end;
     env := skip_random (72 * length got) (env w) |}.

Lemma collect_world_0 sb w : collect_world sb 0 [] w = w.
Proof.
  unfold collect_world, picked, kept. rewrite take_0, drop_0.
  apply World_ext; cbn; try done.
  - apply State_ext; cbn; try done. autorewrite with game. lia.
  - apply Entities_ext; cbn; try done. now rewrite app_nil_r.
  - now destruct (env w).
Qed.

Lemma picked_snoc sb cs c :
  picked sb (cs ++ [c]) = picked sb cs ++ (if touches sb c then [c] else []).
Proof. unfold picked. rewrite List.filter_app. cbn. now destruct (touches sb c). Qed.

Lemma kept_snoc sb cs c :
  kept sb (cs ++ [c]) = kept sb cs ++ (if touches sb c then [] else [c]).
Proof. unfold kept. rewrite List.filter_app. cbn. now destruct (touches sb c). Qed.

Lemma collect_world_miss sb i c ps w :
  Entities.crystals (entities w) !! i = Some c -> touches sb c = false ->
  collect_world sb i ps w = collect_world sb (S i) ps w.
Proof.
  intros Hc Ht. unfold collect_world.
  rewrite (take_S_r _ _ _ Hc), picked_snoc, kept_snoc, Ht, app_nil_r.
  rewrite (drop_S _ _ _ Hc), <- app_assoc. reflexivity.
Qed.

Lemma collect_world_hit sb i c ps1 ps2 w :
  Entities.crystals (entities w) !! i = Some c -> touches sb c = true ->
  collect_world sb i ps2 (pick_world i c ps1 w) = collect_world sb (S i) (ps1 ++ ps2) w.
Proof.
  intros Hc Ht. unfold collect_world, pick_world. cbn.
  rewrite (take_S_r _ _ _ Hc), picked_snoc, kept_snoc, Ht, app_nil_r.
  rewrite take_delete, drop_delete.
  apply World_ext; cbn; try done.
  - apply State_ext; cbn; try done. autorewrite with game. lia.
  - apply Entities_ext; cbn; try done. now rewrite app_assoc.
  - destruct (picked sb (take i (Entities.crystals (entities w)))) as [|c0 l] eqn:Hgot; cbn.
    + apply hud_ext; cbn; try done. autorewrite with game. lia.
    + rewrite hud_hud. apply hud_ext; cbn; try done.
      autorewrite with game. lia.
  - rewrite skip_random_add. apply skip_random_eq. rewrite length_app. cbn. lia.
Qed.

(** The loop over the indices below [n], from the last to the first. *)
Lemma ship_crystal_spec sb (n : nat) w :
  Env_ok (env w) -> (n <= length (Entities.crystals (entities w)))%nat ->
  wp (ship_crystal cfg sb n)
     (fun _ w' => exists ps,
        length ps = (18 * length (picked sb (take n (Entities.crystals (entities w)))))%nat /\
        Forall particle_ok ps /\
        w' = collect_world sb n ps w) w.
Proof.
  revert w. induction n as [|i IH]; intros w He Hn.
  - apply wp_ret. exists []. rewrite take_0. split_and!; [done|constructor|].
    now rewrite collect_world_0.
  - destruct (lookup_lt_is_Some_2 (Entities.crystals (entities w)) i) as [c Hc]; [lia|].
    cbn [ship_crystal]. apply wp_bind.
    rewrite (take_S_r _ _ _ Hc), picked_snoc.
    destruct (touches sb c) eqn:Ht.
    + eapply wp_mono; [eapply collect_at_hit; eassumption|].
      intros _ w1 (ps1 & Hlen1 & Hps1 & ->).
      eapply wp_mono; [apply IH|].
      * now apply (skip_random_ok 72).
      * cbn. rewrite length_delete_lt by lia. lia.
      * intros _ w' (ps2 & Hlen2 & Hps2 & ->). exists (ps1 ++ ps2). split_and!.
        -- cbn in Hlen2. rewrite take_delete in Hlen2.
           rewrite !length_app, Hlen1, Hlen2. cbn. lia.
        -- apply Forall_app; split; [|done].
           eapply Forall_impl; [exact Hps1|]. intros p.
           now apply fresh_particle_ok.
        -- now apply (collect_world_hit sb i c).
    + eapply wp_ok; [eapply collect_at_miss; eassumption|].
      eapply wp_mono; [apply IH; [done|lia]|].
      intros _ w' (ps & Hlen & Hps & ->). exists ps. split_and!; [|done|].
      * now rewrite app_nil_r.
      * now apply (collect_world_miss sb i c).
Qed.

(** C5: the crystal loop, which goes through the indices from the last to
    the first and removes a collected crystal in place, does not throw and is
    a filter: the crystals left are those that do not overlap the ship, in
    their order; the score grows by the points of the others; 18 particles
    are added per collected crystal; ship, asteroids, lives and level are
    unchanged. *)
Theorem ship_crystal_filter sb w :
  Env_ok (env w) ->
  let cs := Entities.crystals (entities w) in
  wp (ship_crystal cfg sb (length cs))
     (fun _ w' =>
        Entities.crystals (entities w') = kept sb cs /\
        State.score (STATE w') = (State.score (STATE w) + sumZ points (picked sb cs))%Z /\
        length (Entities.particles (entities w')) =
          (length (Entities.particles (entities w)) + 18 * length (picked sb cs))%nat /\
        Entities.ship (entities w') = Entities.ship (entities w) /\
        Entities.asteroids (entities w') = Entities.asteroids (entities w) /\
        State.lives (STATE w') = State.lives (STATE w) /\
        State.level (STATE w') = State.level (STATE w)) w.
Proof.
  intros He cs. eapply wp_mono; [now apply ship_crystal_spec|].
  intros _ w' (ps & Hlen & _ & ->). fold cs in Hlen. rewrite firstn_all in Hlen.
  unfold collect_world. fold cs. rewrite firstn_all, drop_all, app_nil_r. cbn.
  rewrite length_app, Hlen. now split_and!.
Qed.
End crystals.

(** ** The blocks of [update] *)

Section blocks.
Context (cfg : Config) `{!Config_ok cfg} `{MathLib}.
Implicit Types (w : World).

(** *** The clock *)

(** The value the next call of [performance.now] returns, and the one
    after it. *)
Definition now1 w : Q := clock_tape (env w) (clock_pos (env w)).
Definition now2 w : Q := clock_tape (env w) (S (clock_pos (env w))).

(** The world after [n] more calls of [performance.now]. *)
Definition wait (n : nat) w : World := set_env (skip_clock n (env w)) w.

Lemma wp_now_bind {B} (k : Q -> M B) Q w :
  wp (k (now1 w)) Q (wait 1 w) -> wp (browser performanceNow ≫= k) Q w.
Proof. intros Hk. eapply wp_browser_bind; [reflexivity|exact Hk]. Qed.

Lemma Sim_ok_wait n w : Sim_ok cfg w -> Sim_ok cfg (wait n w).
Proof. apply Sim_ok_clock. Qed.

Lemma moves_wait n w : moves cfg 0 0 0 w (wait n w).
Proof. apply moves_entities; try done. apply Env_later_clock. Qed.

(** *** Difficulty ramp *)

(** The condition of the [if]: the interval has passed since the last
    level-up. *)
Definition ramp_due w : bool :=
  (now1 w - State.lastDifficultyMs (STATE w) >=? difficultyIntervalMs cfg)%js.

(** The number of asteroids a level-up to [level] adds. *)
Definition ramp_count (level : Z) : nat := Z.to_nat (1 + Z.min level 3).

(** The world after a level-up that has spawned the asteroids [l]. *)
Definition ramp_world (l : list Asteroid.obj) w : World :=
  let st := State.set_level (State.level (STATE w) + 1)
              (State.set_lastDifficultyMs (now2 w) (STATE w)) in
  {| STATE := st;
     entities := Entities.set_asteroids (Entities.asteroids (entities w) ++ l) (entities w);
     keys := keys w;
     mouse := mouse w;
     lastTime := lastTime w;
     dom := hud cfg st (dom w);
     env := skip_random (11 * length l) (skip_clock 2 (env w)) |}.

Lemma difficulty_ramp_spec w :
  Env_ok (env w) ->
  wp (difficulty_ramp cfg)
     (fun _ w' =>
        if ramp_due w then
          exists l, length l = ramp_count (State.level (STATE w) + 1) /\
            Forall (fresh_asteroid cfg true (State.level (STATE w) + 1)) l /\
            w' = ramp_world l w
        else w' = wait 1 w) w.
Proof.
  intros He. unfold difficulty_ramp, ramp_due.
  apply wp_now_bind. wp_draw. cbn [wait STATE set_env].
  destruct (bool_decide _); cbn [when]; [|now apply wp_ret].
  apply wp_now_bind. apply wp_bind, wp_modify. apply wp_bind, wp_modify.
  wp_draw. apply wp_bind.
  eapply wp_mono; [apply spawn_asteroids_spec; [done|cbn; auto using skip_clock_ok]|].
  intros _ w' (l & Hlen & Hl & ->).
  eapply wp_ok; [apply updateHUD_run|].
  exists l. split_and!; [done..|]. unfold ramp_world. now rewrite Hlen.
Qed.

(** *** Spawn crystals *)

Definition crystal_due w : bool :=
  (now1 w - State.lastCrystalMs (STATE w) >=? crystalSpawnMs cfg)%js.

(** The world after the crystal [c] has been spawned. *)
Definition crystal_world (c : Crystal.obj) w : World :=
  add_crystals [c]
    (advance 5 (set_STATE (State.set_lastCrystalMs (now2 w) (STATE w)) (wait 2 w))).

Lemma spawn_crystals_spec w :
  Env_ok (env w) ->
  wp (spawn_crystals cfg)
     (fun _ w' =>
        if crystal_due w then
          exists c, Crystal.type c ∈ crystalTypes cfg /\ Crystal.t c = 0%Z /\
            (40 <= Crystal.x c /\ Crystal.x c < width cfg - 40) /\
            (40 <= Crystal.y c /\ Crystal.y c < height cfg - 80) /\
            w' = crystal_world c w
        else w' = wait 1 w) w.
Proof.
  intros He. unfold spawn_crystals, crystal_due.
  apply wp_now_bind. wp_draw. cbn [wait STATE set_env].
  destruct (bool_decide _); cbn [when]; [|now apply wp_ret].
  apply wp_now_bind. apply wp_bind, wp_modify.
  eapply wp_mono; [apply spawnCrystal_spec; [done|cbn; auto using skip_clock_ok]|].
  intros _ w' (c & ? & ? & ? & ? & ->). exists c. now split_and!.
Qed.

(** *** Update entities, clean particles *)

(** The world after the two blocks, [sh] being the ship. *)
Definition move_world (sh : Ship.obj) w : World :=
  set_entities
    {| Entities.ship := Some (Ship.update cfg (keys w) sh);
       Entities.asteroids :=
         Asteroid.update cfg (State.tick (STATE w)) <$> Entities.asteroids (entities w);
       Entities.crystals := Crystal.update <$> Entities.crystals (entities w);
       Entities.particles :=
         List.filter (fun p => negb (Particle.dead p))
           (Particle.update <$> Entities.particles (entities w)) |} w.

Lemma move_run sh w :
  Entities.ship (entities w) = Some sh ->
  (update_entities cfg;; clean_particles) w = Ok tt (move_world sh w).
Proof. intros Hs. comp_run. rewrite Hs. reflexivity. Qed.

(** Without a ship the call [entities.ship.update()] raises a TypeError. *)
Lemma update_entities_null w :
  Entities.ship (entities w) = None -> update_entities cfg w = Throw TypeError.
Proof. intros Hs. comp_run. now rewrite Hs. Qed.

(** *** Collisions: ship-asteroid *)

(** The ship's circle overlaps that of an asteroid of the list. *)
Definition collides (sb : Bounds.t) (l : list Asteroid.obj) : bool :=
  existsb (fun a => hit sb (Asteroid.bounds a)) l.

(** The loop calls [Ship.hit] once if an asteroid overlaps the ship and not
    at all otherwise. *)
Lemma ship_asteroid_run sb l w :
  ship_asteroid cfg sb l w = if collides sb l then Ship_hit cfg w else Ok tt w.
Proof.
  induction l as [|a l IH]; cbn; [done|]. now destruct (hit sb (Asteroid.bounds a)).
Qed.

(** The ship [sh] is struck: an asteroid overlaps it and it is vulnerable. *)
Definition struck (sb : Bounds.t) (l : list Asteroid.obj) (sh : Ship.obj) : bool :=
  collides sb l && bool_decide (Ship.inv sh <= 0)%Z.

(** *** Maintain asteroid count *)

(** The number of asteroids the game keeps at level [level]. *)
Definition target (level : Z) : Z := (initialAsteroids cfg + Qfloor (inject_Z level * 0.8))%Z.

Definition below_target w : bool :=
  bool_decide (Z.of_nat (length (Entities.asteroids (entities w)))
               < target (State.level (STATE w)))%Z.

Lemma maintain_asteroids_spec w :
  Env_ok (env w) ->
  wp (maintain_asteroids cfg)
     (fun _ w' =>
        if below_target w then
          exists a, fresh_asteroid cfg true (State.level (STATE w)) a /\
                    w' = add_asteroids [a] (advance 11 w)
        else w' = w) w.
Proof.
  intros He. unfold maintain_asteroids, below_target, target. wp_draw. wp_draw.
  destruct (bool_decide _); cbn [when]; [|now apply wp_ret].
  now apply spawnAsteroid_spec.
Qed.
(** *** What the blocks promise *)

(** C35: when the difficulty interval has passed since the last level-up,
    the difficulty ramp raises the level by exactly one, records the time and
    adds [1 + min(level, 3)] asteroids for the new level, all on the edges;
    otherwise it changes nothing but the position in the clock tape.  A rise
    to level 2 adds 3 asteroids. *)
Theorem difficulty_ramp_level_up w :
  Env_ok (env w) ->
  wp (difficulty_ramp cfg)
     (fun _ w' =>
        if ramp_due w then
          let level' := (State.level (STATE w) + 1)%Z in
          State.level (STATE w') = level' /\
          State.lastDifficultyMs (STATE w') = now2 w /\
          (exists l, Entities.asteroids (entities w') = Entities.asteroids (entities w) ++ l /\
             length l = Z.to_nat (1 + Z.min level' 3) /\
             Forall (fun a => on_edge cfg (Asteroid.size a) (Asteroid.x a) (Asteroid.y a)) l) /\
          (level' = 2%Z ->
           length (Entities.asteroids (entities w')) =
             (length (Entities.asteroids (entities w)) + 3)%nat) /\
          State.lives (STATE w') = State.lives (STATE w) /\
          State.score (STATE w') = State.score (STATE w) /\
          hud_synced cfg w'
        else w' = wait 1 w) w.
Proof.
  intros He. eapply wp_mono; [now apply difficulty_ramp_spec|].
  intros [] w'. cbv beta. destruct (ramp_due w); [|done].
  intros (l & Hlen & Hl & ->). cbn. split_and!; try done.
  - exists l. split_and!; try done. eapply Forall_impl; [exact Hl|]. now intros a [_ ?].
  - intros Hlvl. rewrite length_app, Hlen. unfold ramp_count. rewrite Hlvl. done.
Qed.

(** The block that maintains the asteroid count adds at most one
    asteroid per step: exactly one, on an edge, when the count is below
    [initialAsteroids + floor(level * 0.8)], and none otherwise. *)
Theorem maintain_asteroids_one w :
  Env_ok (env w) ->
  wp (maintain_asteroids cfg)
     (fun _ w' =>
        let n := length (Entities.asteroids (entities w)) in
        let low := bool_decide (Z.of_nat n < initialAsteroids cfg
                                             + Qfloor (inject_Z (State.level (STATE w)) * 0.8))%Z in
        length (Entities.asteroids (entities w')) = (if low then S n else n) /\
        (exists l, Entities.asteroids (entities w') = Entities.asteroids (entities w) ++ l /\
           Forall (fun a => on_edge cfg (Asteroid.size a) (Asteroid.x a) (Asteroid.y a)) l) /\
        STATE w' = STATE w /\ Entities.ship (entities w') = Entities.ship (entities w)) w.
Proof.
  intros He. eapply wp_mono; [now apply maintain_asteroids_spec|].
  intros [] w'. cbv beta zeta. unfold below_target, target. case_bool_decide.
  - intros (a & [_ Ha] & ->). cbn. rewrite length_app. cbn.
    split_and!; [lia| |done..]. exists [a]. split; [done|]. now constructor.
  - intros ->. split_and!; [done| |done..]. exists []. now rewrite app_nil_r.
Qed.
End blocks.
