(* ===== verification/Tick.v ===== *)
(** * Tick: what a step does to the counters, exactly

    [resolve_spec] describes the part of [update] from the collision of the
    ship with the asteroids to the end, [wp_quiet_bind] the part before it in
    a tick in which neither timer is due.  Together they give the scenario
    of the specification: a ship that meets an asteroid and a crystal in the
    same tick loses a life, is sent to the start position and still collects
    the crystal. *)

From stdpp Require Import gmap strings pretty.
From S2P Require Import Prelude Browser Config Geometry Entities World Spawner Flow.
From S2P Require Import Invariant Update.

Section tick.
Context (cfg : Config) `{!Config_ok cfg} `{MathLib}.
Implicit Types (w : World).

(** ** The collisions and the top-up *)

(** The world after the two collision loops: [ps1] are the particles of the
    explosion, [ps2] those of the sparkles.  The crystals are tested against
    the circle the ship had before the hit moved it. *)
Definition resolve_world (sh : Ship.obj) (ps1 ps2 : list Particle.obj) w : World :=
  let sb := Ship.bounds sh in
  let w4 := if struck sb (Entities.asteroids (entities w)) sh
            then hit_world cfg sh ps1 w else w in
  collect_world cfg sb (length (Entities.crystals (entities w))) ps2 w4.

(** [w'] is [w] after the block that maintains the asteroid count. *)
Definition maintained w w' : Prop :=
  if below_target cfg w then
    exists a, fresh_asteroid cfg true (State.level (STATE w)) a /\
              w' = add_asteroids [a] (advance 11 w)
  else w' = w.

Lemma hit_block_spec sb l sh w :
  Env_ok (env w) -> Entities.ship (entities w) = Some sh ->
  wp (ship_asteroid cfg sb l)
     (fun _ w' => exists ps, w' = if struck sb l sh then hit_world cfg sh ps w else w) w.
Proof.
  intros He Hs. unfold wp, struck. rewrite ship_asteroid_run.
  destruct (collides sb l); cbn [andb]; [|by exists []].
  case_bool_decide as Hinv.
  - eapply wp_mono; [eapply Ship_hit_spec; eassumption|].
    intros [] w' (ps & _ & _ & ->). by exists ps.
  - erewrite Ship_hit_skip; [|eassumption|lia]. by exists [].
Qed.

(** The blocks from [// Collisions: ship-asteroid] to the end of [update]. *)
Lemma resolve_spec sh w :
  Env_ok (env w) -> Entities.ship (entities w) = Some sh ->
  wp (ship ← getE Entities.ship;
      ship ← unwrap ship;
      let sb := Ship.bounds ship in
      asteroids ← getE Entities.asteroids;
      ship_asteroid cfg sb asteroids;;
      crystals ← getE Entities.crystals;
      ship_crystal cfg sb (length crystals);;
      maintain_asteroids cfg)
     (fun _ w' => exists ps1 ps2, maintained (resolve_world sh ps1 ps2 w) w') w.
Proof.
  intros He Hs. wp_draw. rewrite Hs. wp_draw. cbv zeta. wp_draw. apply wp_bind.
  eapply wp_mono; [now apply (hit_block_spec _ _ sh)|].
  intros [] w4 (ps1 & Hw4). wp_draw. apply wp_bind.
  assert (Env_ok (env w4) /\
          Entities.crystals (entities w4) = Entities.crystals (entities w)) as [He4 Hc4].
  { subst w4. destruct (struck _ _ _); [|done]. split; [now apply (skip_random_ok 120)|done]. }
  eapply wp_mono; [now apply ship_crystal_spec|].
  intros [] w5 (ps2 & _ & _ & Hw5).
  eapply wp_mono;
    [apply maintain_asteroids_spec; try done; subst w5; now apply skip_random_ok|].
  intros [] w'. cbv beta. intros Hm. exists ps1, ps2. unfold maintained, resolve_world.
  cbv zeta. rewrite <- Hc4, <- Hw4, <- Hw5. exact Hm.
Qed.

(** ** A tick in which no timer is due *)

(** The world before the collisions when neither the difficulty ramp nor
    the crystal timer is due: the tick is counted, the clock has been read
    twice and the entities have moved. *)
Definition quiet_world (sh : Ship.obj) w : World :=
  move_world cfg sh
    (wait 2 (set_STATE (State.set_tick (State.tick (STATE w) + 1) (STATE w)) w)).

Lemma wp_quiet_bind {B} (k : M B) Q sh w :
  Env_ok (env w) -> Entities.ship (entities w) = Some sh ->
  ramp_due cfg w = false -> crystal_due cfg (wait 1 w) = false ->
  wp k Q (quiet_world sh w) ->
  wp (modS (fun s => State.set_tick (State.tick s + 1) s);; difficulty_ramp cfg;;
      spawn_crystals cfg;; update_entities cfg;; clean_particles;; k) Q w.
Proof.
  intros He Hs Hr Hc Hk. apply wp_bind, wp_modify. apply wp_bind.
  eapply wp_mono; [now apply difficulty_ramp_spec|].
  intros [] w1. cbv beta.
  change (ramp_due cfg (set_STATE _ w)) with (ramp_due cfg w). rewrite Hr. intros ->.
  apply wp_bind.
  eapply wp_mono; [apply spawn_crystals_spec; try done; now apply skip_clock_ok|].
  intros [] w2. cbv beta.
  change (crystal_due cfg (wait 1 (set_STATE _ w))) with (crystal_due cfg (wait 1 w)).
  rewrite Hc. intros ->. revert Hk. unfold wp, quiet_world. comp_run. now rewrite Hs.
Qed.

(** A tick in which no timer is due, [sh] being the ship. *)
Lemma update_quiet dt sh w :
  Env_ok (env w) -> Entities.ship (entities w) = Some sh ->
  ramp_due cfg w = false -> crystal_due cfg (wait 1 w) = false ->
  wp (update cfg dt)
     (fun _ w' => exists ps1 ps2,
        maintained (resolve_world (Ship.update cfg (keys w) sh) ps1 ps2 (quiet_world sh w)) w') w.
Proof.
  intros He Hs Hr Hc. unfold update. apply (wp_quiet_bind _ _ sh); [done..|].
  apply resolve_spec; [now apply (skip_clock_ok 2)|done].
Qed.

(** The top-up changes the asteroids and the random tape only. *)
Lemma maintained_frame w w' :
  maintained w w' ->
  STATE w' = STATE w /\ dom w' = dom w /\
  Entities.ship (entities w') = Entities.ship (entities w) /\
  Entities.crystals (entities w') = Entities.crystals (entities w).
Proof.
  unfold maintained. destruct (below_target cfg w); [intros (a & _ & ->)|intros ->]; done.
Qed.

(** The state after the collisions of a struck ship. *)
Lemma resolve_world_struck sh ps1 ps2 w :
  struck (Ship.bounds sh) (Entities.asteroids (entities w)) sh = true ->
  let w5 := resolve_world sh ps1 ps2 w in
  let got := picked (Ship.bounds sh) (Entities.crystals (entities w)) in
  let st := STATE (hit_world cfg sh ps1 w) in
  STATE w5 = State.set_score (State.score st + sumZ points got) st /\
  Entities.crystals (entities w5) = kept (Ship.bounds sh) (Entities.crystals (entities w)) /\
  Entities.ship (entities w5) = Entities.ship (entities (hit_world cfg sh ps1 w)) /\
  Dom.hudScore (dom w5) = "Score: " +:+ pretty (State.score st + sumZ points got)%Z /\
  Dom.finalScore (dom w5) = Dom.finalScore (dom (hit_world cfg sh ps1 w)) /\
  Dom.gameoverVisible (dom w5) = Dom.gameoverVisible (dom (hit_world cfg sh ps1 w)).
Proof.
  intros Hhit w5 got st. unfold w5, resolve_world. rewrite Hhit.
  unfold collect_world. cbn [STATE entities dom Entities.crystals Entities.ship].
  change (Entities.crystals (entities (hit_world cfg sh ps1 w)))
    with (Entities.crystals (entities w)).
  rewrite firstn_all, drop_all, app_nil_r. fold got. fold st.
  split_and!; try done; destruct got; autorewrite with game; rewrite ?Z.add_0_r; try done.
  all: unfold st, hit_world; cbn; now case_bool_decide.
Qed.

(** C4: the scenario of a tick in which no timer is due and the ship,
    with more than one life, meets an asteroid while vulnerable: the step
    takes one life, sends the ship to the start position with [invFrames]
    frames of invulnerability, and still collects the crystals that overlap
    the position the ship had, adding their points to the score. *)
Theorem update_hit_and_collect dt sh w :
  Env_ok (env w) -> Entities.ship (entities w) = Some sh ->
  ramp_due cfg w = false -> crystal_due cfg (wait 1 w) = false ->
  let w3 := quiet_world sh w in
  let sh3 := Ship.update cfg (keys w) sh in
  let sb := Ship.bounds sh3 in
  struck sb (Entities.asteroids (entities w3)) sh3 = true ->
  (1 < State.lives (STATE w))%Z ->
  wp (update cfg dt)
     (fun _ w' =>
        State.lives (STATE w') = (State.lives (STATE w) - 1)%Z /\
        State.score (STATE w') =
          (State.score (STATE w) + sumZ points (picked sb (Entities.crystals (entities w3))))%Z /\
        Entities.crystals (entities w') = kept sb (Entities.crystals (entities w3)) /\
        Entities.ship (entities w') = Some (respawn cfg sh3) /\
        State.tick (STATE w') = (State.tick (STATE w) + 1)%Z /\
        State.running (STATE w') = State.running (STATE w) /\
        State.over (STATE w') = State.over (STATE w)) w.
Proof.
  intros He Hs Hr Hc w3 sh3 sb Hhit Hl. subst w3 sh3 sb.
  eapply wp_mono; [now apply (update_quiet dt sh)|].
  intros [] w' (ps1 & ps2 & (HS & _ & Hsh & Hcr)%maintained_frame).
  destruct (resolve_world_struck _ ps1 ps2 _ Hhit) as (HS5 & Hcr5 & Hsh5 & _).
  rewrite HS, Hsh, Hcr, HS5, Hcr5, Hsh5. unfold hit_world. cbn.
  rewrite !bool_decide_eq_false_2 by lia. done.
Qed.

(** C18: the same tick on the last life: the game is over and the
    game-over overlay is shown, but the text of the final score was written
    by [gameOver] before the crystal loop ran, so it shows the score without
    the crystals collected in this tick, while [STATE.score] and the HUD
    include them. *)
Theorem update_last_life dt sh w :
  Env_ok (env w) -> Entities.ship (entities w) = Some sh ->
  ramp_due cfg w = false -> crystal_due cfg (wait 1 w) = false ->
  let w3 := quiet_world sh w in
  let sh3 := Ship.update cfg (keys w) sh in
  let sb := Ship.bounds sh3 in
  struck sb (Entities.asteroids (entities w3)) sh3 = true ->
  State.lives (STATE w) = 1%Z ->
  wp (update cfg dt)
     (fun _ w' =>
        let gain := sumZ points (picked sb (Entities.crystals (entities w3))) in
        State.lives (STATE w') = 0%Z /\
        State.over (STATE w') = true /\ State.running (STATE w') = false /\
        Dom.gameoverVisible (dom w') = true /\
        Dom.finalScore (dom w') = "Final Score: " +:+ pretty (State.score (STATE w)) /\
        State.score (STATE w') = (State.score (STATE w) + gain)%Z /\
        Dom.hudScore (dom w') = "Score: " +:+ pretty (State.score (STATE w) + gain)%Z) w.
Proof.
  intros He Hs Hr Hc w3 sh3 sb Hhit Hl. subst w3 sh3 sb.
  eapply wp_mono; [now apply (update_quiet dt sh)|].
  intros [] w' (ps1 & ps2 & (HS & Hd & _)%maintained_frame).
  destruct (resolve_world_struck _ ps1 ps2 _ Hhit) as (HS5 & _ & _ & Hhud & Hfin & Hgo).
  rewrite HS, Hd, HS5, Hhud, Hfin, Hgo. unfold hit_world. cbn.
  rewrite Hl, !(bool_decide_eq_true_2 (1 - 1 <= 0)%Z) by lia. done.
Qed.
End tick.
