(* ===== verification/Step.v ===== *)
(** * Step: the simulation step keeps the invariant

    Every block of [update] keeps [Sim_ok] and moves the world as [moves]
    describes; [update_run] chains the blocks.  The theorems on [update]
    follow from it: a step never throws, keeps the invariant and the speed
    limit of the asteroids, counts one tick, costs at most one life and none
    while the ship is invulnerable, and the first step of a game that starts
    late raises the level at once. *)

From stdpp Require Import gmap strings pretty.
From S2P Require Import Prelude Browser Config Geometry Entities World Spawner Flow.
From S2P Require Import Invariant Update.

Section step.
Context (cfg : Config) `{!Config_ok cfg} `{MathLib}.
Implicit Types (w : World).

(** *** Each block keeps the invariant *)

(** The ship object is the same in both worlds. *)
Definition same_ship w w' : Prop := Entities.ship (entities w') = Entities.ship (entities w).

Lemma Sim_ok_timer t w :
  Sim_ok cfg w -> Sim_ok cfg (set_STATE (State.set_lastCrystalMs t (STATE w)) w).
Proof. intros [? ? ? ? ? [] ? ? ? ? ?]. split; done. Qed.

Lemma Sim_ok_tick w :
  Sim_ok cfg w -> Sim_ok cfg (set_STATE (State.set_tick (State.tick (STATE w) + 1) (STATE w)) w).
Proof. intros [? ? ? ? ? [] ? ? ? ? ?]. split; try done. cbn. lia. Qed.

Lemma moves_tick w :
  moves cfg 0 0 1 w (set_STATE (State.set_tick (State.tick (STATE w) + 1) (STATE w)) w).
Proof. split; cbn; try (done || (intros; lia)). Qed.

Lemma Sim_ok_ramp l w :
  Sim_ok cfg w -> Forall (fresh_asteroid cfg true (State.level (STATE w) + 1)) l ->
  Sim_ok cfg (ramp_world cfg l w).
Proof.
  intros [? ? ? ? ? [] ? ? ? ? ?] Hl. split; cbn; try (done || (intros; lia)).
  - now apply skip_random_ok, skip_clock_ok.
  - apply Forall_app; split; [done|]. eapply Forall_impl; [exact Hl|].
    apply fresh_asteroid_ok; done.
Qed.

Lemma moves_ramp l w :
  (0 <= State.level (STATE w))%Z ->
  Forall (fresh_asteroid cfg true (State.level (STATE w) + 1)) l ->
  moves cfg 0 1 0 w (ramp_world cfg l w).
Proof.
  intros Hlv Hl. split; cbn; try (done || (intros; lia)).
  - etrans; [apply (Env_later_clock 2)|apply Env_later_random].
  - intros Hw. apply Forall_app. split.
    + eapply Forall_impl; [exact Hw|]. intros a. apply asteroid_slow_mono. cbn. lia.
    + eapply Forall_impl; [exact Hl|]. intros a. apply fresh_asteroid_slow. cbn. lia.
Qed.

Lemma difficulty_ramp_ok w :
  Sim_ok cfg w ->
  wp (difficulty_ramp cfg)
     (fun _ w' => Sim_ok cfg w' /\ moves cfg 0 (if ramp_due cfg w then 1 else 0) 0 w w' /\
                  same_ship w w') w.
Proof.
  intros Hw. eapply wp_mono; [now apply difficulty_ramp_spec, (sim_env cfg)|].
  intros [] w'; cbv beta. destruct (ramp_due cfg w).
  - intros (l & _ & Hl & ->). pose proof (sim_level _ _ Hw).
    split_and!; [now apply Sim_ok_ramp|apply moves_ramp; [lia|done]|done].
  - intros ->. split_and!; [now apply Sim_ok_wait|apply moves_wait|done].
Qed.

Lemma Sim_ok_crystal c w :
  Sim_ok cfg w -> Crystal.type c ∈ crystalTypes cfg -> Crystal.t c = 0%Z ->
  Sim_ok cfg (crystal_world c w).
Proof.
  intros Hw Hty Ht. apply Sim_ok_add_crystals.
  - constructor; [|constructor]. split; [done|]. now rewrite Ht.
  - now apply Sim_ok_advance, (Sim_ok_timer _ (wait 2 w)), Sim_ok_wait.
Qed.

Lemma moves_crystal c w : moves cfg 0 0 0 w (crystal_world c w).
Proof.
  split; cbn; try (done || (intros; lia)).
  etrans; [apply (Env_later_clock 2)|apply Env_later_random].
Qed.

Lemma spawn_crystals_ok w :
  Sim_ok cfg w ->
  wp (spawn_crystals cfg)
     (fun _ w' => Sim_ok cfg w' /\ moves cfg 0 0 0 w w' /\ same_ship w w') w.
Proof.
  intros Hw. eapply wp_mono; [now apply spawn_crystals_spec, (sim_env cfg)|].
  intros [] w'; cbv beta. destruct (crystal_due cfg w).
  - intros (c & ? & ? & _ & _ & ->).
    split_and!; [now apply Sim_ok_crystal|apply moves_crystal|done].
  - intros ->. split_and!; [now apply Sim_ok_wait|apply moves_wait|done].
Qed.

Lemma particle_ok_update p :
  particle_ok p -> Particle.dead (Particle.update p) = false -> particle_ok (Particle.update p).
Proof. intros (_ & Ht & Hl) Hd. split_and!; [done|cbn; lia|done]. Qed.

Lemma Sim_ok_move sh w :
  Sim_ok cfg w -> Entities.ship (entities w) = Some sh -> Sim_ok cfg (move_world cfg sh w).
Proof.
  intros [? (sh' & Hs' & Hwf) Ha Hc Hp [] ? ? ? ? ?] Hs.
  assert (sh' = sh) as -> by congruence.
  split; cbn; try done.
  - eexists. split; [done|]. now apply Ship_update_wf.
  - apply Forall_fmap. eapply Forall_impl; [exact Ha|]. intros a [Hsz _].
    destruct (Asteroid_update_frame cfg (State.tick (STATE w)) a) as (Hsz' & _).
    split; [now rewrite Hsz'|]. apply Asteroid_update_band; [done|lra].
  - apply Forall_fmap. eapply Forall_impl; [exact Hc|]. intros c [Hty Ht].
    split; cbn; [done|lia].
  - apply Forall_filter_impl, Forall_fmap. eapply Forall_impl; [exact Hp|].
    intros p Hok Hd%negb_true_iff. now apply particle_ok_update.
Qed.

Lemma moves_move sh w : moves cfg 0 0 0 w (move_world cfg sh w).
Proof.
  apply moves_entities; try done. intros Hw. apply Forall_fmap.
  eapply Forall_impl; [exact Hw|]. intros a. apply asteroid_slow_update.
Qed.

(** *** Collisions *)

Lemma moves_hit sh ps w :
  State.running (STATE w) = true -> State.paused (STATE w) = false ->
  moves cfg 1 0 0 w (hit_world cfg sh ps w).
Proof.
  intros Hr Hp. split; unfold hit_world; cbn; try (done || lia).
  all: try (case_bool_decide; cbn; (done || lia)).
  apply Env_later_random.
Qed.

Lemma ship_asteroid_ok sb l sh w :
  Sim_ok cfg w -> Entities.ship (entities w) = Some sh ->
  State.running (STATE w) = true -> State.paused (STATE w) = false ->
  wp (ship_asteroid cfg sb l)
     (fun _ w' => Sim_ok cfg w' /\ moves cfg (if struck sb l sh then 1 else 0) 0 0 w w' /\
        Entities.ship (entities w') =
          Some (if struck sb l sh && bool_decide (1 < State.lives (STATE w))%Z
                then respawn cfg sh else sh)) w.
Proof.
  intros Hw Hs Hr Hp. unfold wp, struck. rewrite ship_asteroid_run.
  destruct (collides sb l); cbn [andb]; [|split_and!; [done|apply moves_refl|done]].
  case_bool_decide as Hinv; cbn [andb].
  - eapply wp_mono; [eapply Ship_hit_spec; [apply Hw|eassumption..]|].
    intros [] w' (ps & _ & Hps & ->).
    split_and!; [now apply Sim_ok_hit|now apply moves_hit|].
    unfold hit_world; cbn. now repeat case_bool_decide; try lia.
  - erewrite Ship_hit_skip; [|eassumption|lia].
    split_and!; [done|apply moves_refl|done].
Qed.

Lemma picked_points_nonneg sb cs :
  Forall (crystal_ok cfg) cs -> (0 <= sumZ points (picked sb cs))%Z.
Proof.
  intros Hc. apply sumZ_nonneg, Forall_filter_keep.
  eapply Forall_impl; [exact Hc|]. intros c [Hty _].
  now apply (crystalType_points_nonneg cfg).
Qed.

Lemma Sim_ok_collect sb n ps w :
  Sim_ok cfg w -> Forall particle_ok ps -> Sim_ok cfg (collect_world cfg sb n ps w).
Proof.
  intros [? ? ? Hc ? [] ? ? ? ? ?] Hps.
  pose proof (picked_points_nonneg sb _ (Forall_take _ n _ Hc)).
  split; unfold collect_world; cbn; try (done || lia).
  - now apply skip_random_ok.
  - apply Forall_app; split; [apply Forall_filter_keep, Forall_take|apply Forall_drop]; done.
  - now apply Forall_app.
  - destruct (picked _ _) eqn:E; [|done].
    autorewrite with game. now rewrite Z.add_0_r.
Qed.

Lemma moves_collect sb n ps w :
  Forall (crystal_ok cfg) (Entities.crystals (entities w)) ->
  moves cfg 0 0 0 w (collect_world cfg sb n ps w).
Proof.
  intros Hc.
  pose proof (picked_points_nonneg sb _ (Forall_take _ n _ Hc)).
  split; unfold collect_world; cbn; try (done || (intros; lia)).
  all: try (now destruct (picked _ _)).
  apply Env_later_random.
Qed.

Lemma ship_crystal_ok sb w :
  Sim_ok cfg w ->
  wp (ship_crystal cfg sb (length (Entities.crystals (entities w))))
     (fun _ w' => Sim_ok cfg w' /\ moves cfg 0 0 0 w w' /\ same_ship w w') w.
Proof.
  intros Hw. eapply wp_mono; [apply ship_crystal_spec; [apply Hw|done]|].
  intros [] w' (ps & _ & Hps & ->).
  split_and!; [now apply Sim_ok_collect|apply moves_collect, Hw|done].
Qed.

Lemma maintain_asteroids_ok w :
  Sim_ok cfg w ->
  wp (maintain_asteroids cfg)
     (fun _ w' => Sim_ok cfg w' /\ moves cfg 0 0 0 w w' /\ same_ship w w') w.
Proof.
  intros Hw. eapply wp_mono; [now apply maintain_asteroids_spec, (sim_env cfg)|].
  intros [] w'; cbv beta. destruct (below_target cfg w).
  - intros (a & Ha & ->). split_and!; [| |done].
    + apply Sim_ok_add_asteroids; [|now apply Sim_ok_advance].
      constructor; [|constructor]. now apply (fresh_asteroid_ok cfg true (State.level (STATE w))).
    + apply moves_entities; try done; [apply Env_later_random|].
      intros Hs. apply asteroids_slow_add; [|exact Hs]. constructor; [|constructor].
      apply (fresh_asteroid_slow cfg true); [|done]. pose proof (sim_level _ _ Hw). cbn. lia.
  - intros ->. split_and!; [done|apply moves_refl|done].
Qed.

(** *** The step *)

Lemma wp_move_bind {B} (k : M B) Q sh w :
  Entities.ship (entities w) = Some sh -> wp k Q (move_world cfg sh w) ->
  wp (update_entities cfg;; clean_particles;; k) Q w.
Proof. intros Hs Hk. unfold wp. comp_run. rewrite Hs. exact Hk. Qed.

(** The blocks up to [// Clean particles]: [w3] is the world they leave. *)
Lemma wp_simulate_bind {B} (k : M B) Q sh w :
  Sim_ok cfg w -> Entities.ship (entities w) = Some sh ->
  (forall w3, Sim_ok cfg w3 -> moves cfg 0 (if ramp_due cfg w then 1 else 0) 1 w w3 ->
     Entities.ship (entities w3) = Some (Ship.update cfg (keys w) sh) -> wp k Q w3) ->
  wp (modS (fun s => State.set_tick (State.tick s + 1) s);; difficulty_ramp cfg;;
      spawn_crystals cfg;; update_entities cfg;; clean_particles;; k) Q w.
Proof.
  intros Hw Hs Hk.
  apply wp_bind, wp_modify. pose proof (Sim_ok_tick _ Hw) as Hw0.
  pose proof (moves_tick w) as M0.
  apply wp_bind. eapply wp_mono; [apply difficulty_ramp_ok, Hw0|].
  intros [] w1 (Hw1 & M1 & S1). pose proof (moves_trans _ _ _ _ _ _ _ _ _ _ M0 M1) as M01.
  apply wp_bind. eapply wp_mono; [apply spawn_crystals_ok, Hw1|].
  intros [] w2 (Hw2 & M2 & S2). pose proof (moves_trans _ _ _ _ _ _ _ _ _ _ M01 M2) as M02.
  assert (Entities.ship (entities w2) = Some sh) as Hs2
    by (unfold same_ship in *; cbn in *; congruence).
  apply (wp_move_bind _ _ sh); [done|]. apply Hk.
  - now apply Sim_ok_move.
  - eapply moves_eq; [exact (moves_trans _ _ _ _ _ _ _ _ _ _ M02 (moves_move sh w2))|try lia..].
    change (ramp_due cfg (set_STATE _ w)) with (ramp_due cfg w). destruct (ramp_due cfg w); lia.
  - cbn. now rewrite (mv_keys _ _ _ _ _ _ M02).
Qed.

(** The blocks from [// Collisions: ship-asteroid] on. *)
Lemma resolve_ok sh w :
  Sim_ok cfg w -> Entities.ship (entities w) = Some sh ->
  State.running (STATE w) = true -> State.paused (STATE w) = false ->
  let hurt := struck (Ship.bounds sh) (Entities.asteroids (entities w)) sh in
  wp (ship ← getE Entities.ship;
      ship ← unwrap ship;
      let sb := Ship.bounds ship in
      asteroids ← getE Entities.asteroids;
      ship_asteroid cfg sb asteroids;;
      crystals ← getE Entities.crystals;
      ship_crystal cfg sb (length crystals);;
      maintain_asteroids cfg)
     (fun _ w' => Sim_ok cfg w' /\ moves cfg (if hurt then 1 else 0) 0 0 w w' /\
        Entities.ship (entities w') =
          Some (if hurt && bool_decide (1 < State.lives (STATE w))%Z
                then respawn cfg sh else sh)) w.
Proof.
  intros Hw Hs Hr Hp hurt. wp_draw. rewrite Hs. wp_draw. cbv zeta. wp_draw.
  apply wp_bind.
  eapply wp_mono; [now eapply (ship_asteroid_ok _ _ sh)|].
  intros [] w4 (Hw4 & M4 & S4).
  wp_draw. apply wp_bind. eapply wp_mono; [apply ship_crystal_ok, Hw4|].
  intros [] w5 (Hw5 & M5 & S5). pose proof (moves_trans _ _ _ _ _ _ _ _ _ _ M4 M5) as M45.
  eapply wp_mono; [apply maintain_asteroids_ok, Hw5|].
  intros [] w6 (Hw6 & M6 & S6). split_and!; [done| |].
  - eapply moves_eq; [exact (moves_trans _ _ _ _ _ _ _ _ _ _ M45 M6)|try lia..].
    subst hurt. destruct (struck _ _ _); lia.
  - subst hurt. unfold same_ship in *. congruence.
Qed.

(** A step of a running game that is not paused, [sh] being the ship: the
    world [w3] before the collisions are looked at, and the world after. *)
Lemma update_run dt sh w :
  Sim_ok cfg w -> Entities.ship (entities w) = Some sh ->
  State.running (STATE w) = true -> State.paused (STATE w) = false ->
  wp (update cfg dt)
     (fun _ w' => exists w3,
        let sh3 := Ship.update cfg (keys w) sh in
        let hurt := struck (Ship.bounds sh3) (Entities.asteroids (entities w3)) sh3 in
        Sim_ok cfg w3 /\ moves cfg 0 (if ramp_due cfg w then 1 else 0) 1 w w3 /\
        Sim_ok cfg w' /\ moves cfg (if hurt then 1 else 0) 0 0 w3 w' /\
        Entities.ship (entities w') =
          Some (if hurt && bool_decide (1 < State.lives (STATE w))%Z
                then respawn cfg sh3 else sh3)) w.
Proof.
  intros Hw Hs Hr Hp. unfold update. apply (wp_simulate_bind _ _ sh); [done..|].
  intros w3 Hw3 M3 Hs3. destruct (mv_flags _ _ _ _ _ _ M3 (or_introl eq_refl)) as [Hr3 _].
  pose proof (mv_paused _ _ _ _ _ _ M3) as Hp3. pose proof (mv_lives _ _ _ _ _ _ M3) as Hl3.
  eapply wp_mono; [apply (resolve_ok _ _ Hw3 Hs3); congruence|].
  intros [] w' (Hw' & M' & S'). exists w3. cbv zeta. split_and!; try done.
  rewrite S'. now replace (State.lives (STATE w3)) with (State.lives (STATE w)) by lia.
Qed.

(** *** What a step does *)


(** A step of a running game that is not paused keeps the invariant; it
    counts one tick, costs at most one life and raises the level by one
    exactly when the difficulty interval has passed. *)
Lemma update_moves dt w :
  Sim_ok cfg w -> State.running (STATE w) = true -> State.paused (STATE w) = false ->
  wp (update cfg dt)
     (fun _ w' => Sim_ok cfg w' /\
        exists dl, (dl = 0 \/ dl = 1)%Z /\
          moves cfg dl (if ramp_due cfg w then 1 else 0) 1 w w') w.
Proof.
  intros Hw Hr Hp. destruct (sim_ship _ _ Hw) as (sh & Hs & _).
  eapply wp_mono; [now apply (update_run dt sh)|].
  intros [] w' (w3 & _ & M3 & Hw' & M' & _). split; [done|].
  eexists. split;
    [|eapply moves_eq; [exact (moves_trans _ _ _ _ _ _ _ _ _ _ M3 M')|reflexivity|lia..]].
  destruct (struck _ _ _); lia.
Qed.

(** C8: a step keeps the world well formed: [update] on a running game
    that is not paused does not throw, and the world it leaves satisfies the
    invariant [Sim_ok] again: the ship exists inside the playfield, the
    asteroids have a positive size and are in the band of the wrap-around,
    the crystals are of the configured types, no particle is dead, the
    counters are in range and the HUD shows them.  The step also keeps the
    asteroids slow: if every asteroid had the size of a type of the table
    and was, along each axis, no faster than the base speed of this type
    plus 0.3 plus 0.1 per level, then this holds again of the asteroids and
    the level the step leaves. *)
Theorem update_well_formed dt w :
  Sim_ok cfg w -> State.running (STATE w) = true -> State.paused (STATE w) = false ->
  exists w', update cfg dt w = Ok tt w' /\ Sim_ok cfg w' /\
    (asteroids_slow cfg w -> asteroids_slow cfg w').
Proof.
  intros Hw Hr Hp.
  destruct (wp_inv _ _ _ (update_moves dt w Hw Hr Hp)) as ([] & w' & Hrun & Hw' & dl & _ & M).
  exists w'. split_and!; [done..|apply M].
Qed.

(** C1: a step of a running game that is not paused does not throw; it
    counts one tick, costs at most one life, never lowers the score, raises
    the level by one exactly when the difficulty interval has passed since the
    last level-up, and leaves the pause flag and the keys alone. *)
Theorem update_counters dt w :
  Sim_ok cfg w -> State.running (STATE w) = true -> State.paused (STATE w) = false ->
  wp (update cfg dt)
     (fun _ w' =>
        State.tick (STATE w') = (State.tick (STATE w) + 1)%Z /\
        (State.lives (STATE w) - 1 <= State.lives (STATE w') <= State.lives (STATE w))%Z /\
        (State.score (STATE w) <= State.score (STATE w'))%Z /\
        State.level (STATE w') = (State.level (STATE w) + if ramp_due cfg w then 1 else 0)%Z /\
        State.paused (STATE w') = false /\ keys w' = keys w) w.
Proof.
  intros Hw Hr Hp. eapply wp_mono; [now apply update_moves|].
  intros [] w' (_ & dl & Hdl & []). split_and!; (congruence || lia).
Qed.

(** C10: while the invulnerability counter of the ship is above 1 a step
    costs no life, whatever the asteroids do: the lives, the running and
    over flags and the game-over overlay are unchanged, and the ship is the
    one [Ship.update] leaves, its counter one lower. *)
Theorem update_invulnerable dt sh w :
  Sim_ok cfg w -> Entities.ship (entities w) = Some sh ->
  State.running (STATE w) = true -> State.paused (STATE w) = false ->
  (1 < Ship.inv sh)%Z ->
  wp (update cfg dt)
     (fun _ w' =>
        moves cfg 0 (if ramp_due cfg w then 1 else 0) 1 w w' /\
        Entities.ship (entities w') = Some (Ship.update cfg (keys w) sh) /\
        Ship.inv (Ship.update cfg (keys w) sh) = (Ship.inv sh - 1)%Z) w.
Proof.
  intros Hw Hs Hr Hp Hinv. eapply wp_mono; [now apply (update_run dt sh)|].
  intros [] w' (w3 & _ & M3 & _ & M' & S'). cbv zeta in *.
  assert (Ship.inv (Ship.update cfg (keys w) sh) = (Ship.inv sh - 1)%Z) as Hi.
  { rewrite update_inv. now rewrite bool_decide_eq_true_2 by lia. }
  unfold struck in *. rewrite (bool_decide_eq_false_2 (Ship.inv _ <= 0)%Z) in * by lia.
  rewrite andb_false_r in *. split_and!; [|done..].
  eapply moves_eq; [exact (moves_trans _ _ _ _ _ _ _ _ _ _ M3 M')|lia..].
Qed.

(** C17: a step in which the ship loses a life takes exactly one; if a
    life is left the game goes on with the ship at the start position and
    the invulnerability counter at [invFrames], otherwise the game is over
    and the game-over overlay is shown. *)
Theorem update_life_lost dt w :
  Sim_ok cfg w -> State.running (STATE w) = true -> State.paused (STATE w) = false ->
  wp (update cfg dt)
     (fun _ w' =>
        State.lives (STATE w') <> State.lives (STATE w) ->
        State.lives (STATE w') = (State.lives (STATE w) - 1)%Z /\
        if bool_decide (1 < State.lives (STATE w))%Z then
          State.running (STATE w') = true /\ State.over (STATE w') = false /\
          exists sh', Entities.ship (entities w') = Some sh' /\
            Ship.inv sh' = ship_invFrames (ship cfg) /\
            Ship.x sh' = width cfg / 2 /\ Ship.y sh' = height cfg * 0.75
        else
          State.running (STATE w') = false /\ State.over (STATE w') = true /\
          Dom.gameoverVisible (dom w') = true) w.
Proof.
  intros Hw Hr Hp. destruct (sim_ship _ _ Hw) as (sh & Hs & _).
  eapply wp_mono; [now apply (update_run dt sh)|].
  intros [] w' (w3 & _ & M3 & Hw' & M' & S'). cbv zeta in *.
  pose proof (moves_trans _ _ _ _ _ _ _ _ _ _ M3 M') as M.
  pose proof (mv_lives _ _ _ _ _ _ M) as Hl. intros Hne.
  destruct (struck _ _ _); [|lia]. split; [lia|]. cbn [andb] in S'.
  pose proof (over_stopped _ (sim_flags _ _ Hw)) as Ho.
  case_bool_decide.
  - destruct (mv_flags _ _ _ _ _ _ M) as (Hr' & Ho' & _); [lia|].
    split_and!; [congruence| |].
    { destruct (State.over (STATE w)); [specialize (Ho eq_refl)|]; congruence. }
    eexists. split; [exact S'|done].
  - pose proof (running_alive _ (sim_flags _ _ Hw) Hr).
    destruct (mv_over _ _ _ _ _ _ M) as (? & ? & ?); [lia..|done].
Qed.
End step.

(** ** The first step of a game *)

Section first_step.
Context (cfg : Config) `{!Config_ok cfg} `{MathLib}.

(** C19: [reset] sets the timer of the difficulty ramp to 0, while
    [performance.now] counts from the load of the page: the first step of a
    game that starts when the clock shows the difficulty interval or more
    raises the level to 2 at once. *)
Theorem first_step_levels_up dt l w0 :
  Env_ok (env w0) -> Forall (fresh_asteroid cfg true 1) l ->
  let w := exec start (reset_world cfg l w0) in
  difficultyIntervalMs cfg <= now1 w ->
  wp (update cfg dt)
     (fun _ w' => State.level (STATE w') = 2%Z /\ State.tick (STATE w') = 1%Z) w.
Proof.
  intros He Hl w Hnow. pose proof initialLives_pos.
  assert (Sim_ok cfg w) as Hw.
  { apply Sim_ok_start; [now apply Sim_ok_reset|done|cbn; lia]. }
  assert (ramp_due cfg w = true) as Hdue.
  { unfold ramp_due. apply bool_decide_eq_true.
    change (State.lastDifficultyMs (STATE w)) with 0. lra. }
  eapply wp_mono; [now apply update_moves|].
  intros [] w' (_ & dl & _ & M). rewrite Hdue in M.
  now rewrite (mv_level _ _ _ _ _ _ M), (mv_tick _ _ _ _ _ _ M).
Qed.
End first_step.
