(* ===== verification/Page.v ===== *)
(** * Page: the script's world together with the canvas element

    [canvas] ([game.js] line 27) is the element the script sizes
    ([resizeCanvas], lines 508-515), reads ([canvas.width] in the mouse
    listener and in [render]) and draws to through [ctx] (line 28).  A [Page]
    is the world of the script with this element; the handlers of the events,
    [render] and [loop] are computations on pages.

    [script m] runs a computation of the world on the page; [ctx f] is a call
    of a method of the drawing context, or an assignment to one of its
    properties. *)

From stdpp Require Import gmap strings.
From S2P Require Import Prelude Browser Config Geometry Entities World Canvas.

(** The canvas element: the size of its bitmap, the size of the element in
    CSS pixels and its drawing context. *)
Record Canvas : Type := mkCanvas {
  cv_width : Q;          (* canvas.width *)
  cv_height : Q;         (* canvas.height *)
  style_width : Q;       (* canvas.style.width, in px *)
  style_height : Q;      (* canvas.style.height, in px *)
  context : Ctx.t;       (* ctx *)
}.

Definition set_context (g : Ctx.t) (c : Canvas) : Canvas :=
  mkCanvas (cv_width c) (cv_height c) (style_width c) (style_height c) g.

Record Page : Type := mkPage {
  world : World;
  canvas : Canvas;
}.

Definition set_world (w : World) (p : Page) : Page := mkPage w (canvas p).
Definition set_canvas (c : Canvas) (p : Page) : Page := mkPage (world p) c.

(** Computations of the handlers. *)
Abbreviation P := (Comp Page).

(** A computation of the script run on the page. *)
Definition script {A} (m : M A) : P A := zoom world set_world m.

(** A call of the drawing context. *)
Definition ctx (f : Ctx.t -> Ctx.t) : P unit :=
  modify (fun p => set_canvas (set_context (f (context (canvas p))) (canvas p)) p).

(** The page with [f] applied to its drawing context. *)
Definition drawn (f : Ctx.t -> Ctx.t) (p : Page) : Page :=
  set_canvas (set_context (f (context (canvas p))) (canvas p)) p.

#[export] Hint Unfold script ctx : comp.

Section page.
Implicit Types (p : Page) (w : World) (c : Canvas) (g : Ctx.t).

Lemma ctx_run f p : ctx f p = Ok tt (drawn f p).
Proof. reflexivity. Qed.

Lemma wp_ctx f (Q : unit -> Page -> Prop) p : Q tt (drawn f p) -> wp (ctx f) Q p.
Proof. done. Qed.

Lemma wp_ctx_bind {B} f (k : unit -> P B) Q p :
  wp (k tt) Q (drawn f p) -> wp (ctx f ≫= k) Q p.
Proof. intros Hk. now apply wp_bind, wp_ctx. Qed.

(** A computation of the script reads and writes the world only. *)
Lemma script_run {A} (m : M A) p a w' :
  m (world p) = Ok a w' -> script m p = Ok a (set_world w' p).
Proof. unfold script, zoom. now intros ->. Qed.

Lemma wp_script {A} (m : M A) (Q : A -> Page -> Prop) p :
  wp m (fun a w' => Q a (set_world w' p)) (world p) -> wp (script m) Q p.
Proof. apply wp_zoom. Qed.

(** Reading the world from the page. *)
Lemma wp_script_gets_bind {A B} (f : World -> A) (k : A -> P B) Q p :
  wp (k (f (world p))) Q p -> wp (script (gets f) ≫= k) Q p.
Proof. intros Hk. apply wp_bind, wp_zoom, wp_gets. now destruct p. Qed.

Lemma throws_script_gets {A B} (f : World -> A) (k : A -> P B) e p :
  k (f (world p)) p = Throw e -> (script (gets f) ≫= k) p = Throw e.
Proof. destruct p. now intros <-. Qed.

Lemma drawn_world f p : world (drawn f p) = world p.
Proof. done. Qed.

Lemma drawn_context f p : context (canvas (drawn f p)) = f (context (canvas p)).
Proof. done. Qed.

Lemma drawn_drawn f f' p : drawn f' (drawn f p) = drawn (fun g => f' (f g)) p.
Proof. done. Qed.

Lemma drawn_id p : drawn (fun g => g) p = p.
Proof. by destruct p as [w [ ]]. Qed.

Lemma drawn_ext f f' p :
  f (context (canvas p)) = f' (context (canvas p)) -> drawn f p = drawn f' p.
Proof. unfold drawn. now intros ->. Qed.

Lemma set_world_drawn w f p : set_world w (drawn f p) = drawn f (set_world w p).
Proof. done. Qed.
End page.

(** ** Calls of the context that can raise an exception *)

(** [ctx.ellipse(x, y, radiusX, radiusY, rotation, startAngle, endAngle)]
    raises an IndexSizeError for a negative radius. *)
Definition ctx_ellipse (x y rx ry rotation a0 a1 : Q) : P unit :=
  if ((rx <? 0) || (ry <? 0))%js then throw IndexSizeError
  else ctx (Ctx.ellipse x y rx ry rotation a0 a1).

(** [ctx.createRadialGradient(x0, y0, r0, x1, y1, r1)] raises an
    IndexSizeError for a negative radius. *)
Definition createRadialGradient (x0 y0 r0 x1 y1 r1 : Q) : P Ctx.Style :=
  if ((r0 <? 0) || (r1 <? 0))%js then throw IndexSizeError
  else mret (Ctx.RadialGradient x0 y0 r0 x1 y1 r1 []).

Section page_calls.
Implicit Types (p : Page).

Lemma ctx_ellipse_run x y rx ry rotation a0 a1 p :
  0 <= rx -> 0 <= ry ->
  ctx_ellipse x y rx ry rotation a0 a1 p = Ok tt (drawn (Ctx.ellipse x y rx ry rotation a0 a1) p).
Proof.
  intros Hx Hy. unfold ctx_ellipse.
  rewrite !bool_decide_eq_false_2 by lra. reflexivity.
Qed.

Lemma ctx_ellipse_negative x y rx ry rotation a0 a1 p :
  rx < 0 \/ ry < 0 -> ctx_ellipse x y rx ry rotation a0 a1 p = Throw IndexSizeError.
Proof.
  intros Hr. unfold ctx_ellipse.
  destruct Hr; [rewrite (bool_decide_eq_true_2 (rx < 0)) by done|
                rewrite (bool_decide_eq_true_2 (ry < 0)), orb_true_r by done]; reflexivity.
Qed.

Lemma createRadialGradient_run x0 y0 r0 x1 y1 r1 p :
  0 <= r0 -> 0 <= r1 ->
  createRadialGradient x0 y0 r0 x1 y1 r1 p = Ok (Ctx.RadialGradient x0 y0 r0 x1 y1 r1 []) p.
Proof.
  intros H0 H1. unfold createRadialGradient.
  rewrite !bool_decide_eq_false_2 by lra. reflexivity.
Qed.
End page_calls.

(** ** Running drawing code

    While a [draw] method runs, the page is [drawn F (set_world w p)]: the
    calls of the context made so far compose to [F], and [w] is the world
    after the reads of the random tape made so far.  The rules below run one
    statement from a page of this form. *)

Section run_draw.
Implicit Types (p : Page) (w : World) (F f : Ctx.t -> Ctx.t).

Lemma wp_draw_start {A} (m : P A) Q p :
  wp m Q (drawn (fun g => g) (set_world (world p) p)) -> wp m Q p.
Proof. now destruct p as [w [ ]]. Qed.

Lemma wp_draw_ctx {B} f F (k : unit -> P B) Q w p :
  wp (k tt) Q (drawn (fun g => f (F g)) (set_world w p)) ->
  wp (ctx f ≫= k) Q (drawn F (set_world w p)).
Proof. intros Hk. now apply wp_bind, wp_ctx. Qed.

Lemma wp_draw_ctx_last f F (Q : unit -> Page -> Prop) w p :
  Q tt (drawn (fun g => f (F g)) (set_world w p)) ->
  wp (ctx f) Q (drawn F (set_world w p)).
Proof. done. Qed.

Lemma wp_draw_when {B} (c : bool) f F (k : unit -> P B) Q w p :
  wp (k tt) Q (drawn (fun g => (if c then f else fun g => g) (F g)) (set_world w p)) ->
  wp (when c (ctx f) ≫= k) Q (drawn F (set_world w p)).
Proof. intros Hk. apply wp_bind. now destruct c. Qed.

Lemma wp_draw_gets {A B} (f : World -> A) F (k : A -> P B) Q w p :
  wp (k (f w)) Q (drawn F (set_world w p)) ->
  wp (script (gets f) ≫= k) Q (drawn F (set_world w p)).
Proof. intros Hk. now apply wp_bind, wp_zoom, wp_gets. Qed.

Lemma wp_draw_random {B} F (k : Q -> P B) Q w p :
  wp (k (random_tape (env w) (random_pos (env w)))) Q (drawn F (set_world (advance 1 w) p)) ->
  wp (script (browser random) ≫= k) Q (drawn F (set_world w p)).
Proof. intros Hk. now apply wp_bind, wp_zoom. Qed.

Lemma wp_draw_canvas {B} F (k : Canvas -> P B) Q w p :
  wp (k (set_context (F (context (canvas p))) (canvas p))) Q (drawn F (set_world w p)) ->
  wp (gets canvas ≫= k) Q (drawn F (set_world w p)).
Proof. intros Hk. now apply wp_bind, wp_gets. Qed.

Lemma wp_draw_gradient {B} x0 y0 r0 x1 y1 r1 (k : Ctx.Style -> P B) Q p :
  0 <= r0 -> 0 <= r1 ->
  wp (k (Ctx.RadialGradient x0 y0 r0 x1 y1 r1 [])) Q p ->
  wp (createRadialGradient x0 y0 r0 x1 y1 r1 ≫= k) Q p.
Proof.
  intros H0 H1 Hk. apply wp_bind. unfold wp at 1. now rewrite createRadialGradient_run.
Qed.

Lemma wp_draw_ellipse {B} x y rx ry rotation a0 a1 F (k : unit -> P B) Q w p :
  0 <= rx -> 0 <= ry ->
  wp (k tt) Q (drawn (fun g => Ctx.ellipse x y rx ry rotation a0 a1 (F g)) (set_world w p)) ->
  wp (ctx_ellipse x y rx ry rotation a0 a1 ≫= k) Q (drawn F (set_world w p)).
Proof.
  intros Hx Hy Hk. apply wp_bind. unfold wp at 1. now rewrite ctx_ellipse_run.
Qed.
End run_draw.

(** [draw_step] runs the next statement of a drawing computation. *)
Ltac draw_step :=
  lazymatch goal with
  | |- wp (ctx _ ≫= _) _ _ => apply wp_draw_ctx
  | |- wp (ctx _) _ _ => apply wp_draw_ctx_last
  | |- wp (when _ (ctx _) ≫= _) _ _ => apply wp_draw_when
  | |- wp (script (gets _) ≫= _) _ _ => apply wp_draw_gets
  | |- wp (script (getS _) ≫= _) _ _ => apply wp_draw_gets
  | |- wp (script (getE _) ≫= _) _ _ => apply wp_draw_gets
  | |- wp (script (browser random) ≫= _) _ _ => apply wp_draw_random
  | |- wp (ctx_ellipse _ _ _ _ _ _ _ ≫= _) _ _ => apply wp_draw_ellipse; [try lra..|]
  | |- wp (gets canvas ≫= _) _ _ => apply wp_draw_canvas
  | |- wp (createRadialGradient _ _ _ _ _ _ ≫= _) _ _ => apply wp_draw_gradient; [try lra..|]
  end.
Ltac draw_run := apply wp_draw_start; repeat draw_step.

(** ** What a drawing computation did to the page

    [paints n l p p']: from [p] to [p'] the world made [n] draws from the
    random tape and is otherwise unchanged, the canvas kept its size, the
    drawing state and the stack of saved states are as they were, and the
    shapes [l] were painted, in this order, over what was there. *)

Record paints (n : nat) (l : list Ctx.Paint) (p p' : Page) : Prop := {
  pt_world : world p' = advance n (world p);
  pt_canvas : canvas p' = set_context (context (canvas p')) (canvas p);
  pt_pen : Ctx.pen (context (canvas p')) = Ctx.pen (context (canvas p));
  pt_stack : Ctx.stack (context (canvas p')) = Ctx.stack (context (canvas p));
  pt_painted : Ctx.painted (context (canvas p')) = Ctx.painted (context (canvas p)) ++ l;
}.

Section paints.
Implicit Types (p : Page) (l : list Ctx.Paint) (F : Ctx.t -> Ctx.t).

Lemma paints_refl p : paints 0 [] p p.
Proof.
  split; [now rewrite advance_0|by destruct p as [w [ ]]|done..|now rewrite app_nil_r].
Qed.

Lemma paints_trans n1 n2 l1 l2 p p' p'' :
  paints n1 l1 p p' -> paints n2 l2 p' p'' -> paints (n2 + n1) (l1 ++ l2) p p''.
Proof.
  intros [Hw1 Hc1 Hp1 Hs1 Hl1] [Hw2 Hc2 Hp2 Hs2 Hl2]. split.
  - now rewrite Hw2, Hw1, advance_add.
  - rewrite Hc2, Hc1. done.
  - congruence.
  - congruence.
  - now rewrite Hl2, Hl1, app_assoc.
Qed.

(** The page a drawing computation ends in, from the facts about the calls
    it made. *)
Lemma paints_drawn n l F p :
  let g := context (canvas p) in
  Ctx.pen (F g) = Ctx.pen g -> Ctx.stack (F g) = Ctx.stack g ->
  Ctx.painted (F g) = Ctx.painted g ++ l ->
  paints n l p (drawn F (set_world (advance n (world p)) p)).
Proof. intros g Hp Hs Hl. split; done. Qed.

Lemma paints_drawn0 l F p :
  let g := context (canvas p) in
  Ctx.pen (F g) = Ctx.pen g -> Ctx.stack (F g) = Ctx.stack g ->
  Ctx.painted (F g) = Ctx.painted g ++ l ->
  paints 0 l p (drawn F (set_world (world p) p)).
Proof. intros g Hp Hs Hl. split; try done. cbn. now rewrite advance_0. Qed.

Lemma paints_eq n n' l l' p p' : paints n l p p' -> n = n' -> l = l' -> paints n' l' p p'.
Proof. now intros H -> ->. Qed.

(** A loop that paints one layer per element paints the layers in the
    order of the list. *)
Lemma paints_for_each {A} (R : A -> list Ctx.Paint -> Prop) (body : A -> P unit) n
    (xs : list A) p :
  (forall a p', a ∈ xs -> (exists m k, paints m k p p') ->
     wp (body a) (fun _ p'' => exists l, paints n l p' p'' /\ R a l) p') ->
  wp (for_each xs body)
     (fun _ p' => exists ls, paints (n * length xs) (concat ls) p p' /\ Forall2 R xs ls) p.
Proof.
  intros Hbody.
  apply (wp_for_each (fun pre p' => exists ls,
           paints (n * length pre) (concat ls) p p' /\ Forall2 R pre ls)).
  - exists []. split; [|constructor]. rewrite Nat.mul_0_r. apply paints_refl.
  - intros pre a p' [post ->] (ls & Hp & Hls).
    eapply wp_mono; [apply Hbody; [set_solver|eauto]|].
    intros [] p'' (l' & Hl' & HR). exists (ls ++ [l']). split.
    + eapply paints_eq; [exact (paints_trans _ _ _ _ _ _ _ Hp Hl')|..].
      * rewrite length_app. cbn. lia.
      * rewrite concat_app. cbn. now rewrite app_nil_r.
    + apply Forall2_app; [done|]. now repeat constructor.
Qed.

End paints.

(** ** Sizing the canvas *)

(** The value a size attribute of the canvas takes: a number is converted
    to an unsigned integer, which drops the fraction.  The reduction modulo
    2^32 of a larger number and the default taken for a negative one are
    left out: the script assigns a playfield extent times a ratio in
    [(0, 2]]. *)
Definition to_ulong (v : Q) : Q := inject_Z (Qfloor v).

(** [canvas.width = v] and [canvas.height = v]: the bitmap is replaced and
    the drawing context is reset, whatever the old size was. *)
Definition set_cv_width (v : Q) (c : Canvas) : Canvas :=
  mkCanvas (to_ulong v) (cv_height c) (style_width c) (style_height c) Ctx.blank.
Definition set_cv_height (v : Q) (c : Canvas) : Canvas :=
  mkCanvas (cv_width c) (to_ulong v) (style_width c) (style_height c) Ctx.blank.

(** [canvas.style.width = v + "px"] and [canvas.style.height = v + "px"] *)
Definition set_style_width (v : Q) (c : Canvas) : Canvas :=
  mkCanvas (cv_width c) (cv_height c) v (style_height c) (context c).
Definition set_style_height (v : Q) (c : Canvas) : Canvas :=
  mkCanvas (cv_width c) (cv_height c) (style_width c) v (context c).
