(* ===== verification/Draw.v ===== *)
(** * Draw: the [draw] methods and [render]

    [Ship.draw] ([game.js] lines 127-171), [Asteroid.draw] (218-240),
    [Crystal.draw] (258-288), [Particle.draw] (304-312) and [render]
    (476-505), call by call.  A method of [ctx] is [ctx (Ctx.method ...)],
    a read of a global is [script (gets ...)]; [Asteroid.draw] calls
    [Math.random] once per vertex.

    Theorems: every [draw] leaves the drawing state and the stack of saved
    states as it found them and paints a known number of shapes; the ship is
    painted dimmed while it blinks; a particle is painted with its opacity
    and a dead one is not painted; the vertices of an asteroid lie within
    0.94 of its size from its centre; [render] does not throw on a world
    that satisfies the invariant, paints the layers in the order crystals,
    asteroids, ship, particles, and changes nothing of the world but the
    position in the random tape; without a ship it throws a TypeError. *)

From stdpp Require Import gmap strings pretty.
From S2P Require Import Prelude Browser Config Geometry Entities World Canvas.
From S2P Require Import Spawner Flow Invariant Page.

Section draw.
Context (cfg : Config) `{MathLib}.

(** ** [Ship.draw] *)

(** The condition of [if (this.inv > 0 && this.blink < 5)]. *)
Definition blinking (this : Ship.obj) : bool :=
  bool_decide (0 < Ship.inv this)%Z && bool_decide (Ship.blink this < 5)%Z.

(** The method [draw(ctx)] of [Ship]. *)
Definition Ship_draw (this : Ship.obj) : P unit :=
  let s := Ship.size this in
  ctx Ctx.save;;
  ctx (Ctx.translate (Ship.x this) (Ship.y this));;
  mouse ← script (gets mouse);
  ctx (Ctx.rotate (Math_atan2 (mouse.2 - Ship.y this) (mouse.1 - Ship.x this) + Math_PI / 2));;
  when (blinking this) (ctx (Ctx.set_globalAlpha 0.4));;
  (* Glow *)
  ctx (Ctx.set_shadowColor "#7af0ff");;
  ctx (Ctx.set_shadowBlur 12);;
  (* Body *)
  ctx (Ctx.set_fillStyle (Ctx.Color "#1a234a"));;
  ctx (Ctx.set_strokeStyle "#7af0ff");;
  ctx (Ctx.set_lineWidth 2);;
  ctx Ctx.beginPath;;
  ctx (Ctx.moveTo 0 (- s));;
  ctx (Ctx.lineTo (s * 0.7) s);;
  ctx (Ctx.lineTo 0 (s * 0.6));;
  ctx (Ctx.lineTo (- s * 0.7) s);;
  ctx Ctx.closePath;;
  ctx Ctx.fill;;
  ctx Ctx.stroke;;
  (* Cockpit *)
  ctx (Ctx.set_shadowBlur 0);;
  let grad := Ctx.createLinearGradient 0 (- s) 0 s in
  let grad := Ctx.addColorStop 0 "#9be7ff" grad in
  let grad := Ctx.addColorStop 1 "#3b6bb8" grad in
  ctx (Ctx.set_fillStyle grad);;
  ctx Ctx.beginPath;;
  ctx_ellipse 0 (- s * 0.3) (s * 0.25) (s * 0.35) 0 0 (Math_PI * 2);;
  ctx Ctx.fill;;
  (* Thruster *)
  tick ← script (getS State.tick);
  let flame := Math_sin (inject_Z tick / 5) * 4 + 8 in
  let thrGrad := Ctx.createLinearGradient 0 (s * 0.6) 0 (s * 0.6 + flame) in
  let thrGrad := Ctx.addColorStop 0 "#7af0ff" thrGrad in
  let thrGrad := Ctx.addColorStop 1 "#00ffc6" thrGrad in
  ctx (Ctx.set_fillStyle thrGrad);;
  ctx Ctx.beginPath;;
  ctx (Ctx.moveTo (- s * 0.2) (s * 0.6));;
  ctx (Ctx.lineTo 0 (s * 0.6 + flame));;
  ctx (Ctx.lineTo (s * 0.2) (s * 0.6));;
  ctx Ctx.closePath;;
  ctx Ctx.fill;;
  ctx Ctx.restore.

(** ** [Asteroid.draw] *)

(** A number in a template string; [undefined] when [choice] found
    nothing. *)
Definition interpolate (o : option Z) : string :=
  match o with Some n => pretty n | None => "undefined" end.

(** The body of the loop over the vertices, at index [i]. *)
Definition Asteroid_vertex (this : Asteroid.obj) (i : Z) : P unit :=
  let s := Asteroid.size this in
  let verts := 10 in
  let ang := inject_Z i / verts * Math_PI * 2 in
  r ← script (browser random);
  let rad := s * (0.7 + Math_sin (inject_Z i * 1.7 + Asteroid.phase this) * 0.18 + r * 0.06) in
  let px := Math_cos ang * rad in
  let py := Math_sin ang * rad in
  if bool_decide (i = 0)%Z then ctx (Ctx.moveTo px py) else ctx (Ctx.lineTo px py).

(** The method [draw(ctx)] of [Asteroid]. *)
Definition Asteroid_draw (this : Asteroid.obj) : P unit :=
  ctx Ctx.save;;
  ctx (Ctx.translate (Asteroid.x this) (Asteroid.y this));;
  ctx (Ctx.rotate (Asteroid.rot this));;
  (* rocky polygon *)
  ctx (Ctx.set_fillStyle (Ctx.Color
         ("hsl(" +:+ interpolate (Asteroid.hue this) +:+ " 30% "
                 +:+ interpolate (Asteroid.light this) +:+ "%)")));;
  ctx (Ctx.set_strokeStyle "rgba(255,255,255,0.12)");;
  ctx (Ctx.set_lineWidth 1);;
  ctx Ctx.beginPath;;
  for_each (seqZ 0 10) (Asteroid_vertex this);;
  ctx Ctx.closePath;;
  ctx Ctx.fill;;
  ctx Ctx.stroke;;
  ctx Ctx.restore.

(** ** [Crystal.draw] *)

Definition colorMap : gmap string string :=
  {[ "blue" := "#6ecbff"; "purple" := "#b08cff"; "green" := "#6bffc6" ]}.
Definition glowMap : gmap string string :=
  {[ "blue" := "#82e6ff"; "purple" := "#d3b6ff"; "green" := "#9effe0" ]}.

(** The method [draw(ctx)] of [Crystal].  [map[key] || "#9ff"]: the entry
    of the map, or the fallback for a key that is not in it. *)
Definition Crystal_draw (this : Crystal.obj) : P unit :=
  ctx Ctx.save;;
  ctx (Ctx.translate (Crystal.x this) (Crystal.y this));;
  ctx (Ctx.rotate (Crystal.rot this));;
  let s := ct_size (Crystal.type this) in
  ctx (Ctx.set_shadowColor (default "#9ff" (glowMap !! ct_color (Crystal.type this))));;
  ctx (Ctx.set_shadowBlur 12);;
  ctx (Ctx.set_fillStyle (Ctx.Color (default "#9ff" (colorMap !! ct_color (Crystal.type this)))));;
  ctx (Ctx.set_strokeStyle "rgba(255,255,255,.25)");;
  ctx (Ctx.set_lineWidth 1);;
  ctx Ctx.beginPath;;
  (* diamond shape *)
  ctx (Ctx.moveTo 0 (- s));;
  ctx (Ctx.lineTo (s * 0.7) (- s * 0.2));;
  ctx (Ctx.lineTo 0 s);;
  ctx (Ctx.lineTo (- s * 0.7) (- s * 0.2));;
  ctx Ctx.closePath;;
  ctx Ctx.fill;;
  ctx Ctx.stroke;;
  (* inner shine *)
  ctx (Ctx.set_shadowBlur 0);;
  ctx (Ctx.set_globalAlpha 0.6);;
  ctx (Ctx.set_fillStyle (Ctx.Color "#fff"));;
  ctx Ctx.beginPath;;
  ctx_ellipse 0 (- s * 0.5) (s * 0.25) (s * 0.12) 0 0 (Math_PI * 2);;
  ctx Ctx.fill;;
  ctx (Ctx.set_globalAlpha 1);;
  ctx Ctx.restore.

(** ** [Particle.draw] *)

(** The method [draw(ctx)] of [Particle]. *)
Definition Particle_draw (this : Particle.obj) : P unit :=
  let a := Particle.alpha this in
  if (a <=? 0)%js then mret tt
  else
    ctx Ctx.save;;
    ctx (Ctx.set_globalAlpha a);;
    ctx (Ctx.set_fillStyle (Ctx.Color (Particle.color this)));;
    ctx (Ctx.fillRect (Particle.x this) (Particle.y this)
                      (Particle.size this) (Particle.size this));;
    ctx Ctx.restore.

(** ** [render] *)

(** [// Clear] and [// Subtle vignette] *)
Definition clear_canvas : P unit :=
  cv ← gets canvas;
  ctx (Ctx.clearRect 0 0 (cv_width cv) (cv_height cv));;
  g ← createRadialGradient
         (width cfg / 2) (height cfg * 0.6) 50
         (width cfg / 2) (height cfg / 2) (Qmax (width cfg) (height cfg) * 0.8);
  let g := Ctx.addColorStop 0 "rgba(10,14,40,0)" g in
  let g := Ctx.addColorStop 1 "rgba(7,7,18,0.45)" g in
  ctx (Ctx.set_fillStyle g);;
  cv ← gets canvas;
  ctx (Ctx.fillRect 0 0 (cv_width cv) (cv_height cv)).

(** [// Draw order: crystals, asteroids, ship, particles on top] *)
Definition draw_entities : P unit :=
  crystals ← script (getE Entities.crystals);
  for_each crystals Crystal_draw;;
  asteroids ← script (getE Entities.asteroids);
  for_each asteroids Asteroid_draw;;
  ship ← script (getE Entities.ship);
  ship ← unwrap ship;
  Ship_draw ship;;
  particles ← script (getE Entities.particles);
  for_each particles Particle_draw.

(** [// Pause overlay hint text inside canvas] *)
Definition draw_pause_hint : P unit :=
  paused ← script (getS State.paused);
  over ← script (getS State.over);
  when (paused && negb over) (
    ctx Ctx.save;;
    ctx (Ctx.set_fillStyle (Ctx.Color "rgba(200,230,255,.85)"));;
    ctx (Ctx.set_font "700 28px Inter, sans-serif");;
    ctx (Ctx.set_textAlign "center");;
    ctx (Ctx.fillText "Paused" (width cfg / 2) (height cfg / 2));;
    ctx Ctx.restore).

(** [function render()] *)
Definition render : P unit :=
  clear_canvas;;
  draw_entities;;
  draw_pause_hint.
End draw.

(** ** What the [draw] methods paint *)

Section draw_facts.
Context (cfg : Config) `{!Config_ok cfg} `{MathLib}.
Implicit Types (p : Page) (l : list Ctx.Paint) (pen : Ctx.Pen).

(** The drawing state of a page. *)
Definition pen_of p : Ctx.Pen := Ctx.pen (context (canvas p)).

(** [draw_done] proves that the page a [draw] method ends in differs from
    the one it started from by the shapes painted. *)
Ltac draw_done := apply paints_drawn0; cbn [context canvas]; ctx_eval; reflexivity.

(** The page with the fields of its drawing state named. *)
Ltac open_page p :=
  destruct p as [?w [?cw ?ch ?sw ?sh [ [?tr ?al ?fs ?ss ?lw ?sc ?sb ?fo ?ta] ?st ?pa ?pt] ] ].

(** *** Particles *)

(** The rectangle [Particle.draw] paints. *)
Definition Particle_layer (q : Particle.obj) pen : list Ctx.Paint :=
  [Ctx.FilledRect
     (Ctx.with_fill (Ctx.Color (Particle.color q)) (Ctx.with_alpha (Particle.alpha q) pen))
     (Particle.x q) (Particle.y q) (Particle.size q) (Particle.size q)].

(** A particle of the list is alive, so its opacity is in [(0, 1]]. *)
Lemma particle_ok_alpha q : particle_ok q -> 0 < Particle.alpha q /\ Particle.alpha q <= 1.
Proof.
  intros (Hd & Ht & _). apply Bool.not_true_iff_false in Hd. rewrite Particle_dead_spec in Hd.
  assert (0 <= inject_Z (Particle.t q)) by now apply inject_Z_nonneg.
  assert (0 < Particle.life q) by lra.
  assert (inject_Z (Particle.t q) / Particle.life q < 1) by now apply Qlt_shift_div_r; lra.
  assert (0 <= inject_Z (Particle.t q) / Particle.life q) by now apply Qle_shift_div_l; lra.
  unfold Particle.alpha. lra.
Qed.

Lemma Particle_draw_visible q p :
  0 < Particle.alpha q -> Particle.alpha q <= 1 ->
  wp (Particle_draw q) (fun _ p' => paints 0 (Particle_layer q (pen_of p)) p p') p.
Proof.
  intros Ha0 Ha1. unfold Particle_draw. rewrite bool_decide_eq_false_2 by lra.
  open_page p. draw_run. draw_done.
Qed.

(** A particle whose opacity is not positive is not painted: the page is
    unchanged. *)
Lemma Particle_draw_hidden q p : Particle.alpha q <= 0 -> Particle_draw q p = Ok tt p.
Proof. intros Ha. unfold Particle_draw. now rewrite bool_decide_eq_true_2. Qed.

(** *** Crystals *)

(** The shapes [Crystal.draw] paints: the diamond, filled and stroked at
    the opacity of the context, and the shine at 0.6. *)
Record Crystal_layer (c : Crystal.obj) pen l : Prop := {
  cl_opacity : Ctx.opacity <$> l = [Some (Ctx.globalAlpha pen); Some (Ctx.globalAlpha pen); Some 0.6];
  cl_placed : Ctx.placed <$> l =
    replicate 3 (Ctx.transform pen ++ [Ctx.Translate (Crystal.x c) (Crystal.y c);
                                        Ctx.Rotate (Crystal.rot c)]);
  cl_fill : Ctx.filled_with <$> l =
    [Some (Ctx.Color (default "#9ff" (colorMap !! ct_color (Crystal.type c))));
     Some (Ctx.Color (default "#9ff" (colorMap !! ct_color (Crystal.type c))));
     Some (Ctx.Color "#fff")];
  cl_outline : let s := ct_size (Crystal.type c) in
    Ctx.outline <$> l =
    [Some [(0, - s); (s * 0.7, - s * 0.2); (0, s); (- s * 0.7, - s * 0.2)];
     Some [(0, - s); (s * 0.7, - s * 0.2); (0, s); (- s * 0.7, - s * 0.2)];
     Some []];
}.

Lemma Crystal_draw_spec c p :
  0 <= ct_size (Crystal.type c) ->
  wp (Crystal_draw c) (fun _ p' => exists l, paints 0 l p p' /\ Crystal_layer c (pen_of p) l) p.
Proof.
  intros Hs. unfold Crystal_draw. open_page p. draw_run.
  eexists. split; [draw_done|]. split; reflexivity.
Qed.

(** *** The ship *)

(** The angle by which [Ship.draw] rotates the ship: towards the mouse. *)
Definition aim (m : Q * Q) (this : Ship.obj) : Q :=
  Math_atan2 (m.2 - Ship.y this) (m.1 - Ship.x this) + Math_PI / 2.

(** The height of the flame of the thruster at a tick. *)
Definition flame (tick : Z) : Q := Math_sin (inject_Z tick / 5) * 4 + 8.

(** The shapes [Ship.draw] paints: the hull, filled and stroked, the
    cockpit and the flame, all dimmed to 0.4 while the ship blinks. *)
Record Ship_layer (m : Q * Q) (tick : Z) (this : Ship.obj) pen l : Prop := {
  sl_opacity : Ctx.opacity <$> l =
    replicate 4 (Some (if blinking this then 0.4 else Ctx.globalAlpha pen));
  sl_placed : Ctx.placed <$> l =
    replicate 4 (Ctx.transform pen ++ [Ctx.Translate (Ship.x this) (Ship.y this);
                                        Ctx.Rotate (aim m this)]);
  sl_outline : let s := Ship.size this in
    Ctx.outline <$> l =
    [Some [(0, - s); (s * 0.7, s); (0, s * 0.6); (- s * 0.7, s)];
     Some [(0, - s); (s * 0.7, s); (0, s * 0.6); (- s * 0.7, s)];
     Some [];
     Some [(- s * 0.2, s * 0.6); (0, s * 0.6 + flame tick); (s * 0.2, s * 0.6)]];
}.

Lemma Ship_draw_spec this p :
  0 <= Ship.size this ->
  wp (Ship_draw this)
     (fun _ p' => exists l, paints 0 l p p' /\
        Ship_layer (mouse (world p)) (State.tick (STATE (world p))) this (pen_of p) l) p.
Proof.
  intros Hs. unfold Ship_draw. open_page p. draw_run.
  destruct (blinking this) eqn:Hb; (eexists; split; [draw_done|split; rewrite ?Hb; reflexivity]).
Qed.


(** *** Asteroids *)

(** The vertex [Asteroid.draw] computes at index [i] from the draw [r]. *)
Definition corner (this : Asteroid.obj) (i : Z) (r : Q) : Q * Q :=
  let s := Asteroid.size this in
  let ang := inject_Z i / 10 * Math_PI * 2 in
  let rad := s * (0.7 + Math_sin (inject_Z i * 1.7 + Asteroid.phase this) * 0.18 + r * 0.06) in
  (Math_cos ang * rad, Math_sin ang * rad).

(** The [n] draws that follow in the random tape. *)
Definition draws (e : Env) (n : nat) : list Q :=
  (fun k => random_tape e (k + random_pos e)%nat) <$> seq 0 n.

(** The distance of a vertex from the centre is between 0.52 and 0.94 of
    the size, so both coordinates are within 0.94 of the size. *)
Definition near (d : Q) (xy : Q * Q) : Prop := Qabs xy.1 <= d /\ Qabs xy.2 <= d.

Lemma corner_near this i r :
  0 <= Asteroid.size this -> 0 <= r -> r < 1 ->
  near (Asteroid.size this * 0.94) (corner this i r).
Proof.
  intros Hs Hr0 Hr1. unfold near, corner. cbn [fst snd].
  set (rad := Asteroid.size this * _).
  pose proof (Math_sin_range (inject_Z i * 1.7 + Asteroid.phase this)) as [Hp0 Hp1].
  assert (0 <= rad /\ rad <= Asteroid.size this * 0.94) as [Hrad0 Hrad1] by (subst rad; split; nra).
  pose proof (Math_cos_range (inject_Z i / 10 * Math_PI * 2)) as [Hc0 Hc1].
  pose proof (Math_sin_range (inject_Z i / 10 * Math_PI * 2)) as [Hs0 Hs1].
  split; apply Qabs_case; intros _; nra.
Qed.

Lemma wp_draw_vertex {B} this i F (k : unit -> P B) Q w p :
  let r := random_tape (env w) (random_pos (env w)) in
  wp (k tt) Q (drawn (fun g => (if bool_decide (i = 0)%Z
                                then Ctx.moveTo (corner this i r).1 (corner this i r).2
                                else Ctx.lineTo (corner this i r).1 (corner this i r).2) (F g))
                 (set_world (advance 1 w) p)) ->
  wp (Asteroid_vertex this i ≫= k) Q (drawn F (set_world w p)).
Proof.
  intros r Hk. apply wp_bind. unfold Asteroid_vertex. apply wp_draw_random. fold r.
  destruct (bool_decide (i = 0)%Z); exact Hk.
Qed.

(** The shapes [Asteroid.draw] paints: a polygon of ten vertices, filled
    and stroked, each vertex computed from one draw of the random tape. *)
Record Asteroid_layer (e : Env) (this : Asteroid.obj) pen l : Prop := {
  al_opacity : Ctx.opacity <$> l = replicate 2 (Some (Ctx.globalAlpha pen));
  al_placed : Ctx.placed <$> l =
    replicate 2 (Ctx.transform pen ++ [Ctx.Translate (Asteroid.x this) (Asteroid.y this);
                                        Ctx.Rotate (Asteroid.rot this)]);
  al_outline : Ctx.outline <$> l =
    replicate 2 (Some (zip_with (corner this) (seqZ 0 10) (draws e 10)));
}.

Lemma Asteroid_draw_spec this p :
  wp (Asteroid_draw this)
     (fun _ p' => exists l, paints 10 l p p' /\
        Asteroid_layer (env (world p)) this (pen_of p) l) p.
Proof.
  unfold Asteroid_draw. open_page p. apply wp_draw_start. do 7 draw_step.
  change (seqZ 0 10) with [0; 1; 2; 3; 4; 5; 6; 7; 8; 9]%Z.
  do 10 (apply wp_for_each_cons; apply wp_draw_vertex; cbn zeta).
  apply wp_for_each_nil. repeat draw_step.
  rewrite !advance_add. cbn [Nat.add].
  eexists. split.
  - apply paints_drawn; cbn [context canvas]; ctx_eval; reflexivity.
  - split; try reflexivity.
Qed.

(** *** The blocks of [render] *)

(** A page that differs from [p] by what drawing code did. *)
Definition later p p' : Prop := exists n l, paints n l p p'.

Lemma later_refl p : later p p.
Proof. exists 0%nat, []. apply paints_refl. Qed.

Lemma paints_later n l p p' : paints n l p p' -> later p p'.
Proof. intros Hp. now exists n, l. Qed.

Lemma later_trans p p' p'' : later p p' -> later p' p'' -> later p p''.
Proof. intros (? & ? & H1) (? & ? & H2). eapply paints_later, paints_trans; eauto. Qed.

#[export] Instance later_preorder : PreOrder later.
Proof. split; [exact later_refl|exact later_trans]. Qed.

Lemma later_pen p p' : later p p' -> pen_of p' = pen_of p.
Proof. intros (n & l & Hp). apply Hp. Qed.

Lemma later_world p p' : later p p' -> exists n, world p' = advance n (world p).
Proof. intros (n & l & Hp). exists n. apply Hp. Qed.

Lemma later_entities p p' : later p p' -> entities (world p') = entities (world p).
Proof. intros (n & Hw)%later_world. now rewrite Hw. Qed.

Lemma later_STATE p p' : later p p' -> STATE (world p') = STATE (world p).
Proof. intros (n & Hw)%later_world. now rewrite Hw. Qed.

Lemma later_mouse p p' : later p p' -> mouse (world p') = mouse (world p).
Proof. intros (n & Hw)%later_world. now rewrite Hw. Qed.

(** The gradient of the vignette. *)
Definition vignette : Ctx.Style :=
  Ctx.RadialGradient (width cfg / 2) (height cfg * 0.6) 50
                     (width cfg / 2) (height cfg / 2) (Qmax (width cfg) (height cfg) * 0.8)
                     [(0, "rgba(10,14,40,0)"); (1, "rgba(7,7,18,0.45)")].

(** The page after the canvas was cleared and the vignette painted. *)
Definition cleared p : Page :=
  let cv := canvas p in
  drawn (fun g => Ctx.fillRect 0 0 (cv_width cv) (cv_height cv)
                    (Ctx.set_fillStyle vignette
                       (Ctx.clearRect 0 0 (cv_width cv) (cv_height cv) g))) p.

Lemma clear_canvas_run p : clear_canvas cfg p = Ok tt (cleared p).
Proof.
  apply wp_eq. unfold clear_canvas. pose proof (width_pos cfg).
  pose proof (Q.le_max_l (width cfg) (height cfg)).
  open_page p. draw_run. reflexivity.
Qed.

(** The crystals, in the order of the list. *)
Lemma draw_crystals_spec cs p :
  Forall (crystal_ok cfg) cs ->
  wp (for_each cs Crystal_draw)
     (fun _ p' => exists ls, paints 0 (concat ls) p p' /\
        Forall2 (fun c l => Crystal_layer c (pen_of p) l) cs ls) p.
Proof.
  intros Hcs.
  eapply wp_mono; [apply (paints_for_each (fun c l => Crystal_layer c (pen_of p) l) _ 0)|].
  - intros c p' Hc Hp'. eapply wp_mono; [apply Crystal_draw_spec|].
    + apply (proj1 (Forall_forall _ _) Hcs) in Hc as [Ht _].
      apply (proj1 (Forall_forall _ _) crystal_points) in Ht. lra.
    + intros [] p'' (l & Hl & HL). exists l. now rewrite <- (later_pen _ _ Hp').
  - now intros [] p' (ls & Hp & Hls); exists ls.
Qed.

(** The asteroids: ten draws each. *)
Lemma draw_asteroids_spec (rocks : list Asteroid.obj) p :
  wp (for_each rocks Asteroid_draw)
     (fun _ p' => exists ls, paints (10 * length rocks) (concat ls) p p' /\
        Forall2 (fun a k => exists n,
                   Asteroid_layer (skip_random n (env (world p))) a (pen_of p) k) rocks ls) p.
Proof.
  apply (paints_for_each (fun a k => exists n,
           Asteroid_layer (skip_random n (env (world p))) a (pen_of p) k)).
  intros a p' _ Hp'. eapply wp_mono; [apply Asteroid_draw_spec|].
  intros [] p'' (k & Hk & HL). exists k. split; [done|].
  destruct (later_world _ _ Hp') as (n & Hw). exists n.
  now rewrite Hw, (later_pen _ _ Hp') in HL.
Qed.

(** The particles: one rectangle each, since none of the list is dead. *)
Lemma draw_particles_spec ps p :
  Forall particle_ok ps ->
  wp (for_each ps Particle_draw)
     (fun _ p' => exists ls, paints 0 (concat ls) p p' /\
        Forall2 (fun q l => l = Particle_layer q (pen_of p)) ps ls) p.
Proof.
  intros Hps.
  eapply wp_mono; [apply (paints_for_each (fun q l => l = Particle_layer q (pen_of p)) _ 0)|].
  - intros q p' Hq Hp'. apply (proj1 (Forall_forall _ _) Hps) in Hq.
    destruct (particle_ok_alpha q Hq).
    eapply wp_mono; [now apply Particle_draw_visible|].
    intros [] p'' Hl. eexists. split; [exact Hl|]. now rewrite (later_pen _ _ Hp').
  - now intros [] p' (ls & Hp & Hls); exists ls.
Qed.

(** What [draw_entities] paints from a world: the layers of the crystals,
    of the asteroids, of the ship and of the particles, in this order. *)
Definition scene (w : World) pen l : Prop :=
  exists lc la ls lp sh,
    l = concat lc ++ concat la ++ ls ++ concat lp /\
    Forall2 (fun c k => Crystal_layer c pen k) (Entities.crystals (entities w)) lc /\
    Forall2 (fun a k => exists n, Asteroid_layer (skip_random n (env w)) a pen k)
            (Entities.asteroids (entities w)) la /\
    Entities.ship (entities w) = Some sh /\
    Ship_layer (mouse w) (State.tick (STATE w)) sh pen ls /\
    Forall2 (fun q k => k = Particle_layer q pen) (Entities.particles (entities w)) lp.

Lemma draw_entities_spec p :
  Sim_ok cfg (world p) ->
  wp draw_entities
     (fun _ p' => exists l,
        paints (10 * length (Entities.asteroids (entities (world p)))) l p p' /\
        scene (world p) (pen_of p) l) p.
Proof.
  intros Hw. destruct (sim_ship _ _ Hw) as (sh & Hsh & Hwf). unfold draw_entities.
  apply wp_script_gets_bind, wp_bind.
  eapply wp_mono; [apply draw_crystals_spec, Hw|]. intros [] p1 (lc & H1 & Hlc).
  assert (later p p1) as L1 by (red; eauto).
  apply wp_script_gets_bind, wp_bind. rewrite (later_entities _ _ L1).
  eapply wp_mono; [apply draw_asteroids_spec|]. intros [] p2 (la & H2 & Hla).
  pose proof (paints_trans _ _ _ _ _ _ _ H1 H2) as H12.
  assert (later p p2) as L2 by (red; eauto).
  apply wp_script_gets_bind. rewrite (later_entities _ _ L2), Hsh.
  apply wp_bind, wp_ret, wp_bind.
  eapply wp_mono; [apply Ship_draw_spec; rewrite (Ship.wf_size _ _ Hwf); pose proof ship_size_pos; lra|].
  intros [] p3 (ls & H3 & Hls). pose proof (paints_trans _ _ _ _ _ _ _ H12 H3) as H123.
  assert (later p p3) as L3 by (red; eauto).
  apply wp_script_gets_bind. rewrite (later_entities _ _ L3).
  eapply wp_mono; [apply draw_particles_spec, Hw|]. intros [] p4 (lp & H4 & Hlp).
  eexists. split; [eapply paints_eq; [exact (paints_trans _ _ _ _ _ _ _ H123 H4)|lia|]|].
  { rewrite <- !app_assoc. reflexivity. }
  exists lc, la, ls, lp, sh. split_and!; try done.
  - eapply Forall2_impl; [exact Hla|]. intros a k (n & Hk).
    destruct (later_world _ _ L1) as (n1 & Hw1). exists (n + n1)%nat.
    now rewrite Hw1, (later_pen _ _ L1) in Hk; cbn in Hk; rewrite skip_random_add in Hk.
  - now rewrite (later_mouse _ _ L2), (later_STATE _ _ L2), (later_pen _ _ L2) in Hls.
  - now rewrite (later_pen _ _ L3) in Hlp.
Qed.

(** The drawing state of the hint and the text, painted while the game is
    paused and not over. *)
Definition pause_text (w : World) pen : list Ctx.Paint :=
  if State.paused (STATE w) && negb (State.over (STATE w)) then
    [Ctx.Text (Ctx.with_textAlign "center"
                 (Ctx.with_font "700 28px Inter, sans-serif"
                    (Ctx.with_fill (Ctx.Color "rgba(200,230,255,.85)") pen)))
              "Paused" (width cfg / 2) (height cfg / 2)]
  else [].

Lemma draw_pause_hint_spec p :
  wp (draw_pause_hint cfg) (fun _ p' => paints 0 (pause_text (world p) (pen_of p)) p p') p.
Proof.
  unfold draw_pause_hint, pause_text. do 2 apply wp_script_gets_bind.
  destruct (State.paused _ && negb _); cbn [when]; [|apply paints_refl].
  open_page p. draw_run. draw_done.
Qed.

(** *** [render] *)

(** What [clear_canvas] paints: the cleared rectangle and the vignette,
    both of the size of the bitmap, in the coordinates of the context. *)
Definition background p : list Ctx.Paint :=
  let cv := canvas p in
  [Ctx.Cleared (Ctx.transform (pen_of p)) 0 0 (cv_width cv) (cv_height cv);
   Ctx.FilledRect (Ctx.with_fill vignette (pen_of p)) 0 0 (cv_width cv) (cv_height cv)].

(** A frame was rendered from [p] to [p']. *)
Record rendered p p' : Prop := {
  rd_world : world p' = advance (10 * length (Entities.asteroids (entities (world p)))) (world p);
  rd_canvas : canvas p' = set_context (context (canvas p')) (canvas p);
  rd_pen : pen_of p' = Ctx.with_fill vignette (pen_of p);
  rd_stack : Ctx.stack (context (canvas p')) = Ctx.stack (context (canvas p));
  rd_painted : exists l,
    Ctx.painted (context (canvas p')) =
      Ctx.painted (context (canvas p)) ++ background p ++ l
        ++ pause_text (world p) (Ctx.with_fill vignette (pen_of p)) /\
    scene (world p) (Ctx.with_fill vignette (pen_of p)) l;
}.

Lemma rendered_cleared n l p p' :
  paints n l (cleared p) p' ->
  world p' = advance n (world p) /\
  canvas p' = set_context (context (canvas p')) (canvas p) /\
  pen_of p' = Ctx.with_fill vignette (pen_of p) /\
  Ctx.stack (context (canvas p')) = Ctx.stack (context (canvas p)) /\
  Ctx.painted (context (canvas p')) = Ctx.painted (context (canvas p)) ++ background p ++ l.
Proof.
  intros [Hw Hc Hp Hs Hl]. unfold pen_of. rewrite Hw, Hp, Hs, Hl. split_and!.
  all: try done. open_page p. unfold cleared, background, pen_of, drawn.
  cbn [context canvas set_canvas set_context cv_width cv_height]. ctx_eval.
  reflexivity.
Qed.

Lemma cleared_pen p : pen_of (cleared p) = Ctx.with_fill vignette (pen_of p).
Proof. now open_page p. Qed.

Lemma pause_text_later p p' pen : later p p' -> pause_text (world p') pen = pause_text (world p) pen.
Proof. intros L. unfold pause_text. now rewrite (later_STATE _ _ L). Qed.

Lemma render_spec p : Sim_ok cfg (world p) -> wp (render cfg) (fun _ p' => rendered p p') p.
Proof.
  intros Hw. unfold render. apply wp_bind. eapply wp_ok; [apply clear_canvas_run|].
  apply wp_bind. eapply wp_mono; [now apply draw_entities_spec|].
  intros [] p1 (l & H1 & Hl). assert (later (cleared p) p1) as L1 by (red; eauto).
  eapply wp_mono; [apply draw_pause_hint_spec|]. intros [] p2 H2.
  destruct (rendered_cleared _ _ _ _ (paints_trans _ _ _ _ _ _ _ H1 H2)) as (? & ? & ? & ? & Hp).
  rewrite (pause_text_later _ _ _ L1), (later_pen _ _ L1) in Hp.
  rewrite cleared_pen in *. change (world (cleared p)) with (world p) in *.
  split; try done. now exists l.
Qed.

(** ** What rendering promises *)

Lemma draws_range e n : Env_ok e -> Forall (fun r => 0 <= r /\ r < 1) (draws e n).
Proof.
  intros He. unfold draws. apply Forall_fmap, Forall_forall. intros k _. apply (random_range _ He).
Qed.

Lemma corners_near this (ixs : list Z) rs :
  0 <= Asteroid.size this -> Forall (fun r => 0 <= r /\ r < 1) rs ->
  Forall (near (Asteroid.size this * 0.94)) (zip_with (corner this) ixs rs).
Proof.
  intros Hs Hrs. revert ixs.
  induction Hrs as [|r rs [? ?] _ IH]; intros [|i ixs]; cbn; constructor; auto using corner_near.
Qed.

(** C9: [render] on a world that satisfies the invariant does not throw
    and paints, over what the bitmap held, the cleared rectangle and the
    vignette, then the crystals, the asteroids, the ship and the particles
    in this order, then the text "Paused" while the game is paused and not
    over; every shape of an entity is placed at the position and under the
    rotation of the entity. *)
Theorem render_paints p :
  Sim_ok cfg (world p) ->
  exists p' l,
    render cfg p = Ok tt p' /\
    scene (world p) (Ctx.with_fill vignette (pen_of p)) l /\
    Ctx.painted (context (canvas p')) =
      Ctx.painted (context (canvas p)) ++ background p ++ l
        ++ pause_text (world p) (Ctx.with_fill vignette (pen_of p)).
Proof.
  intros Hw. destruct (wp_inv _ _ _ (render_spec p Hw)) as ([] & p' & Hrun & [_ _ _ _ (l & Hl & Hsc)]).
  now exists p', l.
Qed.

(** C20: [render] reads the simulation and writes the canvas only: the
    state, the entities, the keys, the mouse, the page and the frame time
    are as before, the size of the canvas and its saved drawing states are
    as before; the position in the tape of [Math.random] has moved by ten
    for each asteroid. *)
Theorem render_read_only p :
  Sim_ok cfg (world p) ->
  exists p', render cfg p = Ok tt p' /\
    let w := world p in let w' := world p' in
    STATE w' = STATE w /\ entities w' = entities w /\ keys w' = keys w /\
    mouse w' = mouse w /\ dom w' = dom w /\ lastTime w' = lastTime w /\
    env w' = skip_random (10 * length (Entities.asteroids (entities w))) (env w) /\
    cv_width (canvas p') = cv_width (canvas p) /\ cv_height (canvas p') = cv_height (canvas p) /\
    Ctx.stack (context (canvas p')) = Ctx.stack (context (canvas p)).
Proof.
  intros Hw. destruct (wp_inv _ _ _ (render_spec p Hw)) as ([] & p' & Hrun & [Hw' Hc _ Hs _]).
  exists p'. split; [done|]. cbv zeta. rewrite Hw', Hc. now split_and!.
Qed.

(** C30: [Ship.draw] paints four shapes, the hull filled and stroked, the
    cockpit and the flame, rotated towards the mouse around the position of
    the ship; while the ship is invulnerable all four are painted at opacity
    0.4 during the first five of every ten frames and at the opacity of the
    context during the other five; the drawing state and the stack of saved
    states are left as they were. *)
Theorem Ship_draw_paints this p :
  0 <= Ship.size this ->
  exists p' l, Ship_draw this p = Ok tt p' /\ paints 0 l p p' /\
    Ship_layer (mouse (world p)) (State.tick (STATE (world p))) this (pen_of p) l.
Proof.
  intros Hs. destruct (wp_inv _ _ _ (Ship_draw_spec this p Hs)) as ([] & p' & Hrun & l & Hl & HL).
  now exists p', l.
Qed.

(** C31: [Asteroid.draw] reads [Math.random] ten times and paints one
    polygon, filled and stroked, of ten vertices, each within 0.94 of the
    size of the asteroid from its centre in both coordinates; the drawing
    state and the stack of saved states are left as they were. *)
Theorem Asteroid_draw_within this p :
  Env_ok (env (world p)) -> 0 <= Asteroid.size this ->
  exists p' l vs, Asteroid_draw this p = Ok tt p' /\ paints 10 l p p' /\
    Ctx.outline <$> l = [Some vs; Some vs] /\ length vs = 10%nat /\
    Forall (near (Asteroid.size this * 0.94)) vs.
Proof.
  intros He Hs.
  destruct (wp_inv _ _ _ (Asteroid_draw_spec this p)) as ([] & p' & Hrun & l & Hl & [_ _ Ho]).
  exists p', l, (zip_with (corner this) (seqZ 0 10) (draws (env (world p)) 10)).
  split_and!; [done..|]. now apply corners_near, draws_range.
Qed.

(** C32: [render()] before [reset] has created the ship throws a
    TypeError, whatever asteroids there are and for crystals that satisfy
    the invariant: the call [entities.ship.draw] is made on [null]. *)
Theorem render_without_ship p :
  Entities.ship (entities (world p)) = None ->
  Forall (crystal_ok cfg) (Entities.crystals (entities (world p))) ->
  render cfg p = Throw TypeError.
Proof.
  intros Hs Hcs. unfold render. rewrite (bind_ok _ _ _ _ _ (clear_canvas_run p)).
  apply bind_throw. unfold draw_entities. apply throws_script_gets, throws_bind.
  eapply wp_mono; [now apply draw_crystals_spec|].
  intros [] p1 (ls & L1%paints_later & _). apply throws_script_gets, throws_bind.
  eapply wp_mono; [now apply draw_asteroids_spec|].
  intros [] p2 (la & L2%paints_later & _). pose proof (later_trans _ _ _ L1 L2) as L.
  apply throws_script_gets. rewrite (later_entities _ _ L).
  change (world (cleared p)) with (world p). now rewrite Hs.
Qed.
End draw_facts.
