(* ===== verification/Frame.v ===== *)
(** * Frame: the animation-frame callback

    [loop] ([game.js] lines 418-424) records the time of the frame, runs
    [update] when the game is running and not paused, and renders.  The
    request for the next frame is the event [Frame] of file [Machine].

    Theorems: a frame never throws on a world that satisfies the invariant
    and keeps it; it simulates exactly one step when the game is running and
    not paused and none otherwise; it always renders, and rendering changes
    nothing of the world but the position in the random tape. *)

From stdpp Require Import gmap strings pretty.
From S2P Require Import Prelude Browser Config Geometry Entities World Canvas.
From S2P Require Import Spawner Flow Invariant Update Step Page Draw.

Section frame.
Context (cfg : Config) `{MathLib}.

(** [function loop(now)], without the request for the next frame. *)
Definition loop (now : Q) : P unit :=
  lastTime ← script (gets lastTime);
  let dt := now - lastTime in
  script (modify (set_lastTime now));;
  paused ← script (getS State.paused);
  running ← script (getS State.running);
  when (negb paused && running) (script (update cfg dt));;
  render cfg.
End frame.

Section frame_facts.
Context (cfg : Config) `{!Config_ok cfg} `{MathLib}.
Implicit Types (p : Page) (w : World).

(** The condition under which [loop] calls [update]. *)
Definition simulating w : bool := negb (State.paused (STATE w)) && State.running (STATE w).

(** The page with the time of the frame recorded. *)
Definition timed (now : Q) p : Page := set_world (set_lastTime now (world p)) p.

(** A frame that does not simulate renders the page as it is. *)
Lemma loop_idle_run now p :
  simulating (world p) = false -> loop cfg now p = render cfg (timed now p).
Proof.
  intros Hg. destruct p as [w c]. unfold simulating in Hg. cbn [world] in Hg.
  unfold loop, timed, mbind, Comp_bind, bind, script, zoom, getS, gets, modify.
  cbn [world set_world STATE set_lastTime]. now rewrite Hg.
Qed.

(** A frame that simulates renders the page [update] leaves. *)
Lemma loop_step_run now p w1 :
  simulating (world p) = true ->
  update cfg (now - lastTime (world p)) (set_lastTime now (world p)) = Ok tt w1 ->
  loop cfg now p = render cfg (set_world w1 p).
Proof.
  intros Hg Hu. destruct p as [w c]. unfold simulating in Hg. cbn [world] in Hg, Hu.
  unfold loop, mbind, Comp_bind, bind, script, zoom, getS, gets, modify.
  cbn [world set_world STATE set_lastTime]. rewrite Hg. cbn [when]. unfold zoom.
  cbn [world set_world]. now rewrite Hu.
Qed.

(** Rendering keeps the invariant of the world and moves nothing. *)
Lemma Sim_ok_rendered p p' : Sim_ok cfg (world p) -> rendered cfg p p' -> Sim_ok cfg (world p').
Proof. intros Hw [-> _ _ _ _]. now apply Sim_ok_advance. Qed.

Lemma moves_rendered p p' : rendered cfg p p' -> moves cfg 0 0 0 (world p) (world p').
Proof. intros [-> _ _ _ _]. apply moves_entities; try done. apply Env_later_random. Qed.

(** What a frame does: it simulates one step or none, to a world [w1], and
    renders it. *)
Lemma loop_spec now p :
  Sim_ok cfg (world p) ->
  wp (loop cfg now)
     (fun _ p' => exists w1 dl dv,
        rendered cfg (set_world w1 p) p' /\ Sim_ok cfg w1 /\ lastTime w1 = now /\
        (dl = 0 \/ dl = 1)%Z /\ (dv = 0 \/ dv = 1)%Z /\
        moves cfg dl dv (if simulating (world p) then 1 else 0) (set_lastTime now (world p)) w1) p.
Proof.
  intros Hw. assert (Sim_ok cfg (set_lastTime now (world p))) as Hw0 by (destruct Hw; split; done).
  destruct (simulating (world p)) eqn:Hg.
  - pose proof Hg as [Hp%negb_true_iff Hr]%andb_prop.
    destruct (wp_inv _ _ _ (update_moves cfg (now - lastTime (world p)) _ Hw0 Hr Hp))
      as ([] & w1 & Hu & Hw1 & dl & Hdl & M1).
    unfold wp. rewrite (loop_step_run now p w1 Hg Hu).
    eapply wp_mono; [now apply render_spec|]. intros [] p' Hr'.
    exists w1, dl, (if ramp_due cfg (world p) then 1 else 0)%Z.
    split_and!; [done..|now rewrite (mv_lastTime _ _ _ _ _ _ M1)|done|
                 destruct (ramp_due cfg (world p)); auto|exact M1].
  - unfold wp. rewrite (loop_idle_run now p Hg).
    eapply wp_mono; [now apply render_spec|]. intros [] p' Hr'.
    exists (set_lastTime now (world p)), 0%Z, 0%Z. split_and!; try done; try lia. apply moves_refl.
Qed.

(** A frame keeps the invariant; it records the frame time, counts a tick
    exactly when the game is running and not paused, and costs at most one
    life. *)
Lemma loop_moves now p :
  Sim_ok cfg (world p) ->
  wp (loop cfg now)
     (fun _ p' => Sim_ok cfg (world p') /\ lastTime (world p') = now /\
        exists dl dv, (dl = 0 \/ dl = 1)%Z /\ (dv = 0 \/ dv = 1)%Z /\
          moves cfg dl dv (if simulating (world p) then 1 else 0)
                (set_lastTime now (world p)) (world p')) p.
Proof.
  intros Hw. eapply wp_mono; [now apply loop_spec|].
  intros [] p' (w1 & dl & dv & Hr & Hw1 & Ht & Hdl & Hdv & M).
  pose proof (moves_rendered _ _ Hr) as M'. cbn [world set_world] in M'.
  split_and!; [exact (Sim_ok_rendered (set_world w1 p) _ Hw1 Hr)|
              now rewrite (mv_lastTime _ _ _ _ _ _ M')|].
  exists dl, dv. split_and!; [done..|].
  eapply moves_eq; [exact (moves_trans _ _ _ _ _ _ _ _ _ _ M M')|lia..].
Qed.

(** C29: a frame while the game is paused or not running simulates
    nothing: [loop] records the frame time and renders; [STATE], the
    entities, the keys and the page are unchanged and only the random tape
    has been read, ten times per asteroid. *)
Theorem loop_idle now p :
  Sim_ok cfg (world p) -> simulating (world p) = false ->
  exists p', loop cfg now p = Ok tt p' /\
    let w := world p in let w' := world p' in
    STATE w' = STATE w /\ entities w' = entities w /\ dom w' = dom w /\
    keys w' = keys w /\ lastTime w' = now /\
    env w' = skip_random (10 * length (Entities.asteroids (entities w))) (env w).
Proof.
  intros Hw Hg. assert (Sim_ok cfg (world (timed now p))) as Hw0 by (destruct Hw; split; done).
  destruct (wp_inv _ _ _ (render_spec cfg _ Hw0)) as ([] & p' & Hrun & [Hw' _ _ _ _]).
  exists p'. rewrite (loop_idle_run now p Hg). split; [done|]. cbv zeta. now rewrite Hw'.
Qed.
End frame_facts.
