(* ===== verification/Machine.v ===== *)
(** * Machine: the page as a machine driven by events

    The script registers handlers for key, mouse, click and resize events and
    for the animation frame ([game.js] lines 57-64, 319-324, 412-414, 418-424,
    508-522).  Here each handler is a computation, an [Event] names a call of
    one of them, [boot] is the top level of the script, and [step] is the
    relation "the handler of this event takes the page from here to there".

    Two properties of the browser that are not in [game.js] are recorded in
    [enabled]: a click is possible only on a button that is shown, and the
    pixel ratio the window reports is not negative.

    Theorems: [boot] and every handler keep [Page_ok], so every reachable
    page satisfies it and no handler throws; between two events the drawing
    context is in its base state; the mouse position is kept in pixels of
    the bitmap. *)

From stdpp Require Import gmap strings pretty.
From S2P Require Import Prelude Browser Config Geometry Entities World Canvas Spawner Flow.
From S2P Require Import Invariant Update Step Page Draw Frame.

(** The result of [canvas.getBoundingClientRect()]. *)
Record Rect : Type := mkRect {
  rect_left : Q;
  rect_top : Q;
  rect_width : Q;
  rect_height : Q;
}.

(** The events the script listens to, with the data the handlers read. *)
Inductive Event : Type :=
  | KeyDown (key code : string)                (* e.key, e.code *)
  | KeyUp (code : string)
  | MouseMove (rect : Rect) (clientX clientY : Q)
  | ClickPlay
  | ClickResume
  | ClickRestart
  | Resize (devicePixelRatio : option Q)       (* [None]: undefined *)
  | Frame (now : Q).

Section machine.
Context (cfg : Config) `{MathLib}.

(** The [keydown] listener; [e.preventDefault()] has no effect on the
    world. *)
Definition on_keydown (key code : string) : M unit :=
  modify (fun w => set_keys ({[code]} ∪ keys w) w);;
  when (bool_decide (code = "Space")) togglePause;;
  over ← getS State.over;
  when (bool_decide (code = "Enter") && over) (restart cfg).

(** The [keyup] listener. *)
Definition on_keyup (code : string) : M unit :=
  modify (fun w => set_keys (keys w ∖ {[code]}) w).

(** The [mousemove] listener.  A canvas without extent gives a division by
    zero, whose result is not a rational number. *)
Definition on_mousemove (rect : Rect) (clientX clientY : Q) : P unit :=
  cv ← gets canvas;
  if (rect_width rect =? 0)%js || (rect_height rect =? 0)%js then throw NotANumber
  else
    let scaleX := cv_width cv / rect_width rect in
    let scaleY := cv_height cv / rect_height rect in
    script (modify (set_mouse ((clientX - rect_left rect) * scaleX,
                               (clientY - rect_top rect) * scaleY))).

(** [Math.min(window.devicePixelRatio || 1, 2)] *)
Definition pixel_ratio (devicePixelRatio : option Q) : Q :=
  let d := match devicePixelRatio with
           | Some d => if (d =? 0)%js then 1 else d
           | None => 1
           end in
  Qmin d 2.

(** [function resizeCanvas()] *)
Definition resizeCanvas (devicePixelRatio : option Q) : P unit :=
  let dpr := pixel_ratio devicePixelRatio in
  modify (fun p => set_canvas (set_cv_width (width cfg * dpr) (canvas p)) p);;
  modify (fun p => set_canvas (set_cv_height (height cfg * dpr) (canvas p)) p);;
  modify (fun p => set_canvas (set_style_width (width cfg) (canvas p)) p);;
  modify (fun p => set_canvas (set_style_height (height cfg) (canvas p)) p);;
  ctx (Ctx.setTransform dpr 0 0 dpr 0 0).

(** The listener of [btnPlay]. *)
Definition on_play : M unit := reset cfg;; start.

(** [let lastTime = performance.now();] *)
Definition lastTime_init : M unit :=
  now ← browser performanceNow;
  modify (set_lastTime now).

(** The statements of the top level of the script that have an effect, in
    the order of the source: [lastTime] is initialised (line 417), the
    canvas is sized (517), the game is reset (520) and the menu is shown
    (521).  The first frame (522) is an event. *)
Definition boot (devicePixelRatio : option Q) : P unit :=
  script lastTime_init;;
  resizeCanvas devicePixelRatio;;
  script (reset cfg);;
  script (modD (Dom.set_menuVisible true)).

(** The handler of an event. *)
Definition handle (e : Event) : P unit :=
  match e with
  | KeyDown key code => script (on_keydown key code)
  | KeyUp code => script (on_keyup code)
  | MouseMove rect x y => on_mousemove rect x y
  | ClickPlay => script on_play
  | ClickResume => script togglePause
  | ClickRestart => script (restart cfg)
  | Resize d => resizeCanvas d
  | Frame now => loop cfg now
  end.

(** The pixel ratio a window reports is not negative. *)
Definition ratio_ok (devicePixelRatio : option Q) : bool :=
  match devicePixelRatio with
  | Some d => (0 <=? d)%js
  | None => true
  end.

(** What the browser guarantees of an event: a button can be clicked when
    the overlay that holds it is shown, and the pixel ratio is not
    negative. *)
Definition enabled (e : Event) (p : Page) : bool :=
  match e with
  | ClickPlay => Dom.menuVisible (dom (world p))
  | ClickResume => Dom.pauseVisible (dom (world p))
  | ClickRestart => Dom.gameoverVisible (dom (world p))
  | Resize d => ratio_ok d
  | _ => true
  end.

(** The page when the script starts, given the browser and the canvas
    element. *)
Definition fresh (e : Env) (cv : Canvas) : Page :=
  {| world := initial cfg e; canvas := cv |}.

(** One event: its handler runs to completion. *)
Inductive step : Page -> Event -> Page -> Prop :=
  | step_handle e p p' :
      enabled e p = true -> handle e p = Ok tt p' -> step p e p'.

(** A sequence of events. *)
Inductive steps : Page -> list Event -> Page -> Prop :=
  | steps_nil p : steps p [] p
  | steps_cons p e p' es p'' : step p e p' -> steps p' es p'' -> steps p (e :: es) p''.

(** The pages the script can be in: after [boot], then after any event. *)
Inductive reachable : Page -> Prop :=
  | reach_boot e cv d p :
      Env_ok e -> ratio_ok d = true -> boot d (fresh e cv) = Ok tt p -> reachable p
  | reach_step p e p' : reachable p -> step p e p' -> reachable p'.

(** The events run in order; one that is not enabled is skipped. *)
Fixpoint run (es : list Event) : P unit :=
  match es with
  | [] => mret tt
  | e :: es' =>
      ok ← gets (enabled e);
      when ok (handle e);;
      run es'
  end.
End machine.

#[export] Hint Unfold on_keydown on_keyup on_mousemove resizeCanvas on_play lastTime_init boot : comp.

Section machine_facts.
Context (cfg : Config) `{!Config_ok cfg} `{MathLib}.
Implicit Types (p : Page) (w : World) (e : Event).

(** ** The invariant of the page *)

(** Each overlay is shown exactly in its phase. *)
Record overlays_ok w : Prop := {
  ov_menu : Dom.menuVisible (dom w) = bool_decide (phase (STATE w) = Menu);
  ov_pause : Dom.pauseVisible (dom w) = State.paused (STATE w);
  ov_gameover : Dom.gameoverVisible (dom w) = State.over (STATE w);
}.

(** The canvas as [resizeCanvas] leaves it for the pixel ratio [dpr], and as
    every frame leaves it again: the bitmap is the playfield scaled by the
    ratio, the element has the size of the playfield, no drawing state is
    saved, the transformation is the scaling by the ratio and the opacity
    is 1. *)
Record sized (dpr : Q) (c : Canvas) : Prop := {
  sz_ratio : 0 < dpr /\ dpr <= 2;
  sz_width : cv_width c = to_ulong (width cfg * dpr);
  sz_height : cv_height c = to_ulong (height cfg * dpr);
  sz_style : style_width c = width cfg /\ style_height c = height cfg;
  sz_stack : Ctx.stack (context c) = [];
  sz_transform : Ctx.transform (Ctx.pen (context c)) = [Ctx.Matrix dpr 0 0 dpr 0 0];
  sz_alpha : Ctx.globalAlpha (Ctx.pen (context c)) = 1;
}.

Definition canvas_ok (c : Canvas) : Prop := exists dpr, sized dpr c.

Record Page_ok p : Prop := {
  pg_sim : Sim_ok cfg (world p);
  pg_overlays : overlays_ok (world p);
  pg_canvas : canvas_ok (canvas p);
}.

(** The phase in terms of the flags, under the invariant. *)
Lemma phase_Menu w :
  flags_ok (STATE w) -> phase (STATE w) = Menu ->
  State.running (STATE w) = false /\ State.paused (STATE w) = false /\
  State.over (STATE w) = false.
Proof.
  intros [Hp _ _ _]. unfold phase.
  destruct (State.over (STATE w)), (State.running (STATE w)) eqn:?,
    (State.paused (STATE w)); try done. now specialize (Hp eq_refl).
Qed.

Lemma phase_GameOver w :
  flags_ok (STATE w) -> State.over (STATE w) = true ->
  State.running (STATE w) = false /\ State.paused (STATE w) = false.
Proof.
  intros [Hp Ho _ _] Hov. specialize (Ho Hov). split; [done|].
  destruct (State.paused (STATE w)); [|done]. specialize (Hp eq_refl). congruence.
Qed.

Lemma phase_over w : State.over (STATE w) = true -> phase (STATE w) = GameOver.
Proof. unfold phase. now intros ->. Qed.

Lemma phase_paused w :
  flags_ok (STATE w) -> State.paused (STATE w) = true -> phase (STATE w) = Paused.
Proof.
  intros [Hp Ho _ _] Hpa. specialize (Hp Hpa). unfold phase. rewrite Hp, Hpa.
  destruct (State.over (STATE w)); [specialize (Ho eq_refl); congruence|done].
Qed.

(** *** The handlers of the script keep it *)

(** A new game: [reset] then [start], from a world whose pause and
    game-over overlays are hidden. *)
Lemma fresh_game_ok l w :
  Env_ok (env w) -> Forall (fresh_asteroid cfg true 1) l ->
  Dom.pauseVisible (dom w) = false -> Dom.gameoverVisible (dom w) = false ->
  let w' := exec start (reset_world cfg l w) in
  Sim_ok cfg w' /\ overlays_ok w' /\ phase (STATE w') = Running.
Proof.
  intros He Hl Hp Hg w'. split_and!; [|split; cbn; done|done].
  pose proof initialLives_pos.
  apply Sim_ok_start; [now apply Sim_ok_reset|done|cbn; lia].
Qed.

Lemma on_play_ok w :
  Sim_ok cfg w -> overlays_ok w -> Dom.menuVisible (dom w) = true ->
  wp (on_play cfg)
     (fun _ w' => Sim_ok cfg w' /\ overlays_ok w' /\ phase (STATE w') = Running) w.
Proof.
  intros Hw [Hm Hp Hg] Hen. rewrite Hm in Hen. apply bool_decide_eq_true in Hen.
  destruct (phase_Menu w (sim_flags _ _ Hw) Hen) as (_ & Hpa & Hov).
  unfold on_play. apply wp_bind. eapply wp_mono; [now apply reset_spec, (sim_env cfg)|].
  intros [] w1 (l & _ & Hl & ->). eapply wp_ok; [apply start_run|].
  apply (fresh_game_ok l w); [apply Hw|done|congruence..].
Qed.

Lemma restart_ok w :
  Sim_ok cfg w -> overlays_ok w -> State.over (STATE w) = true ->
  wp (restart cfg)
     (fun _ w' => Sim_ok cfg w' /\ overlays_ok w' /\ phase (STATE w') = Running) w.
Proof.
  intros Hw [Hm Hp Hg] Hov.
  destruct (phase_GameOver w (sim_flags _ _ Hw) Hov) as (_ & Hpa).
  unfold restart. apply wp_bind, wp_modify. apply wp_bind.
  eapply wp_mono; [apply reset_spec; [done|apply Hw]|].
  intros [] w1 (l & _ & Hl & ->). eapply wp_ok; [apply start_run|].
  apply (fresh_game_ok l (set_dom _ w)); [apply Hw|done|cbn; congruence|done].
Qed.

Lemma togglePause_ok w :
  Sim_ok cfg w -> overlays_ok w ->
  wp togglePause (fun _ w' => Sim_ok cfg w' /\ overlays_ok w') w.
Proof.
  intros Hw [Hm Hp Hg]. pose proof (Sim_ok_togglePause cfg w Hw) as Hw'.
  unfold exec in Hw'. unfold wp. rewrite togglePause_run in *.
  destruct (negb _ || _) eqn:E; [done|]. split; [done|].
  apply orb_false_elim in E as [Hr%negb_false_iff Ho].
  split; cbn; try done. rewrite Hm. unfold phase; cbn. rewrite Ho, Hr.
  now destruct (State.paused (STATE w)).
Qed.

(** A frame: the overlays follow the flags. *)
Lemma overlays_ok_moves dl dv dt w w' :
  flags_ok (STATE w) -> overlays_ok w -> moves cfg dl dv dt w w' -> overlays_ok w'.
Proof.
  intros Hf [Hm Hp Hg] M. pose proof (mv_nonneg _ _ _ _ _ _ M) as (Hdl & _).
  pose proof (mv_paused _ _ _ _ _ _ M) as Hpa.
  destruct (decide (dl = 0 \/ 0 < State.lives (STATE w'))%Z) as [Hc|Hc].
  - destruct (mv_flags _ _ _ _ _ _ M Hc) as (Hr & Ho & Hgo & _).
    split; [|rewrite (mv_pause _ _ _ _ _ _ M); congruence|congruence].
    rewrite (mv_menu _ _ _ _ _ _ M), Hm. unfold phase. now rewrite Hr, Ho, Hpa.
  - destruct (mv_over _ _ _ _ _ _ M) as (Ho & Hr & Hgo); [lia..|].
    destruct (mv_running _ _ _ _ _ _ M) as [Hr0 _]; [lia|].
    split; [|rewrite (mv_pause _ _ _ _ _ _ M); congruence|congruence].
    rewrite (mv_menu _ _ _ _ _ _ M), Hm. unfold phase. rewrite Ho, Hr0.
    destruct (State.over (STATE w)), (State.paused (STATE w)); done.
Qed.

(** Rendering leaves the canvas as it was sized. *)
Lemma sized_rendered dpr p p' : sized dpr (canvas p) -> rendered cfg p p' -> sized dpr (canvas p').
Proof.
  intros [Hr Hcw Hch Hst Hs Ht Ha] [_ Hc Hp Hs' _]. unfold pen_of in Hp.
  rewrite Hc. split; cbn [cv_width cv_height style_width style_height context set_context];
    try done; [congruence|now rewrite Hp..].
Qed.

Lemma frame_ok now p : Page_ok p -> wp (loop cfg now) (fun _ p' => Page_ok p') p.
Proof.
  intros [Hw Ho (dpr & Hc)]. eapply wp_mono; [now apply loop_spec|].
  intros [] p' (w1 & dl & dv & Hr & Hw1 & _ & _ & _ & M).
  pose proof (moves_trans _ _ _ _ _ _ _ _ _ _ M (moves_rendered cfg _ _ Hr)) as M'.
  split; [exact (Sim_ok_rendered cfg (set_world w1 p) _ Hw1 Hr)| |].
  - eapply overlays_ok_moves; [| |exact M']; [exact (sim_flags _ _ Hw)|now destruct Ho].
  - exists dpr. exact (sized_rendered dpr (set_world w1 p) p' Hc Hr).
Qed.

Lemma on_keydown_ok key code w :
  Sim_ok cfg w -> overlays_ok w ->
  wp (on_keydown cfg key code) (fun _ w' => Sim_ok cfg w' /\ overlays_ok w') w.
Proof.
  intros Hw Ho. unfold on_keydown. apply wp_bind, wp_modify.
  set (w0 := set_keys _ w).
  assert (Sim_ok cfg w0 /\ overlays_ok w0) as [Hw0 Ho0].
  { unfold w0. split; [destruct Hw as [? ? ? ? ? [] ? ? ? ? ?]; split; done|now destruct Ho]. }
  apply wp_bind. apply (wp_mono _ (fun _ w' => Sim_ok cfg w' /\ overlays_ok w')).
  { destruct (bool_decide (code = "Space")); cbn [when]; [|done].
    now apply togglePause_ok. }
  intros [] w1 [Hw1 Ho1]. wp_draw.
  destruct (bool_decide (code = "Enter")), (State.over (STATE w1)) eqn:Hov;
    cbn [andb when]; try done.
  eapply wp_mono; [now apply restart_ok|]. now intros [] w' (? & ? & _).
Qed.

Lemma pixel_ratio_le d : pixel_ratio d <= 2.
Proof. unfold pixel_ratio. apply Q.le_min_r. Qed.

Lemma pixel_ratio_pos d : ratio_ok d = true -> 0 < pixel_ratio d.
Proof.
  unfold ratio_ok, pixel_ratio. destruct d as [d|]; [|done].
  intros Hd%bool_decide_eq_true. case_bool_decide as H0; [done|].
  apply Q.min_glb_lt; [|lra]. destruct (Qle_lt_or_eq _ _ Hd) as [?|He]; [done|].
  destruct H0. now symmetry.
Qed.

(** The canvas [resizeCanvas] leaves. *)
Definition resized (d : option Q) : Canvas :=
  let dpr := pixel_ratio d in
  {| cv_width := to_ulong (width cfg * dpr); cv_height := to_ulong (height cfg * dpr);
     style_width := width cfg; style_height := height cfg;
     context := Ctx.setTransform dpr 0 0 dpr 0 0 Ctx.blank |}.

Lemma resizeCanvas_run d p : resizeCanvas cfg d p = Ok tt (set_canvas (resized d) p).
Proof. reflexivity. Qed.

Lemma resized_sized d : ratio_ok d = true -> sized (pixel_ratio d) (resized d).
Proof.
  intros Hd. split; try done. split; [now apply pixel_ratio_pos|apply pixel_ratio_le].
Qed.

Lemma resizeCanvas_ok d : ratio_ok d = true -> canvas_ok (resized d).
Proof. intros Hd. exists (pixel_ratio d). now apply resized_sized. Qed.

(** A computation of the script that keeps the invariant of the world keeps
    that of the page. *)
Lemma script_ok {A} (m : M A) p :
  Page_ok p ->
  wp m (fun _ w' => Sim_ok cfg w' /\ overlays_ok w') (world p) ->
  wp (script m) (fun _ p' => Page_ok p') p.
Proof.
  intros [_ _ Hc] Hm. apply wp_zoom. eapply wp_mono; [exact Hm|].
  intros a w' [? ?]. now split.
Qed.

(** An event whose handler stays within the model: a mouse event needs a
    canvas with extent. *)
Definition regular e : bool :=
  match e with
  | MouseMove rect _ _ => negb ((rect_width rect =? 0)%js || (rect_height rect =? 0)%js)
  | _ => true
  end.

(** Every handler keeps the invariant and does not throw. *)
Lemma handle_ok e p :
  Page_ok p -> enabled e p = true -> regular e = true ->
  wp (handle cfg e) (fun _ p' => Page_ok p') p.
Proof.
  intros Hp Hen Hreg. pose proof Hp as [Hw Ho Hc]. destruct e; cbn in Hen, Hreg; cbn [handle].
  - now apply script_ok, on_keydown_ok.
  - apply script_ok; [done|]. apply wp_modify.
    split; [destruct Hw as [? ? ? ? ? [] ? ? ? ? ?]; split; done|now destruct Ho].
  - unfold on_mousemove. apply wp_bind, wp_gets. apply negb_true_iff in Hreg.
    rewrite Hreg. apply script_ok; [done|]. apply wp_modify.
    split; [destruct Hw as [? ? ? ? ? [] ? ? ? ? ?]; split; done|now destruct Ho].
  - apply script_ok; [done|]. eapply wp_mono; [now apply on_play_ok|]. now intros [] w' (? & ? & _).
  - now apply script_ok, togglePause_ok.
  - apply script_ok; [done|]. rewrite (ov_gameover _ Ho) in Hen.
    eapply wp_mono; [now apply restart_ok|]. now intros [] w' (? & ? & _).
  - unfold wp. rewrite resizeCanvas_run. split; [done..|]. now apply resizeCanvas_ok.
  - now apply frame_ok.
Qed.

(** The world [boot] leaves: [reset] has run on the initial world and the
    menu is shown. *)
Definition boot_world (b : Env) (l : list Asteroid.obj) : World :=
  let w0 := wait 1 (set_lastTime (clock_tape b (clock_pos b)) (initial cfg b)) in
  let w1 := reset_world cfg l w0 in
  set_dom (Dom.set_menuVisible true (dom w1)) w1.

Lemma boot_run d (b : Env) cv :
  Env_ok b -> ratio_ok d = true ->
  wp (boot cfg d)
     (fun _ p => Page_ok p /\
        exists l, length l = Z.to_nat (initialAsteroids cfg) /\
          Forall (fresh_asteroid cfg true 1) l /\
          p = {| world := boot_world b l; canvas := resized d |})
     (fresh cfg b cv).
Proof.
  intros He Hd. unfold boot, lastTime_init. apply wp_bind, wp_zoom, wp_now_bind, wp_modify.
  apply wp_bind. unfold wp at 1.
  rewrite resizeCanvas_run. cbn [set_canvas world]. apply wp_bind, wp_zoom.
  eapply wp_mono; [apply reset_spec; [done|now apply skip_clock_ok]|].
  intros [] w' (l & Hlen & Hl & ->). apply wp_zoom, wp_modify. split; [|by exists l].
  split; cbn [world canvas set_world]; [| |now apply resizeCanvas_ok].
  - assert (Sim_ok cfg (reset_world cfg l (wait 1 (set_lastTime (clock_tape b (clock_pos b))
                                                  (initial cfg b))))) as [? ? ? ? ? [] ? ? ? ? ?].
    { apply Sim_ok_reset; [done|now apply skip_clock_ok|done]. }
    split; done.
  - split; done.
Qed.

(** ** Reachable pages *)

Lemma step_regular p e p' : step cfg p e p' -> regular e = true.
Proof.
  intros [e0 p0 p0' _ Hh]. destruct e0; try done. cbn in *.
  unfold on_mousemove in Hh. cbn in Hh. now destruct (_ || _).
Qed.

(** A step from a page that satisfies the invariant leads to one that does. *)
Lemma step_ok p e p' : Page_ok p -> step cfg p e p' -> Page_ok p'.
Proof.
  intros Hp Hs. pose proof (step_regular _ _ _ Hs) as Hreg.
  destruct Hs as [e p p' Hen Hh].
  pose proof (handle_ok e p Hp Hen Hreg) as Hwp. unfold wp in Hwp. now rewrite Hh in Hwp.
Qed.

(** The invariant holds of every reachable page, by induction on the way
    it is reached. *)
Lemma reachable_ok p : reachable cfg p -> Page_ok p.
Proof.
  induction 1 as [b cv d p He Hd Hb | p e p' _ IH Hs].
  - pose proof (boot_run d b cv He Hd) as Hwp. unfold wp in Hwp. rewrite Hb in Hwp. tauto.
  - eapply step_ok; eauto.
Qed.

Lemma steps_reachable p es p' : reachable cfg p -> steps cfg p es p' -> reachable cfg p'.
Proof. intros Hp Hs. induction Hs; [done|]. eauto using reach_step. Qed.


(** ** What holds of every reachable page *)

(** C28: the script starts without an exception: afterwards the game is in
    the menu phase with the menu shown, score 0, full lives, level 1, the
    initial asteroids, no crystal and no particle, the ship at the start
    position, the frame time read from the clock, and the canvas sized for
    the pixel ratio with a blank context scaled by it. *)
Theorem boot_spec d (b : Env) cv :
  Env_ok b -> ratio_ok d = true ->
  wp (boot cfg d)
     (fun _ p =>
        let w := world p in
        phase (STATE w) = Menu /\ Dom.menuVisible (dom w) = true /\
        State.score (STATE w) = 0%Z /\ State.lives (STATE w) = initialLives cfg /\
        State.level (STATE w) = 1%Z /\
        length (Entities.asteroids (entities w)) = Z.to_nat (initialAsteroids cfg) /\
        Entities.crystals (entities w) = [] /\ Entities.particles (entities w) = [] /\
        Entities.ship (entities w) = Some (Ship.new cfg (width cfg / 2) (height cfg * 0.75)) /\
        lastTime w = clock_tape b (clock_pos b) /\
        canvas p = resized d)
     (fresh cfg b cv).
Proof.
  intros He Hd. eapply wp_mono; [now apply boot_run|].
  intros [] p (_ & l & Hlen & _ & ->). cbn. now split_and!.
Qed.

(** C3: no handler throws on a reachable page: every event that is
    enabled, a mouse event on a canvas with extent, has a step, and the page
    it leads to is reachable. *)
Theorem reachable_progress p e :
  reachable cfg p -> enabled e p = true -> regular e = true ->
  exists p', step cfg p e p' /\ reachable cfg p'.
Proof.
  intros Hp Hen Hreg.
  destruct (wp_inv _ _ _ (handle_ok e p (reachable_ok p Hp) Hen Hreg)) as ([] & p' & Hh & _).
  assert (step cfg p e p') by now constructor. eauto using reach_step.
Qed.

(** C7: on every reachable page the ship exists and lies inside the
    playfield by its size, every asteroid is within the band the wrap-around
    keeps, and no particle is dead. *)
Theorem reachable_playfield p :
  reachable cfg p ->
  let es := entities (world p) in
  (exists sh, Entities.ship es = Some sh /\
     (ship_size (ship cfg) <= Ship.x sh <= width cfg - ship_size (ship cfg)) /\
     (ship_size (ship cfg) <= Ship.y sh <= height cfg - ship_size (ship cfg))) /\
  Forall (Asteroid.in_band cfg) (Entities.asteroids es) /\
  Forall (fun q => Particle.dead q = false) (Entities.particles es).
Proof.
  intros [[_ (sh & Hs & [Hsz _ Hx Hy _ _]) Ha _ Hq _ _ _ _ _ _] _ _]%reachable_ok es.
  split_and!.
  - exists sh. rewrite <- Hsz. now split_and!.
  - eapply Forall_impl; [exact Ha|]. now intros a [_ ?].
  - eapply Forall_impl; [exact Hq|]. now intros q [? _].
Qed.

(** C6: on every reachable page the lives are between 0 and the initial
    number and are 0 exactly when the game is over; the level is at least 1,
    the score and the tick are not negative; a paused game is running and a
    game that is over is not. *)
Theorem reachable_counters p :
  reachable cfg p ->
  let s := STATE (world p) in
  (0 <= State.lives s <= initialLives cfg)%Z /\
  (State.lives s = 0%Z <-> State.over s = true) /\
  (1 <= State.level s)%Z /\ (0 <= State.score s)%Z /\ (0 <= State.tick s)%Z /\
  (State.paused s = true -> State.running s = true) /\
  (State.over s = true -> State.running s = false).
Proof.
  intros [[_ _ _ _ _ [Hp Ho Hl Ha] ? ? ? ? _] _ _]%reachable_ok s.
  fold s in Hp, Ho, Hl, Ha. split_and!; try (done || (subst s; lia)).
  split; [|exact Hl]. intros H0. destruct (State.over s) eqn:E; [done|].
  specialize (Ha eq_refl). lia.
Qed.

(** C27: on every reachable page the HUD shows the score, the level and
    the lives of [STATE], the menu is shown exactly in the menu phase, the
    pause overlay exactly while the game is paused and the game-over overlay
    exactly when the game is over. *)
Theorem reachable_display p :
  reachable cfg p ->
  let w := world p in
  hud_synced cfg w /\
  Dom.menuVisible (dom w) = bool_decide (phase (STATE w) = Menu) /\
  Dom.pauseVisible (dom w) = bool_decide (phase (STATE w) = Paused) /\
  Dom.gameoverVisible (dom w) = bool_decide (phase (STATE w) = GameOver).
Proof.
  intros [Hw [Hm Hp Hg] _]%reachable_ok w. subst w. split_and!; [apply Hw|done| |].
  - rewrite Hp. pose proof (sim_flags _ _ Hw) as Hf.
    destruct (State.paused (STATE (world p))) eqn:E.
    + now rewrite (phase_paused _ Hf E).
    + unfold phase. rewrite E.
      now destruct (State.over (STATE (world p))), (State.running (STATE (world p))).
  - rewrite Hg. unfold phase. destruct (State.over (STATE (world p))); [done|].
    now destruct (State.running (STATE (world p))), (State.paused (STATE (world p))).
Qed.

(** ** The canvas *)

Lemma to_ulong_nonneg v : 0 <= v -> 0 <= to_ulong v.
Proof.
  intros Hv. unfold to_ulong. change 0 with (inject_Z 0). rewrite <- Zle_Qle.
  change 0%Z with (Qfloor 0). now apply Qfloor_resp_le.
Qed.

(** The rectangle [(x0, y0, x1, y1)] of device pixels covers the bitmap of
    the canvas. *)
Definition covers (r : Q * Q * Q * Q) (c : Canvas) : Prop :=
  let '(x0, y0, x1, y1) := r in
  x0 <= 0 /\ y0 <= 0 /\ cv_width c <= x1 /\ cv_height c <= y1.

(** The device pixels that [clearRect(0, 0, canvas.width, canvas.height)]
    clears on a canvas sized for the ratio [dpr]. *)
Lemma cleared_rect dpr p :
  sized dpr (canvas p) ->
  let c := canvas p in
  Ctx.device_rect (Ctx.transform (pen_of p)) 0 0 (cv_width c) (cv_height c) =
    Some (dpr * 0 + 0, dpr * 0 + 0, dpr * (0 + cv_width c) + 0, dpr * (0 + cv_height c) + 0).
Proof.
  intros [[Hd _] _ _ _ _ Ht _]. unfold pen_of. rewrite Ht. cbn.
  now rewrite !bool_decide_eq_true_2.
Qed.

(** C21: the drawing context is in its base state between two events: on
    every reachable page the bitmap has the size of the playfield scaled by
    a pixel ratio in (0, 2] and truncated, the element has the size of the
    playfield, no drawing state is saved, for every [save] of a frame was
    followed by its [restore], the transformation is the scaling by the
    ratio and the opacity is 1. *)
Theorem reachable_canvas p : reachable cfg p -> exists dpr, sized dpr (canvas p).
Proof. now intros [_ _ Hc]%reachable_ok. Qed.

(** C15: [render] clears the rectangle [(0, 0, canvas.width,
    canvas.height)] in the coordinates of the context, which are scaled by
    the pixel ratio: the device pixels cleared are those up to the ratio
    times the size of the bitmap.  They cover the bitmap exactly when the
    ratio is at least 1; under a ratio below 1 the right and bottom part of
    the bitmap keeps what earlier frames painted. *)
Theorem clear_covers dpr p :
  Sim_ok cfg (world p) -> sized dpr (canvas p) -> 0 < cv_width (canvas p) ->
  exists p' tr cw ch rest r,
    render cfg p = Ok tt p' /\
    Ctx.painted (context (canvas p')) =
      Ctx.painted (context (canvas p)) ++ Ctx.Cleared tr 0 0 cw ch :: rest /\
    Ctx.device_rect tr 0 0 cw ch = Some r /\
    (covers r (canvas p) <-> 1 <= dpr).
Proof.
  intros Hw Hc Hcw.
  destruct (wp_inv _ _ _ (render_spec cfg p Hw)) as ([] & p' & Hrun & [_ _ _ _ (l & Hp & _)]).
  do 5 eexists. eexists. split_and!; [exact Hrun|exact Hp|exact (cleared_rect dpr p Hc)|].
  assert (0 <= cv_height (canvas p)).
  { rewrite (sz_height _ _ Hc). apply to_ulong_nonneg.
    pose proof (height_pos cfg). destruct (sz_ratio _ _ Hc). nra. }
  unfold covers. split; [intros (_ & _ & ? & _)|intros ?; split_and!]; nra.
Qed.

(** C16: the mouse is kept in pixels of the bitmap: a mouse event at
    [(clientX, clientY)] over a canvas laid out at its style size stores the
    offset in the element multiplied by the pixel ratio, while [Ship.draw]
    compares it with the position of the ship, which is in the coordinates
    of the playfield; the two agree only under a ratio of 1. *)
Theorem mousemove_scaled dpr p rect clientX clientY :
  sized dpr (canvas p) ->
  rect_width rect = width cfg -> rect_height rect = height cfg ->
  to_ulong (width cfg * dpr) == width cfg * dpr ->
  to_ulong (height cfg * dpr) == height cfg * dpr ->
  exists p', on_mousemove rect clientX clientY p = Ok tt p' /\
    (mouse (world p')).1 == (clientX - rect_left rect) * dpr /\
    (mouse (world p')).2 == (clientY - rect_top rect) * dpr /\
    canvas p' = canvas p /\ entities (world p') = entities (world p).
Proof.
  intros [_ Hcw Hch _ _ _ _] Hrw Hrh Hw Hh.
  pose proof (width_pos cfg). pose proof (height_pos cfg).
  unfold on_mousemove. rewrite bind_run. cbn [gets]. rewrite Hrw, Hrh, Hcw, Hch.
  rewrite !bool_decide_eq_false_2 by lra. cbn [orb].
  eexists. split; [reflexivity|]. cbn. rewrite Hw, Hh. split_and!; try done; field; lra.
Qed.
End machine_facts.
