(* ===== verification/Phases.v ===== *)
(** * Phases: the state machine of the game

    The phases menu, running, paused and game over with the transitions
    between them form the abstract machine of the game; [step_refines] shows
    that the pages of [Machine] refine it.  The file also relates the
    counters before and after an event: during a run the score never drops
    and a frame costs at most one life; an event that starts a new game
    resets them.  [reachable_slow] shows that the asteroids of every
    reachable page are within the speed their type and the level allow. *)

From stdpp Require Import gmap strings pretty.
From S2P Require Import Prelude Browser Config Geometry Entities World Canvas Spawner Flow.
From S2P Require Import Invariant Update Step Page Draw Frame Machine.

Section phases.
Context (cfg : Config) `{!Config_ok cfg} `{MathLib}.
Implicit Types (p : Page) (w : World) (e : Event).

(** ** The state machine of the game *)

(** The events that leave the phase [ph] alone. *)
Definition idle (ph : Phase) (e : Event) : bool :=
  match e with
  | KeyDown _ code =>
      match ph with
      | Running | Paused => negb (bool_decide (code = "Space"))
      | GameOver => negb (bool_decide (code = "Enter"))
      | Menu => true
      end
  | KeyUp _ | MouseMove _ _ _ | Resize _ | Frame _ => true
  | ClickPlay | ClickResume | ClickRestart => false
  end.

(** The transitions: play, pause and resume, the loss of the last life,
    restart. *)
Inductive transition : Phase -> Event -> Phase -> Prop :=
  | tr_play : transition Menu ClickPlay Running
  | tr_pause key : transition Running (KeyDown key "Space") Paused
  | tr_unpause key : transition Paused (KeyDown key "Space") Running
  | tr_resume : transition Paused ClickResume Running
  | tr_game_over now : transition Running (Frame now) GameOver
  | tr_restart : transition GameOver ClickRestart Running
  | tr_enter key : transition GameOver (KeyDown key "Enter") Running
  | tr_idle ph e : idle ph e = true -> transition ph e ph.

(** The phase after [togglePause]. *)
Definition toggled (ph : Phase) : Phase :=
  match ph with Running => Paused | Paused => Running | _ => ph end.

Lemma togglePause_phase w :
  phase (STATE (exec togglePause w)) = toggled (phase (STATE w)).
Proof.
  unfold exec. rewrite togglePause_run. unfold phase.
  destruct (State.running (STATE w)) eqn:Hr, (State.over (STATE w)) eqn:Hov,
    (State.paused (STATE w)) eqn:Hpa; cbn; rewrite ?Hr, ?Hov, ?Hpa; done.
Qed.

(** The listener of [keydown], by cases on the key. *)
Lemma on_keydown_run key code w :
  let w0 := set_keys ({[code]} ∪ keys w) w in
  on_keydown cfg key code w =
  if bool_decide (code = "Space") then togglePause w0
  else if bool_decide (code = "Enter") && State.over (STATE w) then restart cfg w0
  else Ok tt w0.
Proof.
  intros w0. unfold on_keydown. rewrite bind_run. cbn [modify]. fold w0. rewrite bind_run.
  case_bool_decide as Hc; cbn [when].
  - subst code. rewrite togglePause_run.
    destruct (negb _ || _); rewrite bind_run; unfold getS, gets;
      now rewrite (bool_decide_eq_false_2 ("Space" = "Enter")).
  - cbn. unfold mbind, Comp_bind, bind, getS, gets. now destruct (bool_decide _ && _).
Qed.

(** A frame leaves the phase alone or ends the game. *)
Lemma frame_phase now p :
  Sim_ok cfg (world p) ->
  wp (loop cfg now)
     (fun _ p' => phase (STATE (world p')) = phase (STATE (world p)) \/
                  phase (STATE (world p)) = Running /\ phase (STATE (world p')) = GameOver) p.
Proof.
  intros Hw. eapply wp_mono; [now apply loop_moves|].
  intros [] p' (Hw' & _ & dl & dv & _ & _ & M). set (w := world p) in *. set (w' := world p') in *.
  pose proof (mv_paused _ _ _ _ _ _ M) as Hpa.
  pose proof (mv_nonneg _ _ _ _ _ _ M) as (? & _).
  destruct (decide (dl = 0 \/ 0 < State.lives (STATE w'))%Z) as [Hc|Hc].
  - destruct (mv_flags _ _ _ _ _ _ M Hc) as (Hr & Ho & _). left. unfold phase.
    now rewrite Hr, Ho, Hpa.
  - destruct (mv_over _ _ _ _ _ _ M) as (Ho & _); [lia..|].
    destruct (mv_running _ _ _ _ _ _ M) as [Hr Hp]; [lia|]. cbn in Hr, Hp.
    pose proof (over_stopped _ (sim_flags _ _ Hw)) as Hos.
    right. unfold phase. rewrite Ho, Hr, Hp.
    destruct (State.over (STATE w)); [specialize (Hos eq_refl); congruence|done].
Qed.

Lemma script_inv {A} (m : M A) p a p' :
  script m p = Ok a p' -> exists w', m (world p) = Ok a w' /\ p' = set_world w' p.
Proof.
  unfold script, zoom. destruct (m (world p)) as [a' w'|]; [|done].
  intros [= <- <-]. now exists w'.
Qed.

(** The transition [togglePause] makes, by a key or by the button. *)
Lemma toggled_transition key ph :
  transition ph (KeyDown key "Space") (toggled ph).
Proof. destruct ph; cbn; constructor; done. Qed.

Lemma keydown_refines key code w w' :
  Sim_ok cfg w -> overlays_ok w -> on_keydown cfg key code w = Ok tt w' ->
  transition (phase (STATE w)) (KeyDown key code) (phase (STATE w')).
Proof.
  intros Hw Ho. rewrite on_keydown_run. cbv zeta. set (w0 := set_keys _ w).
  case_bool_decide as Hsp; [|case_bool_decide as Hen; cbn [andb]].
  - intros Hrun. subst code. rewrite <- (exec_ok _ _ _ _ Hrun), togglePause_phase.
    apply toggled_transition.
  - destruct (State.over (STATE w)) eqn:Hov.
    + intros Hrun. subst code. rewrite (phase_over w Hov).
      assert (wp (restart cfg) (fun _ w1 => phase (STATE w1) = Running) w0) as Hwp.
      { eapply wp_mono; [apply (restart_ok cfg w0); [|now destruct Ho|done]|now intros [] ? (_ & _ & ?)].
        destruct Hw as [? ? ? ? ? [] ? ? ? ? ?]; split; done. }
      unfold wp in Hwp. rewrite Hrun in Hwp. rewrite Hwp. constructor.
    + intros [= <-]. apply tr_idle. cbn. unfold phase; cbn. rewrite Hov.
      destruct (State.running (STATE w)); [|done].
      destruct (State.paused (STATE w)); cbn; now rewrite bool_decide_eq_false_2.
  - intros [= <-]. apply tr_idle. cbn. unfold phase; cbn.
    destruct (State.over (STATE w)); [now rewrite bool_decide_eq_false_2|].
    destruct (State.running (STATE w)); [|done].
    destruct (State.paused (STATE w)); cbn; now rewrite bool_decide_eq_false_2.
Qed.

(** C2: the pages refine the state machine of the game: an event takes a
    page that satisfies the invariant from its phase to a phase the
    transitions allow.  The menu is left by Play only; Space and Resume
    switch between running and paused; only a frame ends the game; only
    Restart and Enter leave the game-over phase. *)
Theorem step_refines p e p' :
  Page_ok cfg p -> step cfg p e p' ->
  transition (phase (STATE (world p))) e (phase (STATE (world p'))).
Proof.
  intros Hp Hs. destruct Hs as [e p p' Hen Hh]. destruct Hp as [Hw Ho Hc].
  destruct e; cbn in Hen; cbn [handle] in Hh.
  - apply script_inv in Hh as (w' & Hrun & ->); cbn [world set_world]. now apply keydown_refines.
  - apply script_inv in Hh as (w' & [= <-] & ->). now apply (tr_idle (phase (STATE (world p)))).
  - unfold on_mousemove in Hh. rewrite bind_run in Hh. cbn [gets] in Hh.
    destruct (_ || _); [done|]. apply script_inv in Hh as (w' & [= <-] & ->).
    now apply (tr_idle (phase (STATE (world p)))).
  - apply script_inv in Hh as (w' & Hrun & ->); cbn [world set_world].
    rewrite (ov_menu _ Ho) in Hen. apply bool_decide_eq_true in Hen. rewrite Hen.
    pose proof (on_play_ok cfg _ Hw Ho) as Hwp. rewrite (ov_menu _ Ho) in Hwp.
    specialize (Hwp (bool_decide_eq_true_2 _ Hen)). unfold wp in Hwp. rewrite Hrun in Hwp.
    destruct Hwp as (_ & _ & ->). constructor.
  - apply script_inv in Hh as (w' & Hrun & ->); cbn [world set_world]. rewrite (ov_pause _ Ho) in Hen.
    rewrite <- (exec_ok _ _ _ _ Hrun), togglePause_phase.
    rewrite (phase_paused _ (sim_flags _ _ Hw) Hen). constructor.
  - apply script_inv in Hh as (w' & Hrun & ->); cbn [world set_world]. rewrite (ov_gameover _ Ho) in Hen.
    pose proof (restart_ok cfg _ Hw Ho Hen) as Hwp. unfold wp in Hwp. rewrite Hrun in Hwp.
    destruct Hwp as (_ & _ & Hph). rewrite Hph, (phase_over _ Hen).
    constructor.
  - rewrite resizeCanvas_run in Hh. injection Hh as <-.
    now apply (tr_idle (phase (STATE (world p)))).
  - pose proof (frame_phase now _ Hw) as Hwp. unfold wp in Hwp. rewrite Hh in Hwp.
    destruct Hwp as [-> | [-> ->] ]; [now apply tr_idle|constructor].
Qed.
(** ** Runs *)

(** The events that start a new game. *)
Definition resets e w : bool :=
  match e with
  | ClickPlay | ClickRestart => true
  | KeyDown _ code => bool_decide (code = "Enter") && State.over (STATE w)
  | _ => false
  end.

Lemma keydown_counters key code w w' :
  on_keydown cfg key code w = Ok tt w' -> resets (KeyDown key code) w = false ->
  State.score (STATE w') = State.score (STATE w) /\
  State.lives (STATE w') = State.lives (STATE w) /\
  State.level (STATE w') = State.level (STATE w).
Proof.
  rewrite on_keydown_run. cbv zeta. cbn [resets]. case_bool_decide as Hsp.
  - rewrite togglePause_run. destruct (negb _ || _); now intros [= <-].
  - intros Hrun Hres. rewrite Hres in Hrun. now injection Hrun as <-.
Qed.

(** C25: during a run the score never drops: an event that does not start
    a new game leaves the score at least as high, takes at most one life and
    never lowers the level. *)
Theorem step_monotone p e p' :
  Page_ok cfg p -> step cfg p e p' -> resets e (world p) = false ->
  let s := STATE (world p) in let s' := STATE (world p') in
  (State.score s <= State.score s')%Z /\
  (State.lives s - 1 <= State.lives s' <= State.lives s)%Z /\
  (State.level s <= State.level s')%Z.
Proof.
  intros Hp Hs. destruct Hs as [e p p' Hen Hh]. destruct Hp as [Hw Ho Hc].
  destruct e; cbn [handle resets] in *; intros Hres; try done.
  - apply script_inv in Hh as (w' & Hrun & ->); cbn [world set_world].
    destruct (keydown_counters _ _ _ _ Hrun Hres) as (-> & -> & ->). lia.
  - apply script_inv in Hh as (w' & [= <-] & ->). cbn. lia.
  - unfold on_mousemove in Hh. rewrite bind_run in Hh. cbn [gets] in Hh.
    destruct (_ || _); [done|]. apply script_inv in Hh as (w' & [= <-] & ->). cbn. lia.
  - apply script_inv in Hh as (w' & Hrun & ->); cbn [world set_world].
    rewrite togglePause_run in Hrun. destruct (negb _ || _); injection Hrun as <-; cbn; lia.
  - rewrite resizeCanvas_run in Hh. injection Hh as <-. cbn. lia.
  - pose proof (loop_moves cfg now _ Hw) as Hwp. unfold wp in Hwp. rewrite Hh in Hwp.
    destruct Hwp as (_ & _ & dl & dv & Hdl & Hdv & []). cbn in *. lia.
Qed.

(** A new game is the world [reset] and [start] leave, with asteroids as
    [spawnAsteroid] creates them at level 1. *)
Definition new_game w' : Prop :=
  exists l w0, Forall (fresh_asteroid cfg true 1) l /\ w' = exec start (reset_world cfg l w0).

Lemma restart_new w : Env_ok (env w) -> wp (restart cfg) (fun _ w' => new_game w') w.
Proof.
  intros He. unfold restart. apply wp_bind, wp_modify. apply wp_bind.
  eapply wp_mono; [apply reset_spec; [done|apply He]|].
  intros [] w1 (l & _ & Hl & ->). eapply wp_ok; [apply start_run|]. unfold new_game. eauto.
Qed.

Lemma on_play_new w : Env_ok (env w) -> wp (on_play cfg) (fun _ w' => new_game w') w.
Proof.
  intros He. unfold on_play. apply wp_bind.
  eapply wp_mono; [apply reset_spec; [done|apply He]|].
  intros [] w1 (l & _ & Hl & ->). eapply wp_ok; [apply start_run|]. unfold new_game. eauto.
Qed.

Lemma step_resets p e p' :
  Page_ok cfg p -> step cfg p e p' -> resets e (world p) = true -> new_game (world p').
Proof.
  intros Hp Hs. destruct Hs as [e p p' Hen Hh]. pose proof (sim_env _ _ (pg_sim _ _ Hp)) as He.
  destruct e; cbn [handle resets] in *; intros Hres; try done;
    apply script_inv in Hh as (w' & Hrun & ->); cbn [world set_world].
  - rewrite on_keydown_run in Hrun. cbv zeta in Hrun.
    apply andb_prop in Hres as [Hen'%bool_decide_eq_true Hov]. subst code.
    rewrite bool_decide_eq_false_2, bool_decide_eq_true_2 in Hrun by done.
    cbn [andb] in Hrun. rewrite Hov in Hrun.
    pose proof (restart_new (set_keys ({["Enter"]} ∪ keys (world p)) (world p)) He) as Hwp.
    unfold wp in Hwp. now rewrite Hrun in Hwp.
  - pose proof (on_play_new _ He) as Hwp. unfold wp in Hwp. now rewrite Hrun in Hwp.
  - pose proof (restart_new _ He) as Hwp. unfold wp in Hwp. now rewrite Hrun in Hwp.
Qed.

(** C26: an event that starts a new game leads to the running phase with
    score 0, full lives, level 1 and tick 0, the timers at 0, the ship at
    the start position, no crystal and no particle. *)
Theorem step_new_game p e p' :
  Page_ok cfg p -> step cfg p e p' -> resets e (world p) = true ->
  let w' := world p' in
  phase (STATE w') = Running /\ State.score (STATE w') = 0%Z /\
  State.lives (STATE w') = initialLives cfg /\ State.level (STATE w') = 1%Z /\
  State.tick (STATE w') = 0%Z /\
  State.lastDifficultyMs (STATE w') = 0 /\ State.lastCrystalMs (STATE w') = 0 /\
  Entities.ship (entities w') = Some (Ship.new cfg (width cfg / 2) (height cfg * 0.75)) /\
  Entities.crystals (entities w') = [] /\ Entities.particles (entities w') = [].
Proof.
  intros Hp Hs Hres w'. destruct (step_resets p e p' Hp Hs Hres) as (l & w0 & _ & Hw').
  subst w'. rewrite Hw'. now cbn.
Qed.

(** ** The speed of the asteroids *)

Lemma new_game_slow w' : new_game w' -> asteroids_slow cfg w'.
Proof.
  intros (l & w0 & Hl & ->). unfold asteroids_slow. cbn.
  eapply Forall_impl; [exact Hl|]. intros a. now apply fresh_asteroid_slow.
Qed.

Lemma keydown_slow key code w w' :
  on_keydown cfg key code w = Ok tt w' -> resets (KeyDown key code) w = false ->
  asteroids_slow cfg w -> asteroids_slow cfg w'.
Proof.
  rewrite on_keydown_run. cbv zeta. cbn [resets]. case_bool_decide as Hsp.
  - rewrite togglePause_run. destruct (negb _ || _); now intros [= <-].
  - intros Hrun Hres. rewrite Hres in Hrun. now injection Hrun as <-.
Qed.

(** An event keeps the asteroids slow: a new game has asteroids spawned at
    level 1, a frame keeps them as [update] does, and the other events leave
    the asteroids and the level alone. *)
Lemma step_slow p e p' :
  Page_ok cfg p -> step cfg p e p' ->
  asteroids_slow cfg (world p) -> asteroids_slow cfg (world p').
Proof.
  intros Hp Hs Hslow. destruct (resets e (world p)) eqn:Hres.
  { eapply new_game_slow, step_resets; eauto. }
  destruct Hs as [e p p' Hen Hh]. destruct Hp as [Hw Ho Hc].
  destruct e; cbn [handle resets] in *; try done.
  - apply script_inv in Hh as (w' & Hrun & ->); cbn [world set_world].
    now apply (keydown_slow key code (world p)).
  - now apply script_inv in Hh as (w' & [= <-] & ->).
  - unfold on_mousemove in Hh. rewrite bind_run in Hh. cbn [gets] in Hh.
    destruct (_ || _); [done|]. now apply script_inv in Hh as (w' & [= <-] & ->).
  - apply script_inv in Hh as (w' & Hrun & ->); cbn [world set_world].
    rewrite togglePause_run in Hrun. now destruct (negb _ || _); injection Hrun as <-.
  - rewrite resizeCanvas_run in Hh. now injection Hh as <-.
  - pose proof (loop_moves cfg now _ Hw) as Hwp. unfold wp in Hwp. rewrite Hh in Hwp.
    destruct Hwp as (_ & _ & dl & dv & _ & _ & M). exact (mv_slow _ _ _ _ _ _ M Hslow).
Qed.

(** On every reachable page each asteroid has the size of a type of the
    table and is, along each axis, no faster than the base speed of this
    type plus 0.3 plus 0.1 per level. *)
Lemma reachable_slow p : reachable cfg p -> asteroids_slow cfg (world p).
Proof.
  induction 1 as [b cv d p He Hd Hb | p e p' Hp IH Hs].
  - pose proof (boot_run cfg d b cv He Hd) as Hwp. unfold wp in Hwp. rewrite Hb in Hwp.
    destruct Hwp as (_ & l & _ & Hl & ->). unfold asteroids_slow. cbn.
    eapply Forall_impl; [exact Hl|]. intros a. now apply fresh_asteroid_slow.
  - exact (step_slow p e p' (reachable_ok cfg p Hp) Hs IH).
Qed.

(** [run] follows the steps. *)
Lemma run_steps p es p' : steps cfg p es p' -> run cfg es p = Ok tt p'.
Proof.
  induction 1 as [p|p e p' es p'' [e0 p0 p0' Hen Hh] _ IH]; [done|].
  cbn [run]. rewrite bind_run. cbn [gets]. rewrite Hen. rewrite bind_run. cbn [when].
  now rewrite Hh.
Qed.

(** ** The game can always be played *)

(** The click that leads to the running phase from a phase. *)
Definition resume (ph : Phase) : list Event :=
  match ph with
  | Menu => [ClickPlay]
  | Paused => [ClickResume]
  | GameOver => [ClickRestart]
  | Running => []
  end.

(** A click whose handler is a computation of the script. *)
Lemma click_step e (m : M unit) (Q : World -> Prop) p :
  handle cfg e = script m -> enabled e p = true -> wp m (fun _ w' => Q w') (world p) ->
  exists p', steps cfg p [e] p' /\ Q (world p').
Proof.
  intros Hh Hen ([] & w' & Hrun & HQ)%wp_inv. exists (set_world w' p).
  split; [|done]. eapply steps_cons; [|apply steps_nil].
  constructor; [done|]. rewrite Hh. unfold script, zoom. now rewrite Hrun.
Qed.

(** C22: the game can be played from every reachable page: in the running
    phase it is being played, and from the menu, from a pause and from a
    game that is over one click, on the button the overlay of the phase
    shows, is enabled, does not throw and leads to the running phase. *)
Theorem reachable_can_run p :
  reachable cfg p ->
  exists p', steps cfg p (resume (phase (STATE (world p)))) p' /\
    phase (STATE (world p')) = Running.
Proof.
  intros Hp. destruct (reachable_ok cfg p Hp) as [Hw Ho _].
  destruct (phase (STATE (world p))) eqn:Hph; cbn [resume].
  - apply (click_step ClickPlay (on_play cfg) (fun w' => phase (STATE w') = Running)); [done|cbn; now rewrite (ov_menu _ Ho), Hph|].
    eapply wp_mono; [apply on_play_ok; [done..|now rewrite (ov_menu _ Ho), Hph]|].
    now intros [] w' (_ & _ & ?).
  - exists p. split; [constructor|done].
  - assert (State.paused (STATE (world p)) = true) as Hpa.
    { unfold phase in Hph. now repeat case_match. }
    apply (click_step ClickResume togglePause (fun w' => phase (STATE w') = Running)); [done|cbn; now rewrite (ov_pause _ Ho)|].
    eapply wp_ok; [exact (proj1 (wp_run _ _ _ (togglePause_ok cfg _ Hw Ho)))|].
    now rewrite togglePause_phase, Hph.
  - assert (State.over (STATE (world p)) = true) as Hov.
    { unfold phase in Hph. now repeat case_match. }
    apply (click_step ClickRestart (restart cfg) (fun w' => phase (STATE w') = Running)); [done|cbn; now rewrite (ov_gameover _ Ho)|].
    eapply wp_mono; [now apply restart_ok|]. now intros [] w' (_ & _ & ?).
Qed.
End phases.
