(* ===== verification/Examples.v ===== *)
(** * Examples: the theorems at the configuration of the source

    Concrete data, a browser, worlds and pages of the game with the table
    [CONFIG] of [game.js] and the rational [Math] of [Browser], and the
    theorems of the development applied to them. *)

From stdpp Require Import gmap strings pretty.
From S2P Require Import Prelude Browser Config Geometry Entities World Canvas Spawner Flow.
From S2P Require Import Invariant Update Tick Step Page Draw Frame Machine Phases.

(** ** The data *)

(** A browser whose [Math.random] always returns 0.5 and whose clock
    advances by 16 ms with every reading. *)
Definition env0 : Env :=
  {| random_tape := fun _ => 0.5; random_pos := 0;
     clock_tape := fun n => inject_Z (16 * Z.of_nat n); clock_pos := 0 |}.

(** The ship at the start position, an asteroid of the smallest type and a
    blue crystal at the same place. *)
Definition ship0 : Ship.obj := Ship.new CONFIG 400 450.

Definition rock : Asteroid.obj :=
  {| Asteroid.x := 400; Asteroid.y := 450; Asteroid.vx := 0; Asteroid.vy := 0;
     Asteroid.size := 30; Asteroid.wave := false; Asteroid.phase := 0;
     Asteroid.hp := 1; Asteroid.rot := 0; Asteroid.spin := 0;
     Asteroid.hue := Some 20%Z; Asteroid.light := Some 30%Z |}.

Definition blue : CrystalType := {| ct_color := "blue"; ct_points := 10; ct_size := 15 |}.

Definition gem : Crystal.obj :=
  {| Crystal.x := 400; Crystal.y := 450; Crystal.type := blue; Crystal.t := 0;
     Crystal.spin := 0; Crystal.rot := 0 |}.

Definition spark : Particle.obj :=
  {| Particle.x := 0; Particle.y := 0; Particle.life := 20; Particle.t := 3;
     Particle.color := "#aaf8ff"; Particle.vx := 1; Particle.vy := 0; Particle.size := 2 |}.

(** A running game with [lives] lives in which the ship, the asteroid and
    the crystal overlap. *)
Definition playing (lives : Z) : World :=
  let st := {| State.running := true; State.paused := false; State.over := false;
               State.score := 0; State.lives := lives; State.level := 1; State.tick := 0;
               State.lastCrystalMs := 0; State.lastDifficultyMs := 0 |} in
  {| STATE := st;
     entities := {| Entities.ship := Some ship0; Entities.asteroids := [rock];
                    Entities.crystals := [gem]; Entities.particles := [] |};
     keys := ∅; mouse := (400, 300); lastTime := 0;
     dom := hud CONFIG st Dom.init;
     env := env0 |}.

(** The same game, paused, and the world when the script starts. *)
Definition paused_game : World :=
  set_dom (Dom.set_pauseVisible true (dom (playing 3)))
    (set_STATE (State.set_paused true (STATE (playing 3))) (playing 3)).

Definition menu0 : World := initial CONFIG env0.

Lemma env0_ok : Env_ok env0.
Proof.
  split; cbn.
  - intros _. split; [discriminate|reflexivity].
  - intros n. change 0 with (inject_Z 0). rewrite <- Zle_Qle. lia.
  - intros n m Hnm. rewrite <- Zle_Qle. lia.
Qed.

Lemma ship0_wf : Ship.wf CONFIG ship0.
Proof. split; cbn; try done; split; lra. Qed.

Lemma playing_ok lives : (1 <= lives <= 3)%Z -> Sim_ok CONFIG (playing lives).
Proof.
  intros Hl. split; cbn; try (done || lia).
  - apply env0_ok.
  - exists ship0. split; [done|apply ship0_wf].
  - repeat constructor; cbn; lra.
  - repeat constructor. unfold blue. set_solver.
  - split; cbn; (done || (intros; lia)).
Qed.

(** ** Geometry and entities *)

Lemma Ship_update_in_bounds_witness :
  let s' := Ship.update CONFIG {["KeyD"]} (Ship.new CONFIG 778 30) in
  (20 <= Ship.x s' /\ Ship.x s' <= 780) /\ (20 <= Ship.y s' /\ Ship.y s' <= 580).
Proof. exact (Ship_update_in_bounds CONFIG {["KeyD"]} (Ship.new CONFIG 778 30) eq_refl). Defined.

Lemma Ship_update_displacement_witness :
  let s' := Ship.update CONFIG {["KeyW"; "KeyD"]} ship0 in
  Qabs (Ship.x s' - 400) <= 5 /\ Qabs (Ship.y s' - 450) <= 5.
Proof. exact (Ship_update_displacement CONFIG {["KeyW"; "KeyD"]} ship0 ship0_wf). Defined.

Definition rock_out : Asteroid.obj :=
  {| Asteroid.x := 848; Asteroid.y := 100; Asteroid.vx := 5; Asteroid.vy := 0;
     Asteroid.size := 30; Asteroid.wave := false; Asteroid.phase := 0;
     Asteroid.hp := 1; Asteroid.rot := 0; Asteroid.spin := 0;
     Asteroid.hue := Some 20%Z; Asteroid.light := Some 30%Z |}.

Lemma Asteroid_update_in_band_witness :
  let a' := Asteroid.update CONFIG 7 rock_out in
  Asteroid.in_band CONFIG a' /\ Asteroid.size a' = 30 /\
  Asteroid.vx a' = 5 /\ Asteroid.vy a' = 0.
Proof. apply (Asteroid_update_in_band CONFIG 7 rock_out). discriminate. Defined.

(** The asteroid at 848 moves by 5 beyond the edge of the band at 850 and
    re-enters at -50, not at -47. *)
Lemma Asteroid_update_wrap_right_witness :
  Asteroid.x (Asteroid.update CONFIG 7 rock_out) = - 30 - 20.
Proof. apply (Asteroid_update_wrap_right CONFIG 7 rock_out); [discriminate|reflexivity]. Defined.

Lemma Particle_ttl_dead_witness : Particle.dead (Nat.iter 17 Particle.update spark) = true.
Proof. apply (Particle_ttl_dead spark 17). vm_compute. constructor. Defined.

Lemma Particle_visible_iff_alive_witness : Particle.visible spark = negb (Particle.dead spark).
Proof. apply (Particle_visible_iff_alive spark). reflexivity. Defined.

(** ** Spawner *)

Lemma spawnAsteroid_offscreen_witness :
  exists w', spawnAsteroid CONFIG true (playing 3) = Ok tt w' /\
    length (Entities.asteroids (entities w')) = 2%nat /\ STATE w' = STATE (playing 3).
Proof.
  destruct (wp_inv _ _ _ (spawnAsteroid_offscreen CONFIG (playing 3) env0_ok ltac:(done)))
    as ([] & w' & Hrun & a & t & Ha & _ & _ & _ & _ & _ & _ & HS & _).
  exists w'. split_and!; [exact Hrun| |exact HS]. now rewrite Ha.
Defined.

Lemma spawnExplosion_particles_witness :
  exists w', spawnExplosion 400 450 "#ff5f7a" (playing 3) = Ok tt w' /\
    length (Entities.particles (entities w')) = 30%nat.
Proof.
  destruct (wp_inv _ _ _ (spawnExplosion_particles 400 450 "#ff5f7a" (playing 3) env0_ok))
    as ([] & w' & Hrun & ps & Hps & Hlen & _).
  exists w'. split; [exact Hrun|]. now rewrite Hps.
Defined.

Lemma spawnCrystal_inside_witness :
  exists w', spawnCrystal CONFIG (playing 3) = Ok tt w' /\
    length (Entities.crystals (entities w')) = 2%nat.
Proof.
  destruct (wp_inv _ _ _ (spawnCrystal_inside CONFIG (playing 3) env0_ok))
    as ([] & w' & Hrun & c & Hc & _).
  exists w'. split; [exact Hrun|]. now rewrite Hc.
Defined.

(** ** Flow *)

(** The game with the ship just respawned: invulnerable for 120 frames. *)
Definition shielded : World :=
  set_entities (Entities.set_ship (Some (respawn CONFIG ship0)) (entities (playing 3)))
    (playing 3).

Lemma shielded_ok : Sim_ok CONFIG shielded.
Proof.
  destruct (playing_ok 3 ltac:(lia)) as [? ? ? ? ? ? ? ? ? ? ?]. split; try done.
  eexists. split; [done|]. apply respawn_wf; [apply _|apply ship0_wf].
Qed.

Lemma togglePause_noop_witness : togglePause menu0 = Ok tt menu0.
Proof. apply (togglePause_noop menu0). left. reflexivity. Defined.

Lemma togglePause_toggle_witness :
  exists w', togglePause (playing 3) = Ok tt w' /\ phase (STATE w') = Paused /\
    Dom.pauseVisible (dom w') = true.
Proof.
  destruct (togglePause_toggle (playing 3) (or_introl eq_refl)) as (w' & Hrun & Hph & Hv & Hp & _).
  exists w'. split_and!; [exact Hrun|exact Hph|]. now rewrite Hv, Hp.
Defined.

Lemma togglePause_twice_witness : (togglePause ;; togglePause) (playing 3) = Ok tt (playing 3).
Proof. exact (togglePause_twice (playing 3) eq_refl eq_refl eq_refl). Defined.

Lemma reset_state_witness :
  exists w', reset CONFIG menu0 = Ok tt w' /\ STATE w' = State.init CONFIG /\
    length (Entities.asteroids (entities w')) = 3%nat.
Proof.
  destruct (wp_inv _ _ _ (reset_state CONFIG menu0 env0_ok)) as ([] & w' & Hrun & HS & _ & Hl & _).
  exists w'. now split_and!.
Defined.

Lemma Ship_hit_invulnerable_witness :
  exists w', Ship_hit CONFIG shielded = Ok tt w' /\ State.lives (STATE w') = 3%Z.
Proof.
  destruct (wp_inv _ _ _ (Ship_hit_invulnerable CONFIG shielded (respawn CONFIG ship0)
                            eq_refl ltac:(done)))
    as ([] & w' & Hrun & Hl & _).
  exists w'. now split.
Defined.

Lemma Ship_hit_last_life_witness :
  exists w', Ship_hit CONFIG (playing 1) = Ok tt w' /\
    State.lives (STATE w') = 0%Z /\ phase (STATE w') = GameOver /\
    Dom.finalScore (dom w') = "Final Score: 0".
Proof.
  destruct (wp_inv _ _ _ (Ship_hit_last_life CONFIG (playing 1) ship0 env0_ok eq_refl
                            ltac:(done) eq_refl))
    as ([] & w' & Hrun & Hl & Hph & _ & _ & Hf & _).
  exists w'. now split_and!.
Defined.

Lemma Ship_hit_respawn_witness :
  exists w', Ship_hit CONFIG (playing 3) = Ok tt w' /\
    State.lives (STATE w') = 2%Z /\
    Entities.ship (entities w') = Some (respawn CONFIG ship0) /\
    Ship.inv (respawn CONFIG ship0) = 120%Z.
Proof.
  destruct (wp_inv _ _ _ (Ship_hit_respawn CONFIG (playing 3) ship0 env0_ok eq_refl
                            ltac:(done) ltac:(done)))
    as ([] & w' & Hrun & Hl & _ & _ & Hs & Hi & _).
  exists w'. now split_and!.
Defined.

Lemma restart_spec_witness :
  exists w', restart CONFIG (playing 1) = Ok tt w' /\ phase (STATE w') = Running /\
    Dom.gameoverVisible (dom w') = false.
Proof.
  destruct (wp_inv _ _ _ (restart_spec CONFIG (playing 1) env0_ok))
    as ([] & w' & Hrun & l & _ & _ & _ & Hph & Hg & _).
  exists w'. now split_and!.
Defined.

(** ** The blocks of [update] *)

(** The ship collects the crystal under it: the score rises by its 10
    points and no crystal is left. *)
Lemma ship_crystal_filter_witness :
  exists w', ship_crystal CONFIG (Ship.bounds ship0) 1 (playing 3) = Ok tt w' /\
    Entities.crystals (entities w') = [] /\ State.score (STATE w') = 10%Z /\
    length (Entities.particles (entities w')) = 18%nat.
Proof.
  destruct (wp_inv _ _ _ (ship_crystal_filter CONFIG (Ship.bounds ship0) (playing 3) env0_ok))
    as ([] & w' & Hrun & Hc & Hs & Hp & _).
  exists w'. split_and!; [exact Hrun|now rewrite Hc|now rewrite Hs|now rewrite Hp].
Defined.

(** The same game 32 seconds after the load of the page. *)
Definition late : World := set_env (skip_clock 2000 env0) (playing 3).

Lemma late_ok : Sim_ok CONFIG late.
Proof. apply (Sim_ok_clock CONFIG 2000 (playing 3)), playing_ok. lia. Qed.

Lemma difficulty_ramp_level_up_witness :
  exists w', difficulty_ramp CONFIG late = Ok tt w' /\
    State.level (STATE w') = 2%Z /\
    length (Entities.asteroids (entities w')) = 4%nat.
Proof.
  destruct (wp_inv _ _ _ (difficulty_ramp_level_up CONFIG late (sim_env _ _ late_ok)))
    as ([] & w' & Hrun & Hpost).
  change (ramp_due CONFIG late) with true in Hpost. cbv iota zeta in Hpost.
  destruct Hpost as (Hl & _ & _ & Hn & _).
  exists w'. split_and!; [exact Hrun|exact Hl|exact (Hn eq_refl)].
Defined.

Lemma maintain_asteroids_one_witness :
  exists w', maintain_asteroids CONFIG (playing 3) = Ok tt w' /\
    length (Entities.asteroids (entities w')) = 2%nat.
Proof.
  destruct (wp_inv _ _ _ (maintain_asteroids_one CONFIG (playing 3) env0_ok))
    as ([] & w' & Hrun & Hn & _).
  exists w'. split; [exact Hrun|exact Hn].
Defined.

(** ** A step *)

(** The scenario of the specification: three lives, the ship on an asteroid
    and on a crystal worth 10.  After the step two lives are left, the score
    is 10 and the ship is at the start position, invulnerable for 120
    frames. *)
Lemma update_hit_and_collect_witness :
  exists w', update CONFIG 16 (playing 3) = Ok tt w' /\
    State.lives (STATE w') = 2%Z /\ State.score (STATE w') = 10%Z /\
    Entities.crystals (entities w') = [] /\
    exists sh, Entities.ship (entities w') = Some sh /\ Ship.inv sh = 120%Z /\
               Ship.x sh = 800 / 2 /\ Ship.y sh = 600 * 0.75.
Proof.
  destruct (wp_inv _ _ _ (update_hit_and_collect CONFIG 16 ship0 (playing 3) env0_ok
                            eq_refl eq_refl eq_refl eq_refl ltac:(done)))
    as ([] & w' & Hrun & Hl & Hs & Hc & Hsh & _).
  exists w'. split_and!; [exact Hrun|exact Hl|now rewrite Hs|now rewrite Hc|].
  eexists. split; [exact Hsh|]. now split_and!.
Defined.

(** The same step on the last life: the game is over, the final score
    reads 0 and the score is 10. *)
Lemma update_last_life_witness :
  exists w', update CONFIG 16 (playing 1) = Ok tt w' /\
    State.over (STATE w') = true /\
    Dom.finalScore (dom w') = "Final Score: 0" /\
    State.score (STATE w') = 10%Z /\ Dom.hudScore (dom w') = "Score: 10".
Proof.
  destruct (wp_inv _ _ _ (update_last_life CONFIG 16 ship0 (playing 1) env0_ok
                            eq_refl eq_refl eq_refl eq_refl eq_refl))
    as ([] & w' & Hrun & _ & Ho & _ & _ & Hf & Hs & Hh).
  exists w'. split_and!; [exact Hrun|exact Ho|exact Hf|now rewrite Hs|now rewrite Hh].
Defined.

Lemma update_counters_witness :
  exists w', update CONFIG 16 (playing 3) = Ok tt w' /\
    State.tick (STATE w') = 1%Z /\ State.level (STATE w') = 1%Z /\
    (2 <= State.lives (STATE w') <= 3)%Z.
Proof.
  destruct (wp_inv _ _ _ (update_counters CONFIG 16 (playing 3) (playing_ok 3 ltac:(lia))
                            eq_refl eq_refl))
    as ([] & w' & Hrun & Ht & Hl & _ & Hv & _).
  exists w'. split_and!; [exact Hrun|exact Ht|exact Hv|apply Hl|apply Hl].
Defined.

Lemma update_invulnerable_witness :
  exists w', update CONFIG 16 shielded = Ok tt w' /\
    State.lives (STATE w') = 3%Z /\
    exists sh, Entities.ship (entities w') = Some sh /\ Ship.inv sh = 119%Z.
Proof.
  destruct (wp_inv _ _ _ (update_invulnerable CONFIG 16 (respawn CONFIG ship0) shielded
                            shielded_ok eq_refl eq_refl eq_refl ltac:(done)))
    as ([] & w' & Hrun & M & Hs & Hi).
  exists w'. split_and!; [exact Hrun|now rewrite (mv_lives _ _ _ _ _ _ M)|].
  eexists. split; [exact Hs|exact Hi].
Defined.

Lemma update_life_lost_witness :
  exists w', update CONFIG 16 (playing 3) = Ok tt w' /\
    (State.lives (STATE w') <> 3%Z ->
     State.lives (STATE w') = 2%Z /\ State.running (STATE w') = true).
Proof.
  destruct (wp_inv _ _ _ (update_life_lost CONFIG 16 (playing 3) (playing_ok 3 ltac:(lia))
                            eq_refl eq_refl))
    as ([] & w' & Hrun & Hpost).
  exists w'. split; [exact Hrun|]. intros Hne. destruct (Hpost Hne) as (Hl & Hr & _).
  now split.
Defined.

(** The asteroid of [playing] is of the first type of the table and at
    rest. *)
Lemma playing_slow lives : asteroids_slow CONFIG (playing lives).
Proof.
  constructor; [|constructor]. exists {| at_size := 30; at_speed := 2 |}.
  split_and!; [set_solver|done..].
Qed.

Lemma update_well_formed_witness :
  exists w', update CONFIG 16 (playing 3) = Ok tt w' /\ Sim_ok CONFIG w' /\
    asteroids_slow CONFIG w'.
Proof.
  destruct (update_well_formed CONFIG 16 (playing 3) (playing_ok 3 ltac:(lia)) eq_refl eq_refl)
    as (w' & Hrun & Hw' & Hs).
  exists w'. split_and!; [exact Hrun|exact Hw'|exact (Hs (playing_slow 3))].
Defined.

(** A game started 32 seconds after the load of the page is at level 2
    after its first step. *)
Lemma first_step_levels_up_witness :
  exists w', update CONFIG 16 (exec start (reset_world CONFIG [] late)) = Ok tt w' /\
    State.level (STATE w') = 2%Z /\ State.tick (STATE w') = 1%Z.
Proof.
  destruct (wp_inv _ _ _ (first_step_levels_up CONFIG 16 [] late (sim_env _ _ late_ok)
                            (List.Forall_nil _) ltac:(discriminate)))
    as ([] & w' & Hrun & Hl & Ht).
  exists w'. now split_and!.
Defined.

(** ** Rendering *)

(** The canvas sized for a pixel ratio, and pages that show the game of
    [playing], the paused game and the world before [reset]. *)
Definition sized_canvas (dpr : Q) : Canvas := resized CONFIG (Some dpr).

Definition game_page : Page := {| world := playing 3; canvas := sized_canvas 1 |}.
Definition paused_page : Page := {| world := paused_game; canvas := sized_canvas 1 |}.
Definition zoomed_out : Page := {| world := playing 3; canvas := sized_canvas 0.5 |}.
Definition retina : Page := {| world := playing 3; canvas := sized_canvas 2 |}.
Definition unset_page : Page := {| world := menu0; canvas := sized_canvas 1 |}.

Lemma paused_ok : Sim_ok CONFIG paused_game.
Proof.
  destruct (playing_ok 3 ltac:(lia)) as [? ? ? ? ? ? ? ? ? ? ?]. split; done.
Qed.

Lemma render_paints_witness :
  exists p' l, render CONFIG paused_page = Ok tt p' /\
    scene (world paused_page) (Ctx.with_fill (vignette CONFIG) (pen_of paused_page)) l /\
    Ctx.painted (context (canvas p')) =
      Ctx.painted (context (canvas paused_page)) ++ background CONFIG paused_page ++ l
        ++ pause_text CONFIG (world paused_page)
             (Ctx.with_fill (vignette CONFIG) (pen_of paused_page)).
Proof. exact (render_paints CONFIG paused_page paused_ok). Defined.

(** The frame of the game of [playing]: the cleared rectangle and the
    vignette, three shapes of the crystal, two of the asteroid and four of
    the ship; in the paused game the text on top.  The first entry has no
    opacity: it is the cleared rectangle. *)
Lemma render_game_page_shapes :
  length (Ctx.painted (context (canvas (exec (render CONFIG) game_page)))) = 11%nat.
Proof. vm_compute. reflexivity. Qed.

Lemma render_paused_page_opacity :
  Ctx.opacity <$> Ctx.painted (context (canvas (exec (render CONFIG) paused_page))) =
  [None; Some 1; Some 1; Some 1; Some 0.6; Some 1; Some 1; Some 1; Some 1; Some 1; Some 1; Some 1].
Proof. vm_compute. reflexivity. Qed.

Lemma render_read_only_witness :
  exists p', render CONFIG game_page = Ok tt p' /\
    STATE (world p') = STATE (playing 3) /\ entities (world p') = entities (playing 3) /\
    env (world p') = skip_random 10 env0.
Proof.
  destruct (render_read_only CONFIG game_page (playing_ok 3 ltac:(lia)))
    as (p' & Hrun & HS & He & _ & _ & _ & _ & Hv & _).
  exists p'. now split_and!.
Defined.

Lemma Ship_draw_paints_witness :
  exists p' l, Ship_draw (respawn CONFIG ship0) game_page = Ok tt p' /\ paints 0 l game_page p' /\
    Ctx.opacity <$> l = replicate 4 (Some 0.4).
Proof.
  destruct (Ship_draw_paints (respawn CONFIG ship0) game_page ltac:(done))
    as (p' & l & Hrun & Hl & [Ho _ _]).
  exists p', l. split_and!; [exact Hrun|exact Hl|exact Ho].
Defined.

Lemma Asteroid_draw_within_witness :
  exists p' l vs, Asteroid_draw rock game_page = Ok tt p' /\ paints 10 l game_page p' /\
    Ctx.outline <$> l = [Some vs; Some vs] /\ length vs = 10%nat /\
    Forall (near (30 * 0.94)) vs.
Proof. exact (Asteroid_draw_within rock game_page env0_ok ltac:(done)). Defined.

Lemma render_without_ship_witness : render CONFIG unset_page = Throw TypeError.
Proof. exact (render_without_ship CONFIG unset_page eq_refl (List.Forall_nil _)). Defined.

Lemma loop_idle_witness :
  exists p', loop CONFIG 16 paused_page = Ok tt p' /\ STATE (world p') = STATE paused_game /\
    entities (world p') = entities paused_game /\ lastTime (world p') = 16.
Proof.
  destruct (loop_idle CONFIG 16 paused_page paused_ok eq_refl)
    as (p' & Hrun & HS & He & _ & _ & Ht & _).
  exists p'. now split_and!.
Defined.

(** ** The canvas *)

Lemma sized_canvas_ok dpr :
  0 < dpr -> dpr <= 2 -> ~ dpr == 0 -> pixel_ratio (Some dpr) = dpr ->
  sized CONFIG dpr (sized_canvas dpr).
Proof. intros ? ? ? Hd. rewrite <- Hd at 1. apply resized_sized, bool_decide_eq_true_2. lra. Qed.

Lemma clear_covers_witness :
  exists p' tr cw ch rest r,
    render CONFIG zoomed_out = Ok tt p' /\
    Ctx.painted (context (canvas p')) =
      Ctx.painted (context (canvas zoomed_out)) ++ Ctx.Cleared tr 0 0 cw ch :: rest /\
    Ctx.device_rect tr 0 0 cw ch = Some r /\
    (covers r (canvas zoomed_out) <-> 1 <= 0.5).
Proof.
  exact (clear_covers CONFIG 0.5 zoomed_out (playing_ok 3 ltac:(lia))
           (sized_canvas_ok 0.5 ltac:(done) ltac:(done) ltac:(done) eq_refl) ltac:(done)).
Defined.

(** At half the pixel ratio the bitmap is 400 by 300 pixels, of which the
    frame clears the 200 by 150 at the top left. *)
Lemma clear_zoomed_out :
  cv_width (canvas zoomed_out) = 400 /\ cv_height (canvas zoomed_out) = 300 /\
  exists x0 y0 x1 y1,
    Ctx.device_rect (Ctx.transform (pen_of zoomed_out)) 0 0 400 300 = Some (x0, y0, x1, y1) /\
    x0 == 0 /\ y0 == 0 /\ x1 == 200 /\ y1 == 150.
Proof. split_and!; [done..|]. do 4 eexists. split; [vm_compute; reflexivity|done]. Qed.

Lemma mousemove_scaled_witness :
  exists p', on_mousemove (mkRect 0 0 800 600) 400 450 retina = Ok tt p' /\
    (mouse (world p')).1 == (400 - 0) * 2 /\ (mouse (world p')).2 == (450 - 0) * 2.
Proof.
  destruct (mousemove_scaled CONFIG 2 retina (mkRect 0 0 800 600) 400 450
              (sized_canvas_ok 2 ltac:(done) ltac:(done) ltac:(done) eq_refl)
              eq_refl eq_refl ltac:(done) ltac:(done))
    as (p' & Hrun & Hx & Hy & _).
  now exists p'.
Defined.

(** ** The page *)

(** The canvas element before the script has sized it, the page after
    [boot], after a click on Play and after the first frame. *)
Definition canvas0 : Canvas :=
  {| cv_width := 300; cv_height := 150; style_width := 0; style_height := 0;
     context := Ctx.blank |}.

Definition page0 : Page := exec (boot CONFIG None) (fresh CONFIG env0 canvas0).
Definition page1 : Page := exec (handle CONFIG ClickPlay) page0.
Definition page2 : Page := exec (handle CONFIG (Frame 16)) page1.

Lemma page0_reachable : reachable CONFIG page0.
Proof.
  apply (reach_boot CONFIG env0 canvas0 None); [apply env0_ok|done|]. unfold page0.
  exact (proj1 (wp_run _ _ _ (boot_run CONFIG None env0 canvas0 env0_ok eq_refl))).
Qed.

Lemma page0_menu : enabled ClickPlay page0 = true.
Proof.
  unfold page0.
  destruct (wp_run _ _ _ (boot_run CONFIG None env0 canvas0 env0_ok eq_refl))
    as (_ & _ & l & _ & _ & Hp).
  rewrite Hp. reflexivity.
Qed.

(** A step of the machine from a page that satisfies the invariant. *)
Lemma step_exec p e :
  Page_ok CONFIG p -> enabled e p = true -> regular e = true ->
  step CONFIG p e (exec (handle CONFIG e) p).
Proof.
  intros Hp Hen Hreg. constructor; [exact Hen|].
  exact (proj1 (wp_run _ _ _ (handle_ok CONFIG e p Hp Hen Hreg))).
Qed.

Lemma step_play : step CONFIG page0 ClickPlay page1.
Proof.
  unfold page1.
  apply step_exec; [exact (reachable_ok CONFIG page0 page0_reachable)|apply page0_menu|reflexivity].
Qed.

Lemma page1_reachable : reachable CONFIG page1.
Proof. exact (reach_step _ _ _ _ page0_reachable step_play). Qed.

Lemma step_frame : step CONFIG page1 (Frame 16) page2.
Proof.
  unfold page2.
  apply step_exec; [exact (reachable_ok CONFIG page1 page1_reachable)|reflexivity..].
Qed.

Lemma boot_spec_witness :
  exists p, boot CONFIG None (fresh CONFIG env0 canvas0) = Ok tt p /\
    phase (STATE (world p)) = Menu /\ Dom.menuVisible (dom (world p)) = true /\
    length (Entities.asteroids (entities (world p))) = 3%nat /\
    cv_width (canvas p) = 800 /\ cv_height (canvas p) = 600.
Proof.
  destruct (wp_inv _ _ _ (boot_spec CONFIG None env0 canvas0 env0_ok eq_refl))
    as ([] & p & Hrun & Hph & Hm & _ & _ & _ & Hn & _ & _ & _ & _ & Hcv).
  exists p. rewrite Hcv. now split_and!.
Defined.

Lemma reachable_progress_witness :
  exists p', step CONFIG page0 ClickPlay p' /\ reachable CONFIG p'.
Proof. exact (reachable_progress CONFIG page0 ClickPlay page0_reachable page0_menu eq_refl). Defined.

Lemma reachable_playfield_witness :
  (exists sh, Entities.ship (entities (world page2)) = Some sh /\
     (20 <= Ship.x sh /\ Ship.x sh <= 800 - 20) /\ (20 <= Ship.y sh /\ Ship.y sh <= 600 - 20)) /\
  Forall (Asteroid.in_band CONFIG) (Entities.asteroids (entities (world page2))) /\
  Forall (fun q => Particle.dead q = false) (Entities.particles (entities (world page2))).
Proof.
  exact (reachable_playfield CONFIG page2 (reach_step _ _ _ _ page1_reachable step_frame)).
Defined.

Lemma reachable_counters_witness :
  (0 <= State.lives (STATE (world page2)) <= 3)%Z /\
  (State.lives (STATE (world page2)) = 0%Z <-> State.over (STATE (world page2)) = true).
Proof.
  destruct (reachable_counters CONFIG page2 (reach_step _ _ _ _ page1_reachable step_frame))
    as (Hl & Ho & _).
  exact (conj Hl Ho).
Defined.

Lemma reachable_display_witness :
  hud_synced CONFIG (world page1) /\
  Dom.menuVisible (dom (world page1)) = bool_decide (phase (STATE (world page1)) = Menu).
Proof.
  destruct (reachable_display CONFIG page1 page1_reachable) as (Hh & Hm & _).
  exact (conj Hh Hm).
Defined.

Lemma reachable_canvas_witness : exists dpr, sized CONFIG dpr (canvas page2).
Proof. exact (reachable_canvas CONFIG page2 (reach_step _ _ _ _ page1_reachable step_frame)). Defined.

Lemma reachable_can_run_witness :
  exists p', steps CONFIG page0 (resume (phase (STATE (world page0)))) p' /\
    phase (STATE (world p')) = Running.
Proof. exact (reachable_can_run CONFIG page0 page0_reachable). Defined.

(** A session: Play, a frame, Space, two more frames.  One tick was
    simulated, the game is paused, and the bitmap holds the shapes of three
    frames: 12 of the first, with three asteroids, and 13 of each of the two
    paused ones. *)
Lemma session_paused :
  let p := exec (run CONFIG [ClickPlay; Frame 16; KeyDown " " "Space"; Frame 32; Frame 48]) page0 in
  State.tick (STATE (world p)) = 1%Z /\ phase (STATE (world p)) = Paused /\
  lastTime (world p) = 48 /\ length (Ctx.painted (context (canvas p))) = 38%nat.
Proof. vm_compute. done. Qed.

(** ** The state machine *)

Lemma step_refines_witness :
  transition (phase (STATE (world page0))) ClickPlay (phase (STATE (world page1))).
Proof. exact (step_refines CONFIG page0 ClickPlay page1 (reachable_ok CONFIG page0 page0_reachable) step_play). Defined.

Lemma step_monotone_witness :
  (State.score (STATE (world page1)) <= State.score (STATE (world page2)))%Z /\
  (State.lives (STATE (world page2)) <= State.lives (STATE (world page1)))%Z.
Proof.
  destruct (step_monotone CONFIG page1 (Frame 16) page2 (reachable_ok CONFIG page1 page1_reachable)
              step_frame eq_refl) as (Hs & [_ Hl] & _).
  exact (conj Hs Hl).
Defined.

Lemma step_new_game_witness :
  phase (STATE (world page1)) = Running /\ State.score (STATE (world page1)) = 0%Z /\
  State.lives (STATE (world page1)) = 3%Z.
Proof.
  destruct (step_new_game CONFIG page0 ClickPlay page1 (reachable_ok CONFIG page0 page0_reachable)
              step_play eq_refl) as (Hph & Hs & Hl & _).
  now split_and!.
Defined.
